(** * Shallow embedding of md-2-spa's custom-parse pipeline

    Python [str] values are modelled as lists of Unicode code points
    ([pystr := list Z]); string literals of the source are written
    [lit "..."]. Python dicts are association lists with Python's
    insertion-order semantics (assignment to an existing key keeps its
    position). *)

From Stdlib Require Import String Ascii ZArith List Bool Lia Permutation Sorting.Sorted.
Import ListNotations.
Open Scope Z_scope.

(* ------------------------------------------------------------------ *)
(** ** Python strings *)

Definition pystr := list Z.

Definition lit (s : string) : pystr :=
  map (fun a => Z.of_nat (nat_of_ascii a)) (list_ascii_of_string s).

Definition str_eqb (a b : pystr) : bool :=
  if list_eq_dec Z.eq_dec a b then true else false.

(** Code points of the characters the source names. *)
Definition ch_tab := 9.
Definition ch_nl := 10.
Definition ch_space := 32.
Definition ch_dquote := 34.
Definition ch_amp := 38.
Definition ch_squote := 39.
Definition ch_hyphen := 45.
Definition ch_dot := 46.
Definition ch_slash := 47.
Definition ch_lt := 60.
Definition ch_eq := 61.
Definition ch_gt := 62.
Definition ch_underscore := 95.
Definition ch_pipe := 124.

(** [str.isspace] / regex [\s] / argument-less [str.strip]: CPython's
    [Py_UNICODE_ISSPACE], the same predicate for all three. *)
Definition py_isspace (c : Z) : bool :=
  ((9 <=? c) && (c <=? 13)) || ((28 <=? c) && (c <=? 32)) || (c =? 133)
  || (c =? 160) || (c =? 5760) || ((8192 <=? c) && (c <=? 8202))
  || (c =? 8232) || (c =? 8233) || (c =? 8239) || (c =? 8287)
  || (c =? 12288).

(* ------------------------------------------------------------------ *)
(** ** Unicode character database

    The tables of CPython 3.11 (Unicode 14.0) that [str.lower],
    [str.title] and the [re] module consult. A case mapping is stored as
    ranges [(lo, hi, step, delta)]: every [c] of [lo..hi] with
    [(c - lo) mod step = 0] maps to [c + delta]; the few characters that
    map to several characters are listed apart. Characters in no entry map
    to themselves. *)

Definition LOWER_SINGLE : list (Z * Z * Z * Z) := [
  (65, 90, 1, 32); (192, 214, 1, 32); (216, 222, 1, 32); (256, 302, 2, 1);
  (306, 310, 2, 1); (313, 327, 2, 1); (330, 374, 2, 1); (376, 376, 1, (-121));
  (377, 381, 2, 1); (385, 385, 1, 210); (386, 388, 2, 1); (390, 390, 1, 206);
  (391, 391, 1, 1); (393, 394, 1, 205); (395, 395, 1, 1); (398, 398, 1, 79);
  (399, 399, 1, 202); (400, 400, 1, 203); (401, 401, 1, 1); (403, 403, 1, 205);
  (404, 404, 1, 207); (406, 406, 1, 211); (407, 407, 1, 209); (408, 408, 1, 1);
  (412, 412, 1, 211); (413, 413, 1, 213); (415, 415, 1, 214); (416, 420, 2, 1);
  (422, 422, 1, 218); (423, 423, 1, 1); (425, 425, 1, 218); (428, 428, 1, 1);
  (430, 430, 1, 218); (431, 431, 1, 1); (433, 434, 1, 217); (435, 437, 2, 1);
  (439, 439, 1, 219); (440, 440, 1, 1); (444, 444, 1, 1); (452, 452, 1, 2);
  (453, 453, 1, 1); (455, 455, 1, 2); (456, 456, 1, 1); (458, 458, 1, 2);
  (459, 475, 2, 1); (478, 494, 2, 1); (497, 497, 1, 2); (498, 500, 2, 1);
  (502, 502, 1, (-97)); (503, 503, 1, (-56)); (504, 542, 2, 1); (544, 544, 1, (-130));
  (546, 562, 2, 1); (570, 570, 1, 10795); (571, 571, 1, 1); (573, 573, 1, (-163));
  (574, 574, 1, 10792); (577, 577, 1, 1); (579, 579, 1, (-195)); (580, 580, 1, 69);
  (581, 581, 1, 71); (582, 590, 2, 1); (880, 882, 2, 1); (886, 886, 1, 1);
  (895, 895, 1, 116); (902, 902, 1, 38); (904, 906, 1, 37); (908, 908, 1, 64);
  (910, 911, 1, 63); (913, 929, 1, 32); (931, 939, 1, 32); (975, 975, 1, 8);
  (984, 1006, 2, 1); (1012, 1012, 1, (-60)); (1015, 1015, 1, 1); (1017, 1017, 1, (-7));
  (1018, 1018, 1, 1); (1021, 1023, 1, (-130)); (1024, 1039, 1, 80); (1040, 1071, 1, 32);
  (1120, 1152, 2, 1); (1162, 1214, 2, 1); (1216, 1216, 1, 15); (1217, 1229, 2, 1);
  (1232, 1326, 2, 1); (1329, 1366, 1, 48); (4256, 4293, 1, 7264); (4295, 4295, 1, 7264);
  (4301, 4301, 1, 7264); (5024, 5103, 1, 38864); (5104, 5109, 1, 8); (7312, 7354, 1, (-3008));
  (7357, 7359, 1, (-3008)); (7680, 7828, 2, 1); (7838, 7838, 1, (-7615)); (7840, 7934, 2, 1);
  (7944, 7951, 1, (-8)); (7960, 7965, 1, (-8)); (7976, 7983, 1, (-8)); (7992, 7999, 1, (-8));
  (8008, 8013, 1, (-8)); (8025, 8031, 2, (-8)); (8040, 8047, 1, (-8)); (8072, 8079, 1, (-8));
  (8088, 8095, 1, (-8)); (8104, 8111, 1, (-8)); (8120, 8121, 1, (-8)); (8122, 8123, 1, (-74));
  (8124, 8124, 1, (-9)); (8136, 8139, 1, (-86)); (8140, 8140, 1, (-9)); (8152, 8153, 1, (-8));
  (8154, 8155, 1, (-100)); (8168, 8169, 1, (-8)); (8170, 8171, 1, (-112)); (8172, 8172, 1, (-7));
  (8184, 8185, 1, (-128)); (8186, 8187, 1, (-126)); (8188, 8188, 1, (-9)); (8486, 8486, 1, (-7517));
  (8490, 8490, 1, (-8383)); (8491, 8491, 1, (-8262)); (8498, 8498, 1, 28); (8544, 8559, 1, 16);
  (8579, 8579, 1, 1); (9398, 9423, 1, 26); (11264, 11311, 1, 48); (11360, 11360, 1, 1);
  (11362, 11362, 1, (-10743)); (11363, 11363, 1, (-3814)); (11364, 11364, 1, (-10727)); (11367, 11371, 2, 1);
  (11373, 11373, 1, (-10780)); (11374, 11374, 1, (-10749)); (11375, 11375, 1, (-10783)); (11376, 11376, 1, (-10782));
  (11378, 11378, 1, 1); (11381, 11381, 1, 1); (11390, 11391, 1, (-10815)); (11392, 11490, 2, 1);
  (11499, 11501, 2, 1); (11506, 11506, 1, 1); (42560, 42604, 2, 1); (42624, 42650, 2, 1);
  (42786, 42798, 2, 1); (42802, 42862, 2, 1); (42873, 42875, 2, 1); (42877, 42877, 1, (-35332));
  (42878, 42886, 2, 1); (42891, 42891, 1, 1); (42893, 42893, 1, (-42280)); (42896, 42898, 2, 1);
  (42902, 42920, 2, 1); (42922, 42922, 1, (-42308)); (42923, 42923, 1, (-42319)); (42924, 42924, 1, (-42315));
  (42925, 42925, 1, (-42305)); (42926, 42926, 1, (-42308)); (42928, 42928, 1, (-42258)); (42929, 42929, 1, (-42282));
  (42930, 42930, 1, (-42261)); (42931, 42931, 1, 928); (42932, 42946, 2, 1); (42948, 42948, 1, (-48));
  (42949, 42949, 1, (-42307)); (42950, 42950, 1, (-35384)); (42951, 42953, 2, 1); (42960, 42960, 1, 1);
  (42966, 42968, 2, 1); (42997, 42997, 1, 1); (65313, 65338, 1, 32); (66560, 66599, 1, 40);
  (66736, 66771, 1, 40); (66928, 66938, 1, 39); (66940, 66954, 1, 39); (66956, 66962, 1, 39);
  (66964, 66965, 1, 39); (68736, 68786, 1, 64); (71840, 71871, 1, 32); (93760, 93791, 1, 32);
  (125184, 125217, 1, 34)].

Definition LOWER_MULTI : list (Z * list Z) := [
  (304, [105; 775])].

Definition TITLE_SINGLE : list (Z * Z * Z * Z) := [
  (97, 122, 1, (-32)); (181, 181, 1, 743); (224, 246, 1, (-32)); (248, 254, 1, (-32));
  (255, 255, 1, 121); (257, 303, 2, (-1)); (305, 305, 1, (-232)); (307, 311, 2, (-1));
  (314, 328, 2, (-1)); (331, 375, 2, (-1)); (378, 382, 2, (-1)); (383, 383, 1, (-300));
  (384, 384, 1, 195); (387, 389, 2, (-1)); (392, 392, 1, (-1)); (396, 396, 1, (-1));
  (402, 402, 1, (-1)); (405, 405, 1, 97); (409, 409, 1, (-1)); (410, 410, 1, 163);
  (414, 414, 1, 130); (417, 421, 2, (-1)); (424, 424, 1, (-1)); (429, 429, 1, (-1));
  (432, 432, 1, (-1)); (436, 438, 2, (-1)); (441, 441, 1, (-1)); (445, 445, 1, (-1));
  (447, 447, 1, 56); (452, 452, 1, 1); (454, 454, 1, (-1)); (455, 455, 1, 1);
  (457, 457, 1, (-1)); (458, 458, 1, 1); (460, 476, 2, (-1)); (477, 477, 1, (-79));
  (479, 495, 2, (-1)); (497, 497, 1, 1); (499, 501, 2, (-1)); (505, 543, 2, (-1));
  (547, 563, 2, (-1)); (572, 572, 1, (-1)); (575, 576, 1, 10815); (578, 578, 1, (-1));
  (583, 591, 2, (-1)); (592, 592, 1, 10783); (593, 593, 1, 10780); (594, 594, 1, 10782);
  (595, 595, 1, (-210)); (596, 596, 1, (-206)); (598, 599, 1, (-205)); (601, 601, 1, (-202));
  (603, 603, 1, (-203)); (604, 604, 1, 42319); (608, 608, 1, (-205)); (609, 609, 1, 42315);
  (611, 611, 1, (-207)); (613, 613, 1, 42280); (614, 614, 1, 42308); (616, 616, 1, (-209));
  (617, 617, 1, (-211)); (618, 618, 1, 42308); (619, 619, 1, 10743); (620, 620, 1, 42305);
  (623, 623, 1, (-211)); (625, 625, 1, 10749); (626, 626, 1, (-213)); (629, 629, 1, (-214));
  (637, 637, 1, 10727); (640, 640, 1, (-218)); (642, 642, 1, 42307); (643, 643, 1, (-218));
  (647, 647, 1, 42282); (648, 648, 1, (-218)); (649, 649, 1, (-69)); (650, 651, 1, (-217));
  (652, 652, 1, (-71)); (658, 658, 1, (-219)); (669, 669, 1, 42261); (670, 670, 1, 42258);
  (837, 837, 1, 84); (881, 883, 2, (-1)); (887, 887, 1, (-1)); (891, 893, 1, 130);
  (940, 940, 1, (-38)); (941, 943, 1, (-37)); (945, 961, 1, (-32)); (962, 962, 1, (-31));
  (963, 971, 1, (-32)); (972, 972, 1, (-64)); (973, 974, 1, (-63)); (976, 976, 1, (-62));
  (977, 977, 1, (-57)); (981, 981, 1, (-47)); (982, 982, 1, (-54)); (983, 983, 1, (-8));
  (985, 1007, 2, (-1)); (1008, 1008, 1, (-86)); (1009, 1009, 1, (-80)); (1010, 1010, 1, 7);
  (1011, 1011, 1, (-116)); (1013, 1013, 1, (-96)); (1016, 1016, 1, (-1)); (1019, 1019, 1, (-1));
  (1072, 1103, 1, (-32)); (1104, 1119, 1, (-80)); (1121, 1153, 2, (-1)); (1163, 1215, 2, (-1));
  (1218, 1230, 2, (-1)); (1231, 1231, 1, (-15)); (1233, 1327, 2, (-1)); (1377, 1414, 1, (-48));
  (5112, 5117, 1, (-8)); (7296, 7296, 1, (-6254)); (7297, 7297, 1, (-6253)); (7298, 7298, 1, (-6244));
  (7299, 7300, 1, (-6242)); (7301, 7301, 1, (-6243)); (7302, 7302, 1, (-6236)); (7303, 7303, 1, (-6181));
  (7304, 7304, 1, 35266); (7545, 7545, 1, 35332); (7549, 7549, 1, 3814); (7566, 7566, 1, 35384);
  (7681, 7829, 2, (-1)); (7835, 7835, 1, (-59)); (7841, 7935, 2, (-1)); (7936, 7943, 1, 8);
  (7952, 7957, 1, 8); (7968, 7975, 1, 8); (7984, 7991, 1, 8); (8000, 8005, 1, 8);
  (8017, 8023, 2, 8); (8032, 8039, 1, 8); (8048, 8049, 1, 74); (8050, 8053, 1, 86);
  (8054, 8055, 1, 100); (8056, 8057, 1, 128); (8058, 8059, 1, 112); (8060, 8061, 1, 126);
  (8064, 8071, 1, 8); (8080, 8087, 1, 8); (8096, 8103, 1, 8); (8112, 8113, 1, 8);
  (8115, 8115, 1, 9); (8126, 8126, 1, (-7205)); (8131, 8131, 1, 9); (8144, 8145, 1, 8);
  (8160, 8161, 1, 8); (8165, 8165, 1, 7); (8179, 8179, 1, 9); (8526, 8526, 1, (-28));
  (8560, 8575, 1, (-16)); (8580, 8580, 1, (-1)); (9424, 9449, 1, (-26)); (11312, 11359, 1, (-48));
  (11361, 11361, 1, (-1)); (11365, 11365, 1, (-10795)); (11366, 11366, 1, (-10792)); (11368, 11372, 2, (-1));
  (11379, 11379, 1, (-1)); (11382, 11382, 1, (-1)); (11393, 11491, 2, (-1)); (11500, 11502, 2, (-1));
  (11507, 11507, 1, (-1)); (11520, 11557, 1, (-7264)); (11559, 11559, 1, (-7264)); (11565, 11565, 1, (-7264));
  (42561, 42605, 2, (-1)); (42625, 42651, 2, (-1)); (42787, 42799, 2, (-1)); (42803, 42863, 2, (-1));
  (42874, 42876, 2, (-1)); (42879, 42887, 2, (-1)); (42892, 42892, 1, (-1)); (42897, 42899, 2, (-1));
  (42900, 42900, 1, 48); (42903, 42921, 2, (-1)); (42933, 42947, 2, (-1)); (42952, 42954, 2, (-1));
  (42961, 42961, 1, (-1)); (42967, 42969, 2, (-1)); (42998, 42998, 1, (-1)); (43859, 43859, 1, (-928));
  (43888, 43967, 1, (-38864)); (65345, 65370, 1, (-32)); (66600, 66639, 1, (-40)); (66776, 66811, 1, (-40));
  (66967, 66977, 1, (-39)); (66979, 66993, 1, (-39)); (66995, 67001, 1, (-39)); (67003, 67004, 1, (-39));
  (68800, 68850, 1, (-64)); (71872, 71903, 1, (-32)); (93792, 93823, 1, (-32)); (125218, 125251, 1, (-34))].

Definition TITLE_MULTI : list (Z * list Z) := [
  (223, [83; 115]); (329, [700; 78]); (496, [74; 780]);
  (912, [921; 776; 769]); (944, [933; 776; 769]); (1415, [1333; 1410]);
  (7830, [72; 817]); (7831, [84; 776]); (7832, [87; 778]);
  (7833, [89; 778]); (7834, [65; 702]); (8016, [933; 787]);
  (8018, [933; 787; 768]); (8020, [933; 787; 769]); (8022, [933; 787; 834]);
  (8114, [8122; 837]); (8116, [902; 837]); (8118, [913; 834]);
  (8119, [913; 834; 837]); (8130, [8138; 837]); (8132, [905; 837]);
  (8134, [919; 834]); (8135, [919; 834; 837]); (8146, [921; 776; 768]);
  (8147, [921; 776; 769]); (8150, [921; 834]); (8151, [921; 776; 834]);
  (8162, [933; 776; 768]); (8163, [933; 776; 769]); (8164, [929; 787]);
  (8166, [933; 834]); (8167, [933; 776; 834]); (8178, [8186; 837]);
  (8180, [911; 837]); (8182, [937; 834]); (8183, [937; 834; 837]);
  (64256, [70; 102]); (64257, [70; 105]); (64258, [70; 108]);
  (64259, [70; 102; 105]); (64260, [70; 102; 108]); (64261, [83; 116]);
  (64262, [83; 116]); (64275, [1348; 1398]); (64276, [1348; 1381]);
  (64277, [1348; 1387]); (64278, [1358; 1398]); (64279, [1348; 1389])].

Definition CASED : list (Z * Z) := [
  (65, 90); (97, 122); (170, 170); (181, 181); (186, 186); (192, 214);
  (216, 246); (248, 442); (444, 447); (452, 659); (661, 696); (704, 705);
  (736, 740); (837, 837); (880, 883); (886, 887); (890, 893); (895, 895);
  (902, 902); (904, 906); (908, 908); (910, 929); (931, 1013); (1015, 1153);
  (1162, 1327); (1329, 1366); (1376, 1416); (4256, 4293); (4295, 4295); (4301, 4301);
  (4304, 4346); (4349, 4351); (5024, 5109); (5112, 5117); (7296, 7304); (7312, 7354);
  (7357, 7359); (7424, 7615); (7680, 7957); (7960, 7965); (7968, 8005); (8008, 8013);
  (8016, 8023); (8025, 8025); (8027, 8027); (8029, 8029); (8031, 8061); (8064, 8116);
  (8118, 8124); (8126, 8126); (8130, 8132); (8134, 8140); (8144, 8147); (8150, 8155);
  (8160, 8172); (8178, 8180); (8182, 8188); (8305, 8305); (8319, 8319); (8336, 8348);
  (8450, 8450); (8455, 8455); (8458, 8467); (8469, 8469); (8473, 8477); (8484, 8484);
  (8486, 8486); (8488, 8488); (8490, 8493); (8495, 8500); (8505, 8505); (8508, 8511);
  (8517, 8521); (8526, 8526); (8544, 8575); (8579, 8580); (9398, 9449); (11264, 11492);
  (11499, 11502); (11506, 11507); (11520, 11557); (11559, 11559); (11565, 11565); (42560, 42605);
  (42624, 42653); (42786, 42887); (42891, 42894); (42896, 42954); (42960, 42961); (42963, 42963);
  (42965, 42969); (42997, 42998); (43000, 43002); (43824, 43866); (43868, 43880); (43888, 43967);
  (64256, 64262); (64275, 64279); (65313, 65338); (65345, 65370); (66560, 66639); (66736, 66771);
  (66776, 66811); (66928, 66938); (66940, 66954); (66956, 66962); (66964, 66965); (66967, 66977);
  (66979, 66993); (66995, 67001); (67003, 67004); (67456, 67456); (67459, 67461); (67463, 67504);
  (67506, 67514); (68736, 68786); (68800, 68850); (71840, 71903); (93760, 93823); (119808, 119892);
  (119894, 119964); (119966, 119967); (119970, 119970); (119973, 119974); (119977, 119980); (119982, 119993);
  (119995, 119995); (119997, 120003); (120005, 120069); (120071, 120074); (120077, 120084); (120086, 120092);
  (120094, 120121); (120123, 120126); (120128, 120132); (120134, 120134); (120138, 120144); (120146, 120485);
  (120488, 120512); (120514, 120538); (120540, 120570); (120572, 120596); (120598, 120628); (120630, 120654);
  (120656, 120686); (120688, 120712); (120714, 120744); (120746, 120770); (120772, 120779); (122624, 122633);
  (122635, 122654); (125184, 125251); (127280, 127305); (127312, 127337); (127344, 127369)].

Definition CASE_IGNORABLE : list (Z * Z) := [
  (39, 39); (46, 46); (58, 58); (94, 94); (96, 96); (168, 168);
  (173, 173); (175, 175); (180, 180); (183, 184); (688, 879); (884, 885);
  (890, 890); (900, 901); (903, 903); (1155, 1161); (1369, 1369); (1375, 1375);
  (1425, 1469); (1471, 1471); (1473, 1474); (1476, 1477); (1479, 1479); (1524, 1524);
  (1536, 1541); (1552, 1562); (1564, 1564); (1600, 1600); (1611, 1631); (1648, 1648);
  (1750, 1757); (1759, 1768); (1770, 1773); (1807, 1807); (1809, 1809); (1840, 1866);
  (1958, 1968); (2027, 2037); (2042, 2042); (2045, 2045); (2070, 2093); (2137, 2139);
  (2184, 2184); (2192, 2193); (2200, 2207); (2249, 2306); (2362, 2362); (2364, 2364);
  (2369, 2376); (2381, 2381); (2385, 2391); (2402, 2403); (2417, 2417); (2433, 2433);
  (2492, 2492); (2497, 2500); (2509, 2509); (2530, 2531); (2558, 2558); (2561, 2562);
  (2620, 2620); (2625, 2626); (2631, 2632); (2635, 2637); (2641, 2641); (2672, 2673);
  (2677, 2677); (2689, 2690); (2748, 2748); (2753, 2757); (2759, 2760); (2765, 2765);
  (2786, 2787); (2810, 2815); (2817, 2817); (2876, 2876); (2879, 2879); (2881, 2884);
  (2893, 2893); (2901, 2902); (2914, 2915); (2946, 2946); (3008, 3008); (3021, 3021);
  (3072, 3072); (3076, 3076); (3132, 3132); (3134, 3136); (3142, 3144); (3146, 3149);
  (3157, 3158); (3170, 3171); (3201, 3201); (3260, 3260); (3263, 3263); (3270, 3270);
  (3276, 3277); (3298, 3299); (3328, 3329); (3387, 3388); (3393, 3396); (3405, 3405);
  (3426, 3427); (3457, 3457); (3530, 3530); (3538, 3540); (3542, 3542); (3633, 3633);
  (3636, 3642); (3654, 3662); (3761, 3761); (3764, 3772); (3782, 3782); (3784, 3789);
  (3864, 3865); (3893, 3893); (3895, 3895); (3897, 3897); (3953, 3966); (3968, 3972);
  (3974, 3975); (3981, 3991); (3993, 4028); (4038, 4038); (4141, 4144); (4146, 4151);
  (4153, 4154); (4157, 4158); (4184, 4185); (4190, 4192); (4209, 4212); (4226, 4226);
  (4229, 4230); (4237, 4237); (4253, 4253); (4348, 4348); (4957, 4959); (5906, 5908);
  (5938, 5939); (5970, 5971); (6002, 6003); (6068, 6069); (6071, 6077); (6086, 6086);
  (6089, 6099); (6103, 6103); (6109, 6109); (6155, 6159); (6211, 6211); (6277, 6278);
  (6313, 6313); (6432, 6434); (6439, 6440); (6450, 6450); (6457, 6459); (6679, 6680);
  (6683, 6683); (6742, 6742); (6744, 6750); (6752, 6752); (6754, 6754); (6757, 6764);
  (6771, 6780); (6783, 6783); (6823, 6823); (6832, 6862); (6912, 6915); (6964, 6964);
  (6966, 6970); (6972, 6972); (6978, 6978); (7019, 7027); (7040, 7041); (7074, 7077);
  (7080, 7081); (7083, 7085); (7142, 7142); (7144, 7145); (7149, 7149); (7151, 7153);
  (7212, 7219); (7222, 7223); (7288, 7293); (7376, 7378); (7380, 7392); (7394, 7400);
  (7405, 7405); (7412, 7412); (7416, 7417); (7468, 7530); (7544, 7544); (7579, 7679);
  (8125, 8125); (8127, 8129); (8141, 8143); (8157, 8159); (8173, 8175); (8189, 8190);
  (8203, 8207); (8216, 8217); (8228, 8228); (8231, 8231); (8234, 8238); (8288, 8292);
  (8294, 8303); (8305, 8305); (8319, 8319); (8336, 8348); (8400, 8432); (11388, 11389);
  (11503, 11505); (11631, 11631); (11647, 11647); (11744, 11775); (11823, 11823); (12293, 12293);
  (12330, 12333); (12337, 12341); (12347, 12347); (12441, 12446); (12540, 12542); (40981, 40981);
  (42232, 42237); (42508, 42508); (42607, 42610); (42612, 42621); (42623, 42623); (42652, 42655);
  (42736, 42737); (42752, 42785); (42864, 42864); (42888, 42890); (42994, 42996); (43000, 43001);
  (43010, 43010); (43014, 43014); (43019, 43019); (43045, 43046); (43052, 43052); (43204, 43205);
  (43232, 43249); (43263, 43263); (43302, 43309); (43335, 43345); (43392, 43394); (43443, 43443);
  (43446, 43449); (43452, 43453); (43471, 43471); (43493, 43494); (43561, 43566); (43569, 43570);
  (43573, 43574); (43587, 43587); (43596, 43596); (43632, 43632); (43644, 43644); (43696, 43696);
  (43698, 43700); (43703, 43704); (43710, 43711); (43713, 43713); (43741, 43741); (43756, 43757);
  (43763, 43764); (43766, 43766); (43867, 43871); (43881, 43883); (44005, 44005); (44008, 44008);
  (44013, 44013); (64286, 64286); (64434, 64450); (65024, 65039); (65043, 65043); (65056, 65071);
  (65106, 65106); (65109, 65109); (65279, 65279); (65287, 65287); (65294, 65294); (65306, 65306);
  (65342, 65342); (65344, 65344); (65392, 65392); (65438, 65439); (65507, 65507); (65529, 65531);
  (66045, 66045); (66272, 66272); (66422, 66426); (67456, 67461); (67463, 67504); (67506, 67514);
  (68097, 68099); (68101, 68102); (68108, 68111); (68152, 68154); (68159, 68159); (68325, 68326);
  (68900, 68903); (69291, 69292); (69446, 69456); (69506, 69509); (69633, 69633); (69688, 69702);
  (69744, 69744); (69747, 69748); (69759, 69761); (69811, 69814); (69817, 69818); (69821, 69821);
  (69826, 69826); (69837, 69837); (69888, 69890); (69927, 69931); (69933, 69940); (70003, 70003);
  (70016, 70017); (70070, 70078); (70089, 70092); (70095, 70095); (70191, 70193); (70196, 70196);
  (70198, 70199); (70206, 70206); (70367, 70367); (70371, 70378); (70400, 70401); (70459, 70460);
  (70464, 70464); (70502, 70508); (70512, 70516); (70712, 70719); (70722, 70724); (70726, 70726);
  (70750, 70750); (70835, 70840); (70842, 70842); (70847, 70848); (70850, 70851); (71090, 71093);
  (71100, 71101); (71103, 71104); (71132, 71133); (71219, 71226); (71229, 71229); (71231, 71232);
  (71339, 71339); (71341, 71341); (71344, 71349); (71351, 71351); (71453, 71455); (71458, 71461);
  (71463, 71467); (71727, 71735); (71737, 71738); (71995, 71996); (71998, 71998); (72003, 72003);
  (72148, 72151); (72154, 72155); (72160, 72160); (72193, 72202); (72243, 72248); (72251, 72254);
  (72263, 72263); (72273, 72278); (72281, 72283); (72330, 72342); (72344, 72345); (72752, 72758);
  (72760, 72765); (72767, 72767); (72850, 72871); (72874, 72880); (72882, 72883); (72885, 72886);
  (73009, 73014); (73018, 73018); (73020, 73021); (73023, 73029); (73031, 73031); (73104, 73105);
  (73109, 73109); (73111, 73111); (73459, 73460); (78896, 78904); (92912, 92916); (92976, 92982);
  (92992, 92995); (94031, 94031); (94095, 94111); (94176, 94177); (94179, 94180); (110576, 110579);
  (110581, 110587); (110589, 110590); (113821, 113822); (113824, 113827); (118528, 118573); (118576, 118598);
  (119143, 119145); (119155, 119170); (119173, 119179); (119210, 119213); (119362, 119364); (121344, 121398);
  (121403, 121452); (121461, 121461); (121476, 121476); (121499, 121503); (121505, 121519); (122880, 122886);
  (122888, 122904); (122907, 122913); (122915, 122916); (122918, 122922); (123184, 123197); (123566, 123566);
  (123628, 123631); (125136, 125142); (125252, 125259); (127995, 127999); (917505, 917505); (917536, 917631);
  (917760, 917999)].

Definition WORD : list (Z * Z) := [
  (48, 57); (65, 90); (95, 95); (97, 122); (170, 170); (178, 179);
  (181, 181); (185, 186); (188, 190); (192, 214); (216, 246); (248, 705);
  (710, 721); (736, 740); (748, 748); (750, 750); (880, 884); (886, 887);
  (890, 893); (895, 895); (902, 902); (904, 906); (908, 908); (910, 929);
  (931, 1013); (1015, 1153); (1162, 1327); (1329, 1366); (1369, 1369); (1376, 1416);
  (1488, 1514); (1519, 1522); (1568, 1610); (1632, 1641); (1646, 1647); (1649, 1747);
  (1749, 1749); (1765, 1766); (1774, 1788); (1791, 1791); (1808, 1808); (1810, 1839);
  (1869, 1957); (1969, 1969); (1984, 2026); (2036, 2037); (2042, 2042); (2048, 2069);
  (2074, 2074); (2084, 2084); (2088, 2088); (2112, 2136); (2144, 2154); (2160, 2183);
  (2185, 2190); (2208, 2249); (2308, 2361); (2365, 2365); (2384, 2384); (2392, 2401);
  (2406, 2415); (2417, 2432); (2437, 2444); (2447, 2448); (2451, 2472); (2474, 2480);
  (2482, 2482); (2486, 2489); (2493, 2493); (2510, 2510); (2524, 2525); (2527, 2529);
  (2534, 2545); (2548, 2553); (2556, 2556); (2565, 2570); (2575, 2576); (2579, 2600);
  (2602, 2608); (2610, 2611); (2613, 2614); (2616, 2617); (2649, 2652); (2654, 2654);
  (2662, 2671); (2674, 2676); (2693, 2701); (2703, 2705); (2707, 2728); (2730, 2736);
  (2738, 2739); (2741, 2745); (2749, 2749); (2768, 2768); (2784, 2785); (2790, 2799);
  (2809, 2809); (2821, 2828); (2831, 2832); (2835, 2856); (2858, 2864); (2866, 2867);
  (2869, 2873); (2877, 2877); (2908, 2909); (2911, 2913); (2918, 2927); (2929, 2935);
  (2947, 2947); (2949, 2954); (2958, 2960); (2962, 2965); (2969, 2970); (2972, 2972);
  (2974, 2975); (2979, 2980); (2984, 2986); (2990, 3001); (3024, 3024); (3046, 3058);
  (3077, 3084); (3086, 3088); (3090, 3112); (3114, 3129); (3133, 3133); (3160, 3162);
  (3165, 3165); (3168, 3169); (3174, 3183); (3192, 3198); (3200, 3200); (3205, 3212);
  (3214, 3216); (3218, 3240); (3242, 3251); (3253, 3257); (3261, 3261); (3293, 3294);
  (3296, 3297); (3302, 3311); (3313, 3314); (3332, 3340); (3342, 3344); (3346, 3386);
  (3389, 3389); (3406, 3406); (3412, 3414); (3416, 3425); (3430, 3448); (3450, 3455);
  (3461, 3478); (3482, 3505); (3507, 3515); (3517, 3517); (3520, 3526); (3558, 3567);
  (3585, 3632); (3634, 3635); (3648, 3654); (3664, 3673); (3713, 3714); (3716, 3716);
  (3718, 3722); (3724, 3747); (3749, 3749); (3751, 3760); (3762, 3763); (3773, 3773);
  (3776, 3780); (3782, 3782); (3792, 3801); (3804, 3807); (3840, 3840); (3872, 3891);
  (3904, 3911); (3913, 3948); (3976, 3980); (4096, 4138); (4159, 4169); (4176, 4181);
  (4186, 4189); (4193, 4193); (4197, 4198); (4206, 4208); (4213, 4225); (4238, 4238);
  (4240, 4249); (4256, 4293); (4295, 4295); (4301, 4301); (4304, 4346); (4348, 4680);
  (4682, 4685); (4688, 4694); (4696, 4696); (4698, 4701); (4704, 4744); (4746, 4749);
  (4752, 4784); (4786, 4789); (4792, 4798); (4800, 4800); (4802, 4805); (4808, 4822);
  (4824, 4880); (4882, 4885); (4888, 4954); (4969, 4988); (4992, 5007); (5024, 5109);
  (5112, 5117); (5121, 5740); (5743, 5759); (5761, 5786); (5792, 5866); (5870, 5880);
  (5888, 5905); (5919, 5937); (5952, 5969); (5984, 5996); (5998, 6000); (6016, 6067);
  (6103, 6103); (6108, 6108); (6112, 6121); (6128, 6137); (6160, 6169); (6176, 6264);
  (6272, 6276); (6279, 6312); (6314, 6314); (6320, 6389); (6400, 6430); (6470, 6509);
  (6512, 6516); (6528, 6571); (6576, 6601); (6608, 6618); (6656, 6678); (6688, 6740);
  (6784, 6793); (6800, 6809); (6823, 6823); (6917, 6963); (6981, 6988); (6992, 7001);
  (7043, 7072); (7086, 7141); (7168, 7203); (7232, 7241); (7245, 7293); (7296, 7304);
  (7312, 7354); (7357, 7359); (7401, 7404); (7406, 7411); (7413, 7414); (7418, 7418);
  (7424, 7615); (7680, 7957); (7960, 7965); (7968, 8005); (8008, 8013); (8016, 8023);
  (8025, 8025); (8027, 8027); (8029, 8029); (8031, 8061); (8064, 8116); (8118, 8124);
  (8126, 8126); (8130, 8132); (8134, 8140); (8144, 8147); (8150, 8155); (8160, 8172);
  (8178, 8180); (8182, 8188); (8304, 8305); (8308, 8313); (8319, 8329); (8336, 8348);
  (8450, 8450); (8455, 8455); (8458, 8467); (8469, 8469); (8473, 8477); (8484, 8484);
  (8486, 8486); (8488, 8488); (8490, 8493); (8495, 8505); (8508, 8511); (8517, 8521);
  (8526, 8526); (8528, 8585); (9312, 9371); (9450, 9471); (10102, 10131); (11264, 11492);
  (11499, 11502); (11506, 11507); (11517, 11517); (11520, 11557); (11559, 11559); (11565, 11565);
  (11568, 11623); (11631, 11631); (11648, 11670); (11680, 11686); (11688, 11694); (11696, 11702);
  (11704, 11710); (11712, 11718); (11720, 11726); (11728, 11734); (11736, 11742); (11823, 11823);
  (12293, 12295); (12321, 12329); (12337, 12341); (12344, 12348); (12353, 12438); (12445, 12447);
  (12449, 12538); (12540, 12543); (12549, 12591); (12593, 12686); (12690, 12693); (12704, 12735);
  (12784, 12799); (12832, 12841); (12872, 12879); (12881, 12895); (12928, 12937); (12977, 12991);
  (13312, 19903); (19968, 42124); (42192, 42237); (42240, 42508); (42512, 42539); (42560, 42606);
  (42623, 42653); (42656, 42735); (42775, 42783); (42786, 42888); (42891, 42954); (42960, 42961);
  (42963, 42963); (42965, 42969); (42994, 43009); (43011, 43013); (43015, 43018); (43020, 43042);
  (43056, 43061); (43072, 43123); (43138, 43187); (43216, 43225); (43250, 43255); (43259, 43259);
  (43261, 43262); (43264, 43301); (43312, 43334); (43360, 43388); (43396, 43442); (43471, 43481);
  (43488, 43492); (43494, 43518); (43520, 43560); (43584, 43586); (43588, 43595); (43600, 43609);
  (43616, 43638); (43642, 43642); (43646, 43695); (43697, 43697); (43701, 43702); (43705, 43709);
  (43712, 43712); (43714, 43714); (43739, 43741); (43744, 43754); (43762, 43764); (43777, 43782);
  (43785, 43790); (43793, 43798); (43808, 43814); (43816, 43822); (43824, 43866); (43868, 43881);
  (43888, 44002); (44016, 44025); (44032, 55203); (55216, 55238); (55243, 55291); (63744, 64109);
  (64112, 64217); (64256, 64262); (64275, 64279); (64285, 64285); (64287, 64296); (64298, 64310);
  (64312, 64316); (64318, 64318); (64320, 64321); (64323, 64324); (64326, 64433); (64467, 64829);
  (64848, 64911); (64914, 64967); (65008, 65019); (65136, 65140); (65142, 65276); (65296, 65305);
  (65313, 65338); (65345, 65370); (65382, 65470); (65474, 65479); (65482, 65487); (65490, 65495);
  (65498, 65500); (65536, 65547); (65549, 65574); (65576, 65594); (65596, 65597); (65599, 65613);
  (65616, 65629); (65664, 65786); (65799, 65843); (65856, 65912); (65930, 65931); (66176, 66204);
  (66208, 66256); (66273, 66299); (66304, 66339); (66349, 66378); (66384, 66421); (66432, 66461);
  (66464, 66499); (66504, 66511); (66513, 66517); (66560, 66717); (66720, 66729); (66736, 66771);
  (66776, 66811); (66816, 66855); (66864, 66915); (66928, 66938); (66940, 66954); (66956, 66962);
  (66964, 66965); (66967, 66977); (66979, 66993); (66995, 67001); (67003, 67004); (67072, 67382);
  (67392, 67413); (67424, 67431); (67456, 67461); (67463, 67504); (67506, 67514); (67584, 67589);
  (67592, 67592); (67594, 67637); (67639, 67640); (67644, 67644); (67647, 67669); (67672, 67702);
  (67705, 67742); (67751, 67759); (67808, 67826); (67828, 67829); (67835, 67867); (67872, 67897);
  (67968, 68023); (68028, 68047); (68050, 68096); (68112, 68115); (68117, 68119); (68121, 68149);
  (68160, 68168); (68192, 68222); (68224, 68255); (68288, 68295); (68297, 68324); (68331, 68335);
  (68352, 68405); (68416, 68437); (68440, 68466); (68472, 68497); (68521, 68527); (68608, 68680);
  (68736, 68786); (68800, 68850); (68858, 68899); (68912, 68921); (69216, 69246); (69248, 69289);
  (69296, 69297); (69376, 69415); (69424, 69445); (69457, 69460); (69488, 69505); (69552, 69579);
  (69600, 69622); (69635, 69687); (69714, 69743); (69745, 69746); (69749, 69749); (69763, 69807);
  (69840, 69864); (69872, 69881); (69891, 69926); (69942, 69951); (69956, 69956); (69959, 69959);
  (69968, 70002); (70006, 70006); (70019, 70066); (70081, 70084); (70096, 70106); (70108, 70108);
  (70113, 70132); (70144, 70161); (70163, 70187); (70272, 70278); (70280, 70280); (70282, 70285);
  (70287, 70301); (70303, 70312); (70320, 70366); (70384, 70393); (70405, 70412); (70415, 70416);
  (70419, 70440); (70442, 70448); (70450, 70451); (70453, 70457); (70461, 70461); (70480, 70480);
  (70493, 70497); (70656, 70708); (70727, 70730); (70736, 70745); (70751, 70753); (70784, 70831);
  (70852, 70853); (70855, 70855); (70864, 70873); (71040, 71086); (71128, 71131); (71168, 71215);
  (71236, 71236); (71248, 71257); (71296, 71338); (71352, 71352); (71360, 71369); (71424, 71450);
  (71472, 71483); (71488, 71494); (71680, 71723); (71840, 71922); (71935, 71942); (71945, 71945);
  (71948, 71955); (71957, 71958); (71960, 71983); (71999, 71999); (72001, 72001); (72016, 72025);
  (72096, 72103); (72106, 72144); (72161, 72161); (72163, 72163); (72192, 72192); (72203, 72242);
  (72250, 72250); (72272, 72272); (72284, 72329); (72349, 72349); (72368, 72440); (72704, 72712);
  (72714, 72750); (72768, 72768); (72784, 72812); (72818, 72847); (72960, 72966); (72968, 72969);
  (72971, 73008); (73030, 73030); (73040, 73049); (73056, 73061); (73063, 73064); (73066, 73097);
  (73112, 73112); (73120, 73129); (73440, 73458); (73648, 73648); (73664, 73684); (73728, 74649);
  (74752, 74862); (74880, 75075); (77712, 77808); (77824, 78894); (82944, 83526); (92160, 92728);
  (92736, 92766); (92768, 92777); (92784, 92862); (92864, 92873); (92880, 92909); (92928, 92975);
  (92992, 92995); (93008, 93017); (93019, 93025); (93027, 93047); (93053, 93071); (93760, 93846);
  (93952, 94026); (94032, 94032); (94099, 94111); (94176, 94177); (94179, 94179); (94208, 100343);
  (100352, 101589); (101632, 101640); (110576, 110579); (110581, 110587); (110589, 110590); (110592, 110882);
  (110928, 110930); (110948, 110951); (110960, 111355); (113664, 113770); (113776, 113788); (113792, 113800);
  (113808, 113817); (119520, 119539); (119648, 119672); (119808, 119892); (119894, 119964); (119966, 119967);
  (119970, 119970); (119973, 119974); (119977, 119980); (119982, 119993); (119995, 119995); (119997, 120003);
  (120005, 120069); (120071, 120074); (120077, 120084); (120086, 120092); (120094, 120121); (120123, 120126);
  (120128, 120132); (120134, 120134); (120138, 120144); (120146, 120485); (120488, 120512); (120514, 120538);
  (120540, 120570); (120572, 120596); (120598, 120628); (120630, 120654); (120656, 120686); (120688, 120712);
  (120714, 120744); (120746, 120770); (120772, 120779); (120782, 120831); (122624, 122654); (123136, 123180);
  (123191, 123197); (123200, 123209); (123214, 123214); (123536, 123565); (123584, 123627); (123632, 123641);
  (124896, 124902); (124904, 124907); (124909, 124910); (124912, 124926); (124928, 125124); (125127, 125135);
  (125184, 125251); (125259, 125259); (125264, 125273); (126065, 126123); (126125, 126127); (126129, 126132);
  (126209, 126253); (126255, 126269); (126464, 126467); (126469, 126495); (126497, 126498); (126500, 126500);
  (126503, 126503); (126505, 126514); (126516, 126519); (126521, 126521); (126523, 126523); (126530, 126530);
  (126535, 126535); (126537, 126537); (126539, 126539); (126541, 126543); (126545, 126546); (126548, 126548);
  (126551, 126551); (126553, 126553); (126555, 126555); (126557, 126557); (126559, 126559); (126561, 126562);
  (126564, 126564); (126567, 126570); (126572, 126578); (126580, 126583); (126585, 126588); (126590, 126590);
  (126592, 126601); (126603, 126619); (126625, 126627); (126629, 126633); (126635, 126651); (127232, 127244);
  (130032, 130041); (131072, 173791); (173824, 177976); (177984, 178205); (178208, 183969); (183984, 191456);
  (194560, 195101); (196608, 201546)].

Fixpoint in_ranges (t : list (Z * Z)) (c : Z) : bool :=
  match t with
  | [] => false
  | (lo, hi) :: r => ((lo <=? c) && (c <=? hi)) || in_ranges r c
  end.

Fixpoint delta_lookup (t : list (Z * Z * Z * Z)) (c : Z) : option Z :=
  match t with
  | [] => None
  | (lo, hi, step, d) :: r =>
      if (lo <=? c) && (c <=? hi) && (Z.modulo (c - lo) step =? 0) then Some d
      else delta_lookup r c
  end.

Fixpoint multi_lookup (t : list (Z * list Z)) (c : Z) : option (list Z) :=
  match t with
  | [] => None
  | (k, l) :: r => if k =? c then Some l else multi_lookup r c
  end.

Definition case_map (multi : list (Z * list Z)) (single : list (Z * Z * Z * Z)) (c : Z)
  : list Z :=
  match multi_lookup multi c with
  | Some l => l
  | None => match delta_lookup single c with Some d => [c + d] | None => [c] end
  end.

(** [_PyUnicode_ToLowerFull] and [_PyUnicode_ToTitleFull]. *)
Definition lower_full (c : Z) : list Z := case_map LOWER_MULTI LOWER_SINGLE c.

Definition title_full (c : Z) : list Z := case_map TITLE_MULTI TITLE_SINGLE c.

(** [_PyUnicode_IsCased], [_PyUnicode_IsCaseIgnorable]. *)
Definition is_cased (c : Z) : bool := in_ranges CASED c.

Definition is_case_ignorable (c : Z) : bool := in_ranges CASE_IGNORABLE c.

(** The first character of [s] that is not case-ignorable. *)
Fixpoint first_not_ignorable (s : pystr) : option Z :=
  match s with
  | [] => None
  | c :: r => if is_case_ignorable c then first_not_ignorable r else Some c
  end.

(** [handle_capital_sigma]: the lowercase of U+03A3 is the final sigma
    U+03C2 after a cased character and not before one (case-ignorable
    characters skipped on both sides), U+03C3 otherwise. [before] is the
    text before the sigma, nearest character first. *)
Definition handle_capital_sigma (before after : pystr) : Z :=
  let final_sigma :=
    match first_not_ignorable before with Some c => is_cased c | None => false end in
  let final_sigma :=
    final_sigma &&
    match first_not_ignorable after with Some c => negb (is_cased c) | None => true end in
  if final_sigma then 962 else 963.

(** [lower_ucs4]: the lowercase of the character [c] between [before]
    (reversed) and [after]. *)
Definition lower_ucs4 (before : pystr) (c : Z) (after : pystr) : list Z :=
  if c =? 931 then [handle_capital_sigma before after] else lower_full c.

Fixpoint lower_aux (before s : pystr) : pystr :=
  match s with
  | [] => []
  | c :: r => lower_ucs4 before c r ++ lower_aux (c :: before) r
  end.

(** [str.lower]. *)
Definition py_lower (s : pystr) : pystr := lower_aux [] s.

(** The lowercase of an ASCII letter; every other code point unchanged. *)
Definition ascii_lower (c : Z) : Z :=
  if (65 <=? c) && (c <=? 90) then c + 32 else c.

(** [s.strip(chars)] for the character set given by [p]. *)
Fixpoint lstrip_by (p : Z -> bool) (s : pystr) : pystr :=
  match s with
  | [] => []
  | c :: r => if p c then lstrip_by p r else s
  end.

Definition strip_by (p : Z -> bool) (s : pystr) : pystr :=
  rev (lstrip_by p (rev (lstrip_by p s))).

Definition py_strip (s : pystr) : pystr := strip_by py_isspace s.

(** [re.sub(r"[P]+", "-", s)]: every maximal run of characters of the
    class [P] becomes a single hyphen; [inrun] records that the previous
    character belonged to such a run. *)
Fixpoint collapse_runs (p : Z -> bool) (inrun : bool) (s : pystr) : pystr :=
  match s with
  | [] => []
  | c :: r =>
      if p c then
        if inrun then collapse_runs p true r
        else ch_hyphen :: collapse_runs p true r
      else c :: collapse_runs p false r
  end.

(* ------------------------------------------------------------------ *)
(** ** manifest.py: [slugify] *)

Definition is_lower_az (c : Z) : bool := (97 <=? c) && (c <=? 122).
Definition is_digit (c : Z) : bool := (48 <=? c) && (c <=? 57).

(** Characters kept by [re.sub(r'[^a-z0-9\s\-_/]', '', text)]. *)
Definition slug_keep (c : Z) : bool :=
  is_lower_az c || is_digit c || py_isspace c || (c =? ch_hyphen)
  || (c =? ch_underscore) || (c =? ch_slash).

Definition space_or_underscore (c : Z) : bool :=
  py_isspace c || (c =? ch_underscore).

Definition is_hyphen (c : Z) : bool := c =? ch_hyphen.

(** [slugify] with the string-lowering function as a parameter: [str.lower]
    of Python is a full Unicode case mapping (context-sensitive for final
    sigma); [slugify] below instantiates it with [py_lower]. *)
Definition slugify_with (lower : pystr -> pystr) (text : pystr) : pystr :=
  let text := lower (py_strip text) in
  let text := filter slug_keep text in
  let text := collapse_runs space_or_underscore false text in
  let text := collapse_runs is_hyphen false text in
  strip_by is_hyphen text.

Definition slugify (text : pystr) : pystr := slugify_with py_lower text.

(* ------------------------------------------------------------------ *)
(** ** Small Python helpers *)

Fixpoint str_ltb (a b : pystr) : bool :=
  match a, b with
  | [], [] => false
  | [], _ :: _ => true
  | _ :: _, [] => false
  | x :: a', y :: b' => if x <? y then true else if y <? x then false else str_ltb a' b'
  end.

Definition str_leb (a b : pystr) : bool := str_ltb a b || str_eqb a b.

(** [sorted(l, key=...)]: a stable insertion sort for the order [le]. *)
Fixpoint insert_by {A} (le : A -> A -> bool) (x : A) (l : list A) : list A :=
  match l with
  | [] => [x]
  | y :: r => if le x y then x :: l else y :: insert_by le x r
  end.

Fixpoint sort_by {A} (le : A -> A -> bool) (l : list A) : list A :=
  match l with
  | [] => []
  | x :: r => insert_by le x (sort_by le r)
  end.

(** [s.split(c)] (never empty). *)
Fixpoint split_on (c : Z) (s : pystr) : list pystr :=
  match s with
  | [] => [[]]
  | x :: r =>
      let parts := split_on c r in
      if x =? c then [] :: parts
      else match parts with
           | p :: ps => (x :: p) :: ps
           | [] => [[x]]
           end
  end.

(** [sep.join(parts)]. *)
Fixpoint join (sep : pystr) (parts : list pystr) : pystr :=
  match parts with
  | [] => []
  | [p] => p
  | p :: ps => p ++ sep ++ join sep ps
  end.

(** [s.replace(a, b)] for single characters. *)
Definition replace_char (a b : Z) (s : pystr) : pystr :=
  map (fun c => if c =? a then b else c) s.

Definition mem_char (c : Z) (s : pystr) : bool := existsb (Z.eqb c) s.

Definition str_in (s : pystr) (l : list pystr) : bool := existsb (str_eqb s) l.

(** [s.rfind(c)]. *)
Fixpoint rfind (c : Z) (s : pystr) : option nat :=
  match s with
  | [] => None
  | x :: r =>
      match rfind c r with
      | Some i => Some (S i)
      | None => if x =? c then Some O else None
      end
  end.

(** [str.title()] ([do_title]): a character following a cased character
    is lowercased (in its context), any other is titlecased. *)
Fixpoint title_aux (prev_cased : bool) (before s : pystr) : pystr :=
  match s with
  | [] => []
  | c :: r =>
      (if prev_cased then lower_ucs4 before c r else title_full c)
        ++ title_aux (is_cased c) (c :: before) r
  end.

Definition py_title (s : pystr) : pystr := title_aux false [] s.

(** Python dicts: association lists in insertion order. *)
Definition dict (V : Type) := list (pystr * V).

Fixpoint dict_get {V} (k : pystr) (d : dict V) : option V :=
  match d with
  | [] => None
  | (k', v) :: r => if str_eqb k k' then Some v else dict_get k r
  end.

Definition dict_mem {V} (k : pystr) (d : dict V) : bool :=
  match dict_get k d with Some _ => true | None => false end.

(** [d[k] = v]: overwrite in place, or append a new key. *)
Fixpoint dict_set {V} (k : pystr) (v : V) (d : dict V) : dict V :=
  match d with
  | [] => [(k, v)]
  | (k', v') :: r => if str_eqb k k' then (k', v) :: r else (k', v') :: dict_set k v r
  end.

(** [d.update(d2)]. *)
Definition dict_update {V} (d d2 : dict V) : dict V :=
  fold_left (fun acc kv => dict_set (fst kv) (snd kv) acc) d2 d.

Definition dict_values {V} (d : dict V) : list V := map snd d.

(* ------------------------------------------------------------------ *)
(** ** manifest.py: the vault tree and its helpers *)

#[local] Set Warnings "-register-all".

(** A vault: files and directories, each directory's entries in
    [iterdir()] order. *)
Inductive entry : Type :=
| EFile (name : pystr)
| EDir (name : pystr) (children : list entry).

Definition entry_name (e : entry) : pystr :=
  match e with EFile n => n | EDir n _ => n end.

Definition entry_is_dir (e : entry) : bool :=
  match e with EFile _ => false | EDir _ _ => true end.

Definition entry_is_file (e : entry) : bool := negb (entry_is_dir e).

(** [Path.suffix] / [Path.stem] (pathlib: [i = name.rfind('.')], a suffix
    only when [0 < i < len(name) - 1]). *)
Definition has_suffix_at (name : pystr) : option nat :=
  match rfind ch_dot name with
  | Some i => if (0 <? i)%nat && (i <? length name - 1)%nat then Some i else None
  | None => None
  end.

Definition path_suffix (name : pystr) : pystr :=
  match has_suffix_at name with Some i => skipn i name | None => [] end.

Definition path_stem (name : pystr) : pystr :=
  match has_suffix_at name with Some i => firstn i name | None => name end.

Definition IGNORE_DIRS : list pystr := [lit ".obsidian"; lit ".excalidraw"].
Definition IGNORE_FILES : list pystr := [lit ".DS_Store"].
Definition GRAPHICS_DIR_NAME : pystr := lit "graphics".
Definition IMAGE_EXTENSIONS : list pystr :=
  [lit ".png"; lit ".jpg"; lit ".jpeg"; lit ".gif"; lit ".svg"; lit ".webp"; lit ".bmp"].

Inductive node_type := TDirectory | TFile | TGraphics.

(** The three variants of a manifest node. *)
Inductive node : Type :=
| NDir (id title slug content_path : pystr) (children : list pystr)
| NFile (id title slug content_path : pystr)
| NGraphics (id slug content_path : pystr) (assets : list pystr).

Definition node_id (n : node) : pystr :=
  match n with NDir i _ _ _ _ | NFile i _ _ _ | NGraphics i _ _ _ => i end.

Definition node_slug (n : node) : pystr :=
  match n with NDir _ _ s _ _ | NFile _ _ s _ | NGraphics _ s _ _ => s end.

Definition node_content_path (n : node) : pystr :=
  match n with NDir _ _ _ c _ | NFile _ _ _ c | NGraphics _ _ c _ => c end.

(** [node.get('title', '')]. *)
Definition node_title (n : node) : pystr :=
  match n with NDir _ t _ _ _ | NFile _ t _ _ => t | NGraphics _ _ _ _ => [] end.

Definition node_kind (n : node) : node_type :=
  match n with NDir _ _ _ _ _ => TDirectory | NFile _ _ _ _ => TFile
  | NGraphics _ _ _ _ => TGraphics end.

Definition make_id (slug : pystr) (node_type : node_type) : pystr :=
  let suffix := match node_type with
                | TDirectory => lit "-dir"
                | TGraphics => lit "-graphics"
                | TFile => lit "-file"
                end in
  let parts := split_on ch_slash (strip_by (Z.eqb ch_slash) slug) in
  match node_type with
  | TGraphics =>
      let base := if (2 <=? length parts)%nat
                  then nth (length parts - 2) parts [] else lit "root" in
      base ++ suffix
  | _ =>
      let base := match last parts [] with
                  | [] => hd [] parts
                  | l => l
                  end in
      base ++ suffix
  end.

Definition make_title (name : pystr) : pystr :=
  py_title (replace_char ch_hyphen ch_space (replace_char ch_underscore ch_space name)).

Definition readme_like (e : entry) : bool :=
  entry_is_file e && str_eqb (py_lower (entry_name e)) (lit "readme.md").

Definition has_readme (children : list entry) : option pystr :=
  match find readme_like children with
  | Some e => Some (entry_name e)
  | None => None
  end.

Definition is_graphics_dir (name : pystr) : bool :=
  str_eqb (py_lower name) GRAPHICS_DIR_NAME.

Definition should_ignore (e : entry) : bool :=
  str_in (entry_name e) IGNORE_FILES || (entry_is_dir e && str_in (entry_name e) IGNORE_DIRS).

(** [sorted(graphics_path.iterdir())] compares paths of one directory by
    name. *)
Definition collect_assets (children : list entry) : list pystr :=
  map entry_name
    (filter (fun e => entry_is_file e && str_in (py_lower (path_suffix (entry_name e))) IMAGE_EXTENSIONS)
       (sort_by (fun a b => str_leb (entry_name a) (entry_name b)) children)).

(** The listing order of [walk_directory]:
    [key=lambda e: (not e.is_dir(), e.name.lower())]. *)
Definition entry_key_le (a b : entry) : bool :=
  let ka := negb (entry_is_dir a) in
  let kb := negb (entry_is_dir b) in
  if Bool.eqb ka kb then str_leb (py_lower (entry_name a)) (py_lower (entry_name b))
  else kb.

(** Every directory listing sorted with the key of [walk_directory]. *)
Fixpoint sort_tree (e : entry) : entry :=
  match e with
  | EFile n => EFile n
  | EDir n cs => EDir n (sort_by entry_key_le (map sort_tree cs))
  end.


(** One iteration of the entry loop of [walk_directory]: the entry [x] of
    the directory with path [rel] and slug [dir_slug], on the state
    [(all_nodes, children_ids)]. [sub] is the result of the recursive
    [walk_directory] call on [x], consulted only in the subdirectory
    branch. *)
Definition walk_entry (is_root : bool) (dir_slug : pystr) (x : entry)
           (sub : option (node * dict node)) (st : dict node * list pystr)
  : dict node * list pystr :=
  let '(all_nodes, children_ids) := st in
  if should_ignore x then st else
  match x with
  | EDir xname xcs =>
    if is_graphics_dir xname then
      (* --- Graphics directory --- *)
      match collect_assets xcs with
      | [] => st
      | assets =>
        let g_slug := if is_root then lit "graphics" else dir_slug ++ lit "/graphics" in
        let g_id := make_id g_slug TGraphics in
        (dict_set g_id (NGraphics g_id g_slug (lit "/" ++ g_slug ++ lit "/") assets) all_nodes,
         children_ids ++ [g_id])
      end
    else
      (* --- Subdirectory (non-graphics) --- *)
      match sub with
      | Some (sub_node, sub_all) =>
          (dict_update all_nodes sub_all, children_ids ++ [node_id sub_node])
      | None => st
      end
  | EFile xname =>
    (* --- File --- *)
    if str_eqb (py_lower (path_suffix xname)) (lit ".md") then
      (* Skip the README itself *)
      if str_eqb (py_lower xname) (lit "readme.md") then st else
      let file_stem := path_stem xname in
      let file_slug := if is_root then slugify file_stem
                       else dir_slug ++ lit "/" ++ slugify file_stem in
      let file_id := make_id file_slug TFile in
      (* Ensure unique ID if collision *)
      let file_id := if dict_mem file_id all_nodes
                     then slugify file_slug ++ lit "-file" else file_id in
      (dict_set file_id
         (NFile file_id (make_title file_stem) file_slug (lit "/" ++ file_slug ++ lit ".html"))
         all_nodes,
       children_ids ++ [file_id])
    else st
  end.

(** The loop [for entry in entries], [rec] being the recursive call. *)
Fixpoint walk_loop (rec : entry -> option (node * dict node)) (is_root : bool)
         (dir_slug : pystr) (l : list entry) (st : dict node * list pystr)
  : dict node * list pystr :=
  match l with
  | [] => st
  | x :: rest => walk_loop rec is_root dir_slug rest (walk_entry is_root dir_slug x (rec x) st)
  end.

(** [walk_directory] on a directory whose listings are already in the
    walker's order (see [walk_directory] below). [rel] is the path of the
    directory relative to the vault root, one name per component; the
    result is [None] for an ineligible directory, otherwise the directory
    node and the [all_nodes] dict. *)
Fixpoint walk (e : entry) (rel : list pystr) (is_root : bool)
         (root_title : option pystr) {struct e} : option (node * dict node) :=
  match e with
  | EFile _ => None
  | EDir name cs =>
    match has_readme cs with
    | None => None
    | Some _ =>
      let dir_slug := if is_root then lit "root" else slugify (join (lit "/") rel) in
      let dir_id := if is_root then lit "root-dir" else make_id dir_slug TDirectory in
      let title := if is_root then
                     match root_title with
                     | Some ((_ :: _) as t) => t
                     | _ => lit "Root"
                     end
                   else make_title name in
      let content_path := if is_root then lit "/readme.html"
                          else lit "/" ++ dir_slug ++ lit "/README.html" in
      let '(all_nodes, children_ids) :=
        walk_loop (fun x => walk x (rel ++ [entry_name x]) false None)
                  is_root dir_slug cs ([], []) in
      let dir_node := NDir dir_id title dir_slug content_path children_ids in
      Some (dir_node, dict_set dir_id dir_node all_nodes)
    end
  end.

(** [walk_directory(dir_path, vault_root, root_title)]: each directory's
    [iterdir()] listing is sorted with the walker's key before it is
    iterated; [sort_tree] performs these sorts up front. *)
Definition walk_directory (e : entry) (rel : list pystr) (is_root : bool)
           (root_title : option pystr) : option (node * dict node) :=
  walk (sort_tree e) rel is_root root_title.

Record manifest := { rootId : pystr; items : dict node }.

(** [generate_manifest(vault_path, title)]; [None] stands for the two
    fatal exits (not a directory, no README in the root). *)
Definition generate_manifest (vault : entry) (title : pystr) : option manifest :=
  match vault with
  | EFile _ => None
  | EDir _ _ =>
    match walk_directory vault [] true (Some title) with
    | None => None
    | Some (n, all_nodes) => Some {| rootId := node_id n; items := all_nodes |}
    end
  end.

Definition item_ids (m : option manifest) : list pystr :=
  match m with Some m => map fst (items m) | None => [] end.

(** The entries of a directory listing that [walk_directory] can turn
    into nodes: files, directories whose lowercased name is "graphics", and
    directories holding a README. *)
Definition walk_keeps (e : entry) : bool :=
  match e with
  | EFile _ => true
  | EDir n cs => is_graphics_dir n || existsb readme_like cs
  end.

(** The vault with every other directory (and its subtree) removed, at
    every depth below the root. *)
Fixpoint prune_ineligible (e : entry) : entry :=
  match e with
  | EFile n => EFile n
  | EDir n cs =>
      EDir n ((fix go (l : list entry) : list entry :=
                 match l with
                 | [] => []
                 | x :: r => if walk_keeps x then prune_ineligible x :: go r else go r
                 end) cs)
  end.

(* ------------------------------------------------------------------ *)
(** ** resolver.py *)

(** [build_title_index]: lowercase title -> nodes bearing it
    ([index.setdefault(key, []).append(node)]), graphics excluded. *)
Definition build_title_index (items : dict node) : dict (list node) :=
  fold_left
    (fun index n =>
       match node_kind n with
       | TGraphics => index
       | _ =>
         let key := py_lower (node_title n) in
         let old := match dict_get key index with Some l => l | None => [] end in
         dict_set key (old ++ [n]) index
       end)
    (dict_values items) [].

(** [build_slug_index]: slug -> node, graphics excluded (a later node with
    the same slug replaces an earlier one). *)
Definition build_slug_index (items : dict node) : dict node :=
  fold_left
    (fun index n =>
       match node_kind n with
       | TGraphics => index
       | _ => dict_set (node_slug n) n index
       end)
    (dict_values items) [].

(** [build_asset_index]: asset filename -> content_path of its graphics
    node (last one visited wins). *)
Definition add_node_assets (index : dict pystr) (n : node) : dict pystr :=
  match n with
  | NGraphics _ _ cp assets => fold_left (fun index a => dict_set a cp index) assets index
  | _ => index
  end.

Definition build_asset_index (items : dict node) : dict pystr :=
  fold_left add_node_assets (dict_values items) [].

(** [s.split(c, 1)] when [c in s]. *)
Fixpoint split_once (c : Z) (s : pystr) : option (pystr * pystr) :=
  match s with
  | [] => None
  | x :: r =>
      if x =? c then Some ([], r)
      else match split_once c r with
           | Some (a, b) => Some (x :: a, b)
           | None => None
           end
  end.

(** Python's [display or fallback] on an optional string ([None] and the
    empty string are falsy). *)
Definition py_or (display : option pystr) (fallback : pystr) : pystr :=
  match display with
  | Some ((_ :: _) as d) => d
  | _ => fallback
  end.

Definition resolve_wiki_link (target : pystr) (title_index : dict (list node))
           (slug_index : dict node) : pystr * pystr :=
  (* Handle pipe syntax: [[target|display]] *)
  let '(target_part, display) :=
    match split_once ch_pipe target with
    | Some (a, b) => (a, Some b)
    | None => (target, None)
    end in
  let target_clean := py_strip target_part in
  let target_lower := py_lower target_clean in
  (* 1. Exact slug match *)
  let slug_key := py_lower (replace_char ch_space ch_hyphen target_clean) in
  match dict_get slug_key slug_index with
  | Some n => (node_content_path n, py_or display (node_title n))
  | None =>
    (* 2. Title match *)
    match dict_get target_lower title_index with
    | Some [n] => (node_content_path n, py_or display (node_title n))
    | _ =>
      (* 3. Try slugified version *)
      let slugified := slugify target_clean in
      match dict_get slugified slug_index with
      | Some n => (node_content_path n, py_or display (node_title n))
      | None =>
        (* 4. Fallback: broken link *)
        (lit "#", py_or display target_clean)
      end
    end
  end.

(** [s.rsplit(c, 1)[-1] if c in s else s]. *)
Definition rsplit_last (c : Z) (s : pystr) : pystr :=
  match rfind c s with
  | Some i => skipn (S i) s
  | None => s
  end.

Definition resolve_image_embed (filename : pystr) (asset_index : dict pystr) : pystr :=
  let filename := py_strip filename in
  (* Strip any directory prefix *)
  let basename := if mem_char ch_slash filename then rsplit_last ch_slash filename
                  else filename in
  match dict_get basename asset_index with
  | Some prefix => prefix ++ basename
  | None => lit "/graphics/" ++ basename
  end.

(* ------------------------------------------------------------------ *)
(** ** Link resolution as the spec describes it *)

(** The resolution order of the spec as a list of candidate lookups on the
    trimmed target [t], the first hit winning. *)
Definition link_candidates (t : pystr) (title_index : dict (list node))
           (slug_index : dict node) : list (option node) :=
  [ dict_get (py_lower (replace_char ch_space ch_hyphen t)) slug_index;
    match dict_get (py_lower t) title_index with Some [n] => Some n | _ => None end;
    dict_get (slugify t) slug_index ].

Fixpoint first_hit {A} (l : list (option A)) : option A :=
  match l with
  | [] => None
  | Some a :: _ => Some a
  | None :: r => first_hit r
  end.

(** The target part and the display override of a wiki-link target, split
    at the first '|'. *)
Definition split_display (target : pystr) : pystr * option pystr :=
  match split_once ch_pipe target with
  | Some (a, b) => (a, Some b)
  | None => (target, None)
  end.

(** The amended resolution: trimmed target, candidates in order, a
    non-empty override replacing the display text. *)
Definition resolve_by_candidates (target : pystr) (title_index : dict (list node))
           (slug_index : dict node) : pystr * pystr :=
  let '(part, override) := split_display target in
  let t := py_strip part in
  match first_hit (link_candidates t title_index slug_index) with
  | Some n => (node_content_path n, py_or override (node_title n))
  | None => (lit "#", py_or override t)
  end.

(** The resolution as the claim words it: untrimmed target, the override
    used whenever given, the raw target as fallback display. *)
Definition resolve_as_worded (target : pystr) (title_index : dict (list node))
           (slug_index : dict node) : pystr * pystr :=
  let '(part, override) := split_display target in
  let cands := [ dict_get (py_lower (replace_char ch_space ch_hyphen part)) slug_index;
                 match dict_get (py_lower part) title_index with
                 | Some [n] => Some n | _ => None end;
                 dict_get (slugify part) slug_index ] in
  match first_hit cands with
  | Some n => (node_content_path n, match override with Some d => d | None => node_title n end)
  | None => (lit "#", match override with Some d => d | None => part end)
  end.

(* ------------------------------------------------------------------ *)
(** ** Sample vaults *)

(** A root whose only subdirectory is "Graphics" (capital G), holding an
    image and no README. *)
Definition vault_capital_graphics : entry :=
  EDir (lit "vault") [EFile (lit "README.md"); EDir (lit "Graphics") [EFile (lit "photo.png")]].

Definition vault_root_readme_only : entry :=
  EDir (lit "vault") [EFile (lit "README.md")].

(** Two root files whose stems slugify alike. *)
Definition vault_foo_collision : entry :=
  EDir (lit "vault") [EFile (lit "README.md"); EFile (lit "Foo!.md"); EFile (lit "foo.md")].

(** Two directories holding a file of the same name. *)
Definition vault_cross_dir : entry :=
  EDir (lit "vault")
    [EFile (lit "README.md");
     EDir (lit "a") [EFile (lit "README.md"); EFile (lit "x.md")];
     EDir (lit "b") [EFile (lit "README.md"); EFile (lit "x.md")]].

Definition manifest_items (m : option manifest) : dict node :=
  match m with Some m => items m | None => [] end.

(** The link indexes of the vault holding only a root README. *)
Definition readme_only_items : dict node :=
  manifest_items (generate_manifest vault_root_readme_only (lit "Digi Garden")).

(** A root whose subdirectory "GRAPHICS" holds one image with an
    upper-case extension and no README. *)
Definition vault_upper_graphics : entry :=
  EDir (lit "vault") [EFile (lit "README.md"); EDir (lit "GRAPHICS") [EFile (lit "Photo.PNG")]].

(** A directory listing holds at least one file whose lowercased suffix is
    a recognised image extension. *)
Definition has_image_asset (cs : list entry) : bool :=
  existsb (fun e => entry_is_file e &&
                    str_in (py_lower (path_suffix (entry_name e))) IMAGE_EXTENSIONS) cs.

(* ------------------------------------------------------------------ *)
(** ** renderer.py: sanitization and code blocks *)

(** The regular expressions of [_sanitized_call] are matched by hand, one
    matcher per pattern: a matcher returns the rest of the string after a
    match starting at its head. [\s] is [str.isspace] and [\w] is the
    [WORD] table ([str.isalnum] or '_'). Under IGNORECASE a pattern
    character [p] (all of them are ASCII here) matches [c] when [c] is [p]
    up to ASCII case or is one of the other characters [re] identifies
    with [p]: U+0130 and U+0131 for 'i', the Kelvin sign U+212A for 'k',
    the long s U+017F for 's'. *)
Definition ci_eq (p c : Z) : bool :=
  (ascii_lower c =? ascii_lower p)
  || ((ascii_lower p =? 105) && ((c =? 304) || (c =? 305)))
  || ((ascii_lower p =? 107) && (c =? 8490))
  || ((ascii_lower p =? 115) && (c =? 383)).

Fixpoint strip_prefix_ci (pat s : pystr) : option pystr :=
  match pat, s with
  | [], _ => Some s
  | p :: ps, c :: r => if ci_eq p c then strip_prefix_ci ps r else None
  | _ :: _, [] => None
  end.

(** [[^c]*c]: the rest after the first [c]. *)
Fixpoint skip_past (c : Z) (s : pystr) : option pystr :=
  match s with
  | [] => None
  | x :: r => if x =? c then Some r else skip_past c r
  end.

(** [.*?PAT] under DOTALL and IGNORECASE: the rest after the first
    occurrence of [pat]. *)
Fixpoint skip_past_ci (pat s : pystr) : option pystr :=
  match strip_prefix_ci pat s with
  | Some r => Some r
  | None => match s with [] => None | _ :: r => skip_past_ci pat r end
  end.

(** [<TAG[^>]*>.*?</TAG>] *)
Definition match_element (tag s : pystr) : option pystr :=
  match strip_prefix_ci (ch_lt :: tag) s with
  | None => None
  | Some r =>
    match skip_past ch_gt r with
    | None => None
    | Some r' => skip_past_ci (ch_lt :: ch_slash :: tag ++ [ch_gt]) r'
    end
  end.

(** The longest prefix of [s] whose characters satisfy [p], and the rest. *)
Fixpoint span (p : Z -> bool) (s : pystr) : pystr * pystr :=
  match s with
  | c :: r => if p c then let '(a, b) := span p r in (c :: a, b) else ([], s)
  | [] => ([], [])
  end.

Definition is_word (c : Z) : bool := in_ranges WORD c.

(** [\s+on\w+\s*=\s*Q[^Q]*Q] for the quote [q]. *)
Definition match_handler (q s : pystr) : option pystr :=
  let '(ws, r) := span py_isspace s in
  match ws with
  | [] => None
  | _ =>
    match strip_prefix_ci (lit "on") r with
    | None => None
    | Some r1 =>
      let '(w, r2) := span is_word r1 in
      match w with
      | [] => None
      | _ =>
        match snd (span py_isspace r2) with
        | c :: r4 =>
          if c =? ch_eq then
            match strip_prefix_ci q (snd (span py_isspace r4)) with
            | Some r6 => match q with [qc] => skip_past qc r6 | _ => None end
            | None => None
            end
          else None
        | [] => None
        end
      end
    end
  end.

(** [re.sub(pattern, '', s)] for a pattern that matches no empty string:
    scan left to right, drop each match, resume after it. *)
Fixpoint sub_all (fuel : nat) (m : pystr -> option pystr) (s : pystr) : pystr :=
  match fuel with
  | O => s
  | S f =>
    match s with
    | [] => []
    | c :: r =>
      match m s with
      | Some rest => sub_all f m rest
      | None => c :: sub_all f m r
      end
    end
  end.

Definition re_sub_empty (m : pystr -> option pystr) (s : pystr) : pystr :=
  sub_all (S (length s)) m s.

Definition sanitize (html : pystr) : pystr :=
  (* Remove <style>, <script>, <iframe> tags and their content *)
  let html := re_sub_empty (match_element (lit "style")) html in
  let html := re_sub_empty (match_element (lit "script")) html in
  let html := re_sub_empty (match_element (lit "iframe")) html in
  (* Remove on* event handler attributes *)
  let html := re_sub_empty (match_handler [ch_dquote]) html in
  re_sub_empty (match_handler [ch_squote]) html.

(** mistune's [escape(s)] (quote=True): the ampersand, '<', '>' and the double quote as
    entities. *)
Definition escape_char (c : Z) : pystr :=
  if c =? ch_amp then lit "&amp;"
  else if c =? ch_lt then lit "&lt;"
  else if c =? ch_gt then lit "&gt;"
  else if c =? ch_dquote then lit "&quot;"
  else [c].

Definition escape_text (s : pystr) : pystr := flat_map escape_char s.

(** [info.split()[0]], [None] for the [IndexError] of a blank [info]. *)
Definition first_word (info : pystr) : option pystr :=
  match lstrip_by py_isspace info with
  | [] => None
  | t => Some (fst (span (fun c => negb (py_isspace c)) t))
  end.

(** The [block_code] override; [None] stands for the exception raised on a
    non-empty blank [info]. *)
Definition block_code (code : pystr) (info : option pystr) : option pystr :=
  let dq := [ch_dquote] in
  let escaped := escape_text code in
  let attrs :=
    match info with
    | Some ((_ :: _) as i) =>
      match first_word i with
      | Some lang => Some (lit " class=" ++ dq ++ lit "language-" ++ lang ++ dq,
                           lit "<span class=" ++ dq ++ lit "code-lang" ++ dq ++ lit ">" ++
                           lang ++ lit "</span>")
      | None => None
      end
    | _ => Some ([], [])
    end in
  match attrs with
  | None => None
  | Some (lang_attr, lang_label) =>
    Some (lit "<div class=" ++ dq ++ lit "code-block" ++ dq ++ lit ">" ++ lang_label ++
          lit "<button class=" ++ dq ++ lit "copy-btn" ++ dq ++
          lit " aria-label=" ++ dq ++ lit "Copy code" ++ dq ++ lit ">Copy</button>" ++
          lit "<pre><code" ++ lang_attr ++ lit ">" ++ escaped ++ lit "</code></pre>" ++
          lit "</div>" ++ [ch_nl])
  end.

(** A Python object whose class defines [__call__]: [cls_call] is the
    class's method and [inst_attrs] the callables of the instance
    [__dict__]. *)
Record py_object := { cls_call : pystr -> pystr; inst_attrs : dict (pystr -> pystr) }.

(** [obj(x)]: an implicit special-method call looks [__call__] up on the
    type, never in the instance dict. *)
Definition py_call (o : py_object) (x : pystr) : pystr := cls_call o x.

(** [obj.__call__(x)]: attribute lookup finds the instance attribute
    first. *)
Definition py_call_attr (o : py_object) (x : pystr) : pystr :=
  match dict_get (lit "__call__") (inst_attrs o) with
  | Some f => f x
  | None => cls_call o x
  end.

Definition sanitized_call (original_call : pystr -> pystr) (text : pystr) : pystr :=
  sanitize (original_call text).

(** [create_parser]: [render] is [Markdown.__call__] of the configured
    mistune object; the sanitizer is bound as an instance attribute. *)
Definition create_parser (render : pystr -> pystr) : py_object :=
  let md := {| cls_call := render; inst_attrs := [] |} in
  let original_call := cls_call md in
  (* md.__call__ = types.MethodType(_sanitized_call, md) *)
  {| cls_call := cls_call md;
     inst_attrs := dict_set (lit "__call__") (sanitized_call original_call) (inst_attrs md) |}.

(** The HTML written for a page by [parse_file_pages] and
    [parse_readme_pages]: [html = md(content)]. *)
Definition render_page (md : py_object) (content : pystr) : pystr := py_call md content.

(** mistune 3 with [escape=False] on a document made of one raw HTML
    block (no carriage returns): [parse] appends a newline to a text that
    does not end in one, the [block_html] token's raw text runs through
    the end of that line, and [block_html] renders [html + '\n']. *)
Definition raw_html_block_render (content : pystr) : pystr :=
  let src := match rev content with
             | c :: _ => if c =? ch_nl then content else content ++ [ch_nl]
             | [] => content ++ [ch_nl]
             end in
  src ++ [ch_nl].

(* ------------------------------------------------------------------ *)
(** ** renderer.py: heading anchors *)

(** [<[^>]+>]: a '<', at least one character other than '>', then '>'. *)
Definition match_tag (s : pystr) : option pystr :=
  match s with
  | c :: d :: r => if (c =? ch_lt) && negb (d =? ch_gt) then skip_past ch_gt r else None
  | _ => None
  end.

Definition is_slug_heading_char (c : Z) : bool := is_lower_az c || is_digit c || (c =? ch_hyphen).

Definition slugify_heading (text : pystr) : pystr :=
  (* Strip any inline HTML tags *)
  let slug := re_sub_empty match_tag text in
  let slug := py_lower slug in
  (* Replace non-alphanumeric (keep hyphens) with hyphens *)
  let slug := collapse_runs (fun c => negb (is_slug_heading_char c)) false slug in
  (* Collapse multiple hyphens *)
  let slug := collapse_runs is_hyphen false slug in
  strip_by is_hyphen slug.

(** [str(n)] for an [int]. *)
Fixpoint dec_digits (fuel : nat) (n : Z) : pystr :=
  match fuel with
  | O => []
  | S f => if n <? 10 then [48 + n] else dec_digits f (n / 10) ++ [48 + n mod 10]
  end.

Definition py_str_int (n : Z) : pystr :=
  if n <? 0 then ch_hyphen :: dec_digits (S (Z.to_nat (- n))) (- n)
  else dec_digits (S (Z.to_nat n)) n.

Definition heading_html (slug text : pystr) (level : Z) : pystr :=
  lit "<h" ++ py_str_int level ++ lit " id=" ++ [ch_dquote] ++ slug ++ [ch_dquote] ++
  lit "><a class=" ++ [ch_dquote] ++ lit "heading-anchor" ++ [ch_dquote] ++
  lit " href=" ++ [ch_dquote] ++ lit "#" ++ slug ++ [ch_dquote] ++ lit " data-link>" ++
  text ++ lit "</a></h" ++ py_str_int level ++ lit ">" ++ [ch_nl].

(** The [heading] override on the state [heading_slug_counts]. *)
Definition heading (heading_slug_counts : dict Z) (text : pystr) (level : Z)
  : pystr * dict Z :=
  let slug := slugify_heading text in
  let '(slug, counts) :=
    match dict_get slug heading_slug_counts with
    | Some n =>
        let counts := dict_set slug (n + 1) heading_slug_counts in
        (slug ++ lit "-" ++ py_str_int (n + 1), counts)
    | None => (slug, dict_set slug 0 heading_slug_counts)
    end in
  (heading_html slug text level, counts).

(** A page's markdown seen through the heading renderer: the (text, level)
    of each heading, in the order mistune renders them. *)
Definition doc := list (pystr * Z).

Fixpoint render_headings (counts : dict Z) (d : doc) : list pystr * dict Z :=
  match d with
  | [] => ([], counts)
  | (text, level) :: r =>
      let '(h, counts) := heading counts text level in
      let '(hs, counts) := render_headings counts r in
      (h :: hs, counts)
  end.

(** One page loop of [parse_vault] over [pages]; [source] gives a page's
    markdown, [None] when the source is not found (the page is skipped). *)
Fixpoint render_pages (counts : dict Z) (source : node -> option doc) (pages : list node)
  : list (pystr * list pystr) * dict Z :=
  match pages with
  | [] => ([], counts)
  | n :: ns =>
      match source n with
      | None => render_pages counts source ns
      | Some d =>
          let '(out, counts) := render_headings counts d in
          let '(rest, counts) := render_pages counts source ns in
          ((node_content_path n, out) :: rest, counts)
      end
  end.

Definition is_file_node (n : node) : bool :=
  match node_kind n with TFile => true | _ => false end.

Definition is_dir_node (n : node) : bool :=
  match node_kind n with TDirectory => true | _ => false end.

(** [parse_vault]: one parser, hence one [heading_slug_counts] dict, for
    the file pages (Job 2) and then the README pages (Job 3). *)
Definition parse_vault_headings (items : dict node) (source : node -> option doc)
  : list (pystr * list pystr) :=
  let heading_slug_counts := [] in
  let '(file_pages, counts) :=
    render_pages heading_slug_counts source (filter is_file_node (dict_values items)) in
  let '(readme_pages, _) := render_pages counts source (filter is_dir_node (dict_values items)) in
  file_pages ++ readme_pages.

(** The same pages, each document rendered with a fresh counter. *)
Definition parse_vault_headings_scoped (items : dict node) (source : node -> option doc)
  : list (pystr * list pystr) :=
  let pages := filter is_file_node (dict_values items) ++ filter is_dir_node (dict_values items) in
  flat_map (fun n => match source n with
                     | Some d => [(node_content_path n, fst (render_headings [] d))]
                     | None => []
                     end) pages.

(** Two notes, each with the heading "Intro". *)
Definition vault_two_notes : entry :=
  EDir (lit "vault") [EFile (lit "README.md"); EFile (lit "a.md"); EFile (lit "b.md")].

Definition intro_source (n : node) : option doc :=
  if is_file_node n then Some [(lit "Intro", 2)] else Some [].

(* ------------------------------------------------------------------ *)
(** ** frontmatter.py *)

Fixpoint strip_prefix (pat s : pystr) : option pystr :=
  match pat, s with
  | [], _ => Some s
  | p :: ps, c :: r => if p =? c then strip_prefix ps r else None
  | _ :: _, [] => None
  end.

(** The indices (from [i]) of the newlines of [s]. *)
Fixpoint nl_positions (i : nat) (s : pystr) : list nat :=
  match s with
  | [] => []
  | c :: r => (if c =? ch_nl then [i] else []) ++ nl_positions (S i) r
  end.

(** [(.*?\n)---] under DOTALL: the shortest prefix ending in a newline that
    is followed by "---", and the text after that "---". *)
Fixpoint lazy_group (s : pystr) : option (pystr * pystr) :=
  match s with
  | [] => None
  | c :: r =>
    match (if c =? ch_nl then strip_prefix (lit "---") r else None) with
    | Some after => Some ([c], after)
    | None =>
      match lazy_group r with
      | Some (g, after) => Some (c :: g, after)
      | None => None
      end
    end
  end.

(** Backtracking of [\s*\n]: the newline ending it is tried at each
    position [ps] of the whitespace run, the last one first; [\s*\n?]
    after the closing "---" takes the whole whitespace run that follows. *)
Fixpoint try_positions (ps : list nat) (r : pystr) : option (pystr * pystr) :=
  match ps with
  | [] => None
  | i :: ps' =>
    match lazy_group (skipn (S i) r) with
    | Some (g, after) => Some (g, snd (span py_isspace after))
    | None => try_positions ps' r
    end
  end.

(** [_FRONTMATTER_RE.match(text)]: [m.group(1)] and [text[m.end():]]. *)
Definition frontmatter_match (text : pystr) : option (pystr * pystr) :=
  match strip_prefix (lit "---") text with
  | None => None
  | Some r => try_positions (rev (nl_positions 0 (fst (span py_isspace r)))) r
  end.

(** The Python values [yaml.safe_load] builds: None, bool, int, float,
    str, date and datetime (carrying their [isoformat()]), list, the
    tuples of [!!omap] and [!!pairs] entries, the set of [!!set], the
    bytes of [!!binary], and dict. *)
Inductive yval : Type :=
| YNone
| YBool (b : bool)
| YInt (n : Z)
| YFloat (repr : pystr)
| YStr (s : pystr)
| YDate (iso : pystr)
| YDateTime (iso : pystr)
| YList (l : list yval)
| YTuple (l : list yval)
| YSet (l : list yval)
| YBytes (b : list Z)
| YDict (d : list (yval * yval)).

(** The outcome of [yaml.safe_load(raw_yaml)]: a value, a [yaml.YAMLError],
    or another exception (named), which [extract_frontmatter] does not
    catch. *)
Inductive yaml_outcome : Type :=
| YLoaded (v : yval)
| YYAMLError
| YRaise (exc : pystr).

Fixpoint normalise (v : yval) : yval :=
  match v with
  | YDateTime iso => YStr iso
  | YDate iso => YStr iso
  | YList l => YList (map normalise l)
  | YDict d => YDict (map (fun kv => (fst kv, normalise (snd kv))) d)
  | _ => v
  end.

Definition normalise_values (d : list (yval * yval)) : list (yval * yval) :=
  map (fun kv => (fst kv, normalise (snd kv))) d.

Section Frontmatter.
Variable safe_load : pystr -> yaml_outcome.

(** [extract_frontmatter]: [inl (metadata, body)], or [inr exc] when an
    exception propagates. *)
Definition extract_frontmatter (text : pystr) : (list (yval * yval) * pystr) + pystr :=
  match frontmatter_match text with
  | None => inl ([], text)
  | Some (raw_yaml, body) =>
    match safe_load raw_yaml with
    (* Malformed YAML -> treat as no front matter *)
    | YYAMLError => inl ([], text)
    | YRaise exc => inr exc
    | YLoaded (YDict parsed) => inl (normalise_values parsed, body)
    | YLoaded _ => inl ([], text)
    end
  end.
End Frontmatter.

(** Assets are sorted by name. *)
Definition name_le (a b : entry) : bool := str_leb (entry_name a) (entry_name b).

(** [node.get('children', [])]. *)
Definition node_children (n : node) : list pystr :=
  match n with NDir _ _ _ _ cs => cs | _ => [] end.

(** A vault with root and nested graphics directories, a subdirectory and
    files at two depths. *)
Definition vault_garden : entry :=
  EDir (lit "vault")
    [EFile (lit "README.md"); EFile (lit "Intro.md");
     EDir (lit "graphics") [EFile (lit "b.png"); EFile (lit "a.JPG"); EFile (lit "notes.txt")];
     EDir (lit "Moss Notes")
       [EFile (lit "readme.md"); EFile (lit "golden_file.md");
        EDir (lit "Graphics") [EFile (lit "leaf.svg")]]].

(** A [yaml.safe_load] stand-in returning a mapping with a date and a
    list holding a datetime. *)
Definition dated_meta : list (yval * yval) :=
  [(YStr (lit "date"), YDate (lit "2026-02-13"));
   (YStr (lit "tags"), YList [YStr (lit "a"); YDateTime (lit "2026-02-07T14:04:00")])].

Definition dated_load (raw_yaml : pystr) : yaml_outcome := YLoaded (YDict dated_meta).

(** [s.rsplit(c, 1)[0] if c in s else s]. *)
Definition rsplit_init (c : Z) (s : pystr) : pystr :=
  match rfind c s with
  | Some i => firstn i s
  | None => s
  end.

(** [render_wiki_embed] of [plugin_wiki_embed]. *)
Definition render_wiki_embed (asset_index : dict pystr) (text : pystr) : pystr :=
  let filename := text in
  (* Strip Obsidian pipe suffix *)
  let filename := match split_once ch_pipe filename with
                  | Some (a, _) => a
                  | None => filename
                  end in
  let src := resolve_image_embed filename asset_index in
  (* Use basename (no directory prefix) for alt text *)
  let basename := if mem_char ch_slash filename then rsplit_last ch_slash filename
                  else filename in
  let alt := if mem_char ch_dot basename then rsplit_init ch_dot basename else basename in
  lit "<img src=" ++ [ch_dquote] ++ src ++ [ch_dquote] ++ lit " alt=" ++ [ch_dquote] ++
  alt ++ [ch_dquote] ++ lit " />".

(** Non-graphics nodes: the ones [build_title_index] and
    [build_slug_index] index. *)
Definition not_graphics (n : node) : bool :=
  match node_kind n with TGraphics => false | _ => true end.

(* ================================================================== *)
(** * Proofs *)

Lemma str_eqb_eq : forall a b, str_eqb a b = true <-> a = b.
Proof.
  intros a b; unfold str_eqb; destruct (list_eq_dec Z.eq_dec a b); split;
    congruence.
Qed.

Example slugify_ex1 : slugify (lit "  Hello, World_! ") = lit "hello-world".
Proof. reflexivity. Qed.

Example slugify_ex2 : slugify (lit "moss/Moss 1") = lit "moss/moss-1".
Proof. reflexivity. Qed.


(** Turn boolean comparisons on [Z] into propositions. *)
Ltac zbool :=
  repeat match goal with
  | H : _ || _ = true |- _ => apply orb_true_iff in H
  | H : _ && _ = true |- _ => apply andb_true_iff in H
  | H : (_ <=? _) = true |- _ => apply Z.leb_le in H
  | H : (_ =? _) = true |- _ => apply Z.eqb_eq in H
  | H : (_ <=? _) = false |- _ => apply Z.leb_gt in H
  | H : (_ =? _) = false |- _ => apply Z.eqb_neq in H
  | H : _ /\ _ |- _ => destruct H
  | H : _ \/ _ |- _ => destruct H
  end.

(* ------------------------------------------------------------------ *)
(** ** The Unicode tables *)

Lemma multi_lookup_in : forall t c l, multi_lookup t c = Some l -> In (c, l) t.
Proof.
  induction t as [|[k l'] t IH]; intros c l H; [discriminate|]. cbn [multi_lookup] in H.
  destruct (k =? c) eqn:E; [zbool; subst; injection H as <-; left; reflexivity|].
  right. apply IH, H.
Qed.

Lemma delta_lookup_in : forall t c d, delta_lookup t c = Some d ->
  exists lo hi st, In (lo, hi, st, d) t /\ lo <= c <= hi.
Proof.
  induction t as [|[[[lo hi] st] d'] t IH]; intros c d H; [discriminate|].
  cbn [delta_lookup] in H.
  destruct ((lo <=? c) && (c <=? hi) && (Z.modulo (c - lo) st =? 0)) eqn:E.
  - injection H as <-. zbool. exists lo, hi, st. split; [left; reflexivity|lia].
  - destruct (IH c d H) as [lo' [hi' [st' [Hin Hr]]]].
    exists lo', hi', st'. split; [right; exact Hin|exact Hr].
Qed.

(** No character other than [x] itself is mapped to a string containing
    [x]. *)
Definition never_maps_to (multi : list (Z * list Z)) (single : list (Z * Z * Z * Z)) (x : Z)
  : bool :=
  forallb (fun e => negb (existsb (Z.eqb x) (snd e))) multi &&
  forallb (fun e => match e with (lo, hi, _, d) => negb ((lo <=? x - d) && (x - d <=? hi)) end)
    single.

Lemma case_map_avoids : forall multi single x c,
  never_maps_to multi single x = true -> c <> x ->
  Forall (fun y => y <> x) (case_map multi single c).
Proof.
  intros multi single x c H Hc. apply andb_true_iff in H as [Hm Hs].
  unfold case_map. destruct (multi_lookup multi c) as [l|] eqn:Em.
  - apply multi_lookup_in in Em. rewrite forallb_forall in Hm. specialize (Hm _ Em).
    apply Forall_forall. intros y Hy Ey. subst y. cbn [snd] in Hm.
    apply negb_true_iff in Hm.
    assert (existsb (Z.eqb x) l = true) by (apply existsb_exists; exists x; split;
      [exact Hy|apply Z.eqb_refl]).
    congruence.
  - destruct (delta_lookup single c) as [d|] eqn:Ed; [|constructor; [exact Hc|constructor]].
    apply delta_lookup_in in Ed. destruct Ed as [lo [hi [st [Hin Hr]]]].
    rewrite forallb_forall in Hs. specialize (Hs _ Hin). cbn beta iota in Hs.
    constructor; [|constructor]. intro E.
    apply negb_true_iff, andb_false_iff in Hs. destruct Hs as [Hs|Hs]; zbool; lia.
Qed.

(** Checking a property of all ASCII code points by evaluation. *)
Lemma ascii_check : forall (f : Z -> bool),
  forallb f (map Z.of_nat (seq 0 128)) = true -> forall c, 0 <= c < 128 -> f c = true.
Proof.
  intros f H c Hc. rewrite forallb_forall in H. apply H, in_map_iff.
  exists (Z.to_nat c). split; [lia|]. apply in_seq. lia.
Qed.

Definition ascii_upper (c : Z) : Z :=
  if (97 <=? c) && (c <=? 122) then c - 32 else c.

Definition ascii_cased (c : Z) : bool :=
  ((65 <=? c) && (c <=? 90)) || ((97 <=? c) && (c <=? 122)).

Lemma lower_full_ascii : forall c, 0 <= c < 128 -> lower_full c = [ascii_lower c].
Proof.
  intros c Hc. apply str_eqb_eq.
  exact (ascii_check (fun c => str_eqb (lower_full c) [ascii_lower c])
           ltac:(vm_compute; reflexivity) c Hc).
Qed.

Lemma title_full_ascii : forall c, 0 <= c < 128 -> title_full c = [ascii_upper c].
Proof.
  intros c Hc. apply str_eqb_eq.
  exact (ascii_check (fun c => str_eqb (title_full c) [ascii_upper c])
           ltac:(vm_compute; reflexivity) c Hc).
Qed.

Lemma is_cased_ascii : forall c, 0 <= c < 128 -> is_cased c = ascii_cased c.
Proof.
  intros c Hc. apply Bool.eqb_prop.
  exact (ascii_check (fun c => Bool.eqb (is_cased c) (ascii_cased c))
           ltac:(vm_compute; reflexivity) c Hc).
Qed.

Lemma lower_ucs4_ascii : forall before c after, 0 <= c < 128 ->
  lower_ucs4 before c after = [ascii_lower c].
Proof.
  intros before c after Hc. unfold lower_ucs4.
  destruct (c =? 931) eqn:E; [zbool; lia|]. apply lower_full_ascii, Hc.
Qed.

(** A character [x] that no other character lowers to. *)
Lemma lower_ucs4_avoids : forall x before c after,
  never_maps_to LOWER_MULTI LOWER_SINGLE x = true -> x <> 962 -> x <> 963 -> c <> x ->
  Forall (fun y => y <> x) (lower_ucs4 before c after).
Proof.
  intros x before c after H H1 H2 Hc. unfold lower_ucs4. destruct (c =? 931).
  - constructor; [|constructor]. unfold handle_capital_sigma.
    destruct (_ && _); congruence.
  - apply case_map_avoids; assumption.
Qed.

Lemma lower_aux_Forall : forall (P P' : Z -> Prop) before s,
  (forall b c a, P' c -> Forall P (lower_ucs4 b c a)) ->
  Forall P' s -> Forall P (lower_aux before s).
Proof.
  intros P P' before s H Hs. revert before. induction Hs as [|c r Hc Hr IH]; intro bf;
    [constructor|]. cbn [lower_aux]. apply Forall_app. split; [apply H, Hc|apply IH].
Qed.

Lemma title_aux_Forall : forall (P P' : Z -> Prop) pc before s,
  (forall b c a, P' c -> Forall P (lower_ucs4 b c a)) ->
  (forall c, P' c -> Forall P (title_full c)) ->
  Forall P' s -> Forall P (title_aux pc before s).
Proof.
  intros P P' pc before s H Ht Hs. revert pc before.
  induction Hs as [|c r Hc Hr IH]; intros pc bf; [constructor|]. cbn [title_aux].
  apply Forall_app. split; [destruct pc; [apply H|apply Ht]; exact Hc|apply IH].
Qed.

(* ------------------------------------------------------------------ *)
(** ** Shape of a slug *)

(** Characters that survive [slugify]: [a-z], [0-9], '-' and '/'. *)
Definition slug_char (c : Z) : bool :=
  is_lower_az c || is_digit c || (c =? ch_hyphen) || (c =? ch_slash).

Definition no_double_hyphen (s : pystr) : Prop :=
  forall l1 l2, s <> l1 ++ ch_hyphen :: ch_hyphen :: l2.

Definition slug_shaped (s : pystr) : Prop :=
  Forall (fun c => slug_char c = true) s /\ no_double_hyphen s /\
  (forall r, s <> ch_hyphen :: r) /\ (forall r, s <> r ++ [ch_hyphen]).

Lemma slug_char_not_space : forall c, slug_char c = true -> py_isspace c = false.
Proof.
  intros c H. unfold slug_char, is_lower_az, is_digit, ch_hyphen, ch_slash in H.
  destruct (py_isspace c) eqn:E; [|reflexivity]. exfalso.
  unfold py_isspace in E. zbool; lia.
Qed.

Lemma slug_char_keep : forall c, slug_char c = true -> slug_keep c = true.
Proof.
  intros c H. unfold slug_keep.
  unfold slug_char in H. rewrite !orb_true_iff in H.
  rewrite !orb_true_iff. tauto.
Qed.

Lemma slug_char_not_su : forall c, slug_char c = true -> space_or_underscore c = false.
Proof.
  intros c H. unfold space_or_underscore. rewrite (slug_char_not_space c H). simpl.
  apply Z.eqb_neq. intro E. subst. unfold slug_char in H. vm_compute in H. discriminate.
Qed.

Lemma lstrip_by_id : forall p s, Forall (fun c => p c = false) s -> lstrip_by p s = s.
Proof. intros p s H; destruct H as [|c r Hc _]; simpl; [|rewrite Hc]; reflexivity. Qed.

Lemma strip_by_id : forall p s, Forall (fun c => p c = false) s -> strip_by p s = s.
Proof.
  intros p s H. unfold strip_by. rewrite (lstrip_by_id p s H).
  rewrite (lstrip_by_id p (rev s)) by (apply Forall_rev; exact H).
  apply rev_involutive.
Qed.

Lemma lstrip_by_head_id : forall p s,
  (forall c r, s = c :: r -> p c = false) -> lstrip_by p s = s.
Proof.
  intros p [|c r] H; simpl; [reflexivity|]. rewrite (H c r eq_refl). reflexivity.
Qed.

Lemma lstrip_by_suffix : forall p s, exists pre, s = pre ++ lstrip_by p s.
Proof.
  intros p s; induction s as [|c r IH]; simpl.
  - exists []; reflexivity.
  - destruct (p c).
    + destruct IH as [pre E]. exists (c :: pre). simpl. congruence.
    + exists []; reflexivity.
Qed.

Lemma lstrip_by_head : forall p s c r, lstrip_by p s = c :: r -> p c = false.
Proof.
  intros p s; induction s as [|d s IH]; simpl; intros c r E; [discriminate|].
  destruct (p d) eqn:Pd; [eauto|]. injection E; intros; subst; assumption.
Qed.

Lemma no_double_hyphen_app_l : forall pre s,
  no_double_hyphen (pre ++ s) -> no_double_hyphen s.
Proof.
  intros pre s H l1 l2 E. apply (H (pre ++ l1) l2). rewrite E, app_assoc. reflexivity.
Qed.

Lemma no_double_hyphen_rev : forall s, no_double_hyphen s -> no_double_hyphen (rev s).
Proof.
  intros s H l1 l2 E. apply (H (rev l2) (rev l1)).
  rewrite <- (rev_involutive s), E. rewrite rev_app_distr. simpl.
  rewrite <- !app_assoc. reflexivity.
Qed.

Lemma strip_hyphen_shape : forall s,
  Forall (fun c => slug_char c = true) s -> no_double_hyphen s ->
  slug_shaped (strip_by is_hyphen s).
Proof.
  intros s Hf Hn. unfold strip_by.
  destruct (lstrip_by_suffix is_hyphen s) as [pre1 E1].
  set (u := lstrip_by is_hyphen s) in *.
  destruct (lstrip_by_suffix is_hyphen (rev u)) as [pre2 E2].
  set (v := lstrip_by is_hyphen (rev u)) in *.
  assert (Hu : Forall (fun c => slug_char c = true) u /\ no_double_hyphen u).
  { rewrite E1 in Hf, Hn. apply Forall_app in Hf. split; [tauto|].
    eapply no_double_hyphen_app_l; eauto. }
  assert (Hv : Forall (fun c => slug_char c = true) v /\ no_double_hyphen v).
  { destruct Hu as [Hf' Hn']. apply Forall_rev in Hf'. apply no_double_hyphen_rev in Hn'.
    rewrite E2 in Hf', Hn'. apply Forall_app in Hf'. split; [tauto|].
    eapply no_double_hyphen_app_l; eauto. }
  destruct Hv as [Hfv Hnv].
  split; [apply Forall_rev; exact Hfv|].
  split; [apply no_double_hyphen_rev; exact Hnv|].
  split.
  - intros r E. assert (Eu : u = rev v ++ rev pre2).
    { rewrite <- (rev_involutive u), E2, rev_app_distr. reflexivity. }
    rewrite E in Eu. simpl in Eu.
    pose proof (lstrip_by_head is_hyphen s _ _ Eu) as Hh.
    vm_compute in Hh. discriminate.
  - intros r E. assert (Ev : v = ch_hyphen :: rev r).
    { rewrite <- (rev_involutive v), E, rev_app_distr. reflexivity. }
    pose proof (lstrip_by_head is_hyphen (rev u) _ _ Ev) as Hh.
    vm_compute in Hh. discriminate.
Qed.

Lemma keep_not_su_slug : forall c,
  slug_keep c = true -> space_or_underscore c = false -> slug_char c = true.
Proof.
  intros c H1 H2. unfold slug_keep, space_or_underscore, slug_char in *.
  destruct (is_lower_az c), (is_digit c), (py_isspace c), (c =? ch_hyphen),
    (c =? ch_underscore), (c =? ch_slash); simpl in *; congruence.
Qed.

Lemma collapse_runs_Forall : forall (P : Z -> Prop) p b s,
  Forall P s -> P ch_hyphen -> Forall P (collapse_runs p b s).
Proof.
  intros P p b s Hs Hh. revert b.
  induction Hs as [|c s Hc Hs IH]; intros b; simpl; [constructor|].
  destruct (p c); [destruct b|]; auto.
Qed.

Lemma collapse_su_slug : forall b s,
  Forall (fun c => slug_keep c = true) s ->
  Forall (fun c => slug_char c = true) (collapse_runs space_or_underscore b s).
Proof.
  intros b s Hs. revert b.
  induction Hs as [|c s Hc Hs IH]; intros b; simpl; [constructor|].
  destruct (space_or_underscore c) eqn:E; [destruct b|]; auto.
  constructor; [|auto]. apply keep_not_su_slug; assumption.
Qed.

Lemma collapse_runs_id : forall p b s,
  Forall (fun c => p c = false) s -> collapse_runs p b s = s.
Proof.
  intros p b s Hs. revert b.
  induction Hs as [|c s Hc Hs IH]; intros b; simpl; [reflexivity|].
  rewrite Hc, IH. reflexivity.
Qed.

Lemma no_double_hyphen_nil : no_double_hyphen [].
Proof. intros [|x l1] l2 E; discriminate. Qed.

Lemma collapse_hyphen_shape : forall s b,
  no_double_hyphen (collapse_runs is_hyphen b s) /\
  (b = true -> forall r, collapse_runs is_hyphen b s <> ch_hyphen :: r).
Proof.
  induction s as [|c s IH]; intros b; simpl.
  - split; [apply no_double_hyphen_nil | intros _ r E; discriminate].
  - destruct (is_hyphen c) eqn:Hc; [destruct b|].
    + apply IH.
    + split; [|discriminate].
      destruct (IH true) as [H1 H2].
      intros [|z l1] l2 E; simpl in E; apply (f_equal (@tl Z)) in E; simpl in E.
      * exact (H2 eq_refl l2 E).
      * exact (H1 l1 l2 E).
    + destruct (IH false) as [H1 _]. split.
      * intros [|z l1] l2 E; simpl in E.
        -- apply (f_equal (hd 0)) in E. simpl in E. subst. discriminate.
        -- apply (f_equal (@tl Z)) in E. exact (H1 l1 l2 E).
      * intros _ r E. apply (f_equal (hd 0)) in E. simpl in E. subst. discriminate.
Qed.

Lemma collapse_hyphen_id : forall s b,
  no_double_hyphen s -> (b = true -> forall r, s <> ch_hyphen :: r) ->
  collapse_runs is_hyphen b s = s.
Proof.
  induction s as [|c s IH]; intros b Hn Hb; simpl; [reflexivity|].
  assert (Hn' : no_double_hyphen s) by (apply (no_double_hyphen_app_l [c]); exact Hn).
  destruct (is_hyphen c) eqn:Hc.
  - apply Z.eqb_eq in Hc. subst c. destruct b.
    + exfalso. exact (Hb eq_refl s eq_refl).
    + f_equal. apply IH; [exact Hn'|]. intros _ r E. subst s.
      exact (Hn [] r eq_refl).
  - f_equal. apply IH; [exact Hn'|discriminate].
Qed.

(** Whatever the lowering function, the output of [slugify] consists of
    [a-z0-9-/], has no two adjacent hyphens and neither starts nor ends
    with a hyphen. *)
Lemma slugify_with_shaped : forall lower x, slug_shaped (slugify_with lower x).
Proof.
  intros lower x. unfold slugify_with.
  set (t2 := filter slug_keep (lower (py_strip x))).
  assert (H2 : Forall (fun c => slug_keep c = true) t2).
  { apply Forall_forall. intros c Hc. apply filter_In in Hc. tauto. }
  pose proof (collapse_su_slug false t2 H2) as H3.
  set (t3 := collapse_runs space_or_underscore false t2) in *.
  apply strip_hyphen_shape.
  - apply collapse_runs_Forall; [exact H3 | reflexivity].
  - apply (collapse_hyphen_shape t3 false).
Qed.

Lemma slugify_with_fix : forall (lower : pystr -> pystr) y,
  (forall s, Forall (fun c => slug_char c = true) s -> lower s = s) ->
  slug_shaped y -> slugify_with lower y = y.
Proof.
  intros lower y Hl [Hf [Hn [Hh Ht]]]. unfold slugify_with, py_strip.
  rewrite (strip_by_id py_isspace y)
    by (eapply Forall_impl; [|exact Hf]; intros c; apply slug_char_not_space).
  rewrite (Hl y Hf).
  assert (Ef : filter slug_keep y = y).
  { clear Hn Hh Ht. induction Hf as [|c s Hc Hs IH]; simpl; [reflexivity|].
    rewrite (slug_char_keep c Hc), IH. reflexivity. }
  rewrite Ef.
  rewrite (collapse_runs_id space_or_underscore false y)
    by (eapply Forall_impl; [|exact Hf]; intros c; apply slug_char_not_su).
  rewrite (collapse_hyphen_id y false) by (assumption || discriminate).
  unfold strip_by. rewrite (lstrip_by_head_id is_hyphen y).
  - rewrite (lstrip_by_head_id is_hyphen (rev y)); [apply rev_involutive|].
    intros c r E. apply Z.eqb_neq. intro Ec. subst c. apply (Ht (rev r)).
    rewrite <- (rev_involutive y), E. reflexivity.
  - intros c r E. apply Z.eqb_neq. intro Ec. subst c. exact (Hh r E).
Qed.

Lemma py_lower_slug_chars : forall s,
  Forall (fun c => slug_char c = true) s -> py_lower s = s.
Proof.
  intros s Hs. unfold py_lower. generalize (@nil Z) as before.
  induction Hs as [|c s Hc Hs IH]; intro bf; [reflexivity|]. cbn [lower_aux].
  unfold slug_char, is_lower_az, is_digit, ch_hyphen, ch_slash in Hc.
  rewrite lower_ucs4_ascii by (zbool; lia). rewrite IH. cbn [app]. f_equal.
  unfold ascii_lower. destruct ((65 <=? c) && (c <=? 90)) eqn:E; [|reflexivity].
  exfalso. zbool; lia.
Qed.

(** C4: [slugify] is a projection, [slugify (slugify x) = slugify x], for
    every input string and for any lowering function that leaves strings
    over [a-z0-9-/] unchanged (as Python's Unicode [str.lower] does). *)
Theorem slugify_idempotent : forall (lower : pystr -> pystr),
  (forall s, Forall (fun c => slug_char c = true) s -> lower s = s) ->
  forall x, slugify_with lower (slugify_with lower x) = slugify_with lower x.
Proof.
  intros lower Hl x. apply slugify_with_fix; [exact Hl|]. apply slugify_with_shaped.
Qed.

Lemma slugify_idempotent_witness :
  slugify (slugify (lit " Foo__Bar -- Baz!/ ")) = slugify (lit " Foo__Bar -- Baz!/ ").
Proof.
  apply (slugify_idempotent py_lower). intros s Hs. apply py_lower_slug_chars. exact Hs.
Defined.

(* ------------------------------------------------------------------ *)
(** ** Induction on vault trees *)

Section EntryInd.
Variable P : entry -> Prop.
Hypothesis HFile : forall n, P (EFile n).
Hypothesis HDir : forall n cs, Forall P cs -> P (EDir n cs).

Fixpoint entry_ind' (e : entry) : P e :=
  match e with
  | EFile n => HFile n
  | EDir n cs =>
      HDir n cs ((fix go (l : list entry) : Forall P l :=
                    match l with
                    | [] => Forall_nil P
                    | x :: r => Forall_cons x (entry_ind' x) (go r)
                    end) cs)
  end.
End EntryInd.

(* ------------------------------------------------------------------ *)
(** ** Python string order *)

Lemma str_ltb_irrefl : forall a, str_ltb a a = false.
Proof. induction a as [|x a IH]; simpl; [reflexivity|]. rewrite Z.ltb_irrefl. exact IH. Qed.

Lemma str_ltb_trans : forall a b c,
  str_ltb a b = true -> str_ltb b c = true -> str_ltb a c = true.
Proof.
  induction a as [|x a IH]; intros [|y b] [|z c]; simpl; try discriminate; auto.
  intros Hab Hbc.
  destruct (Z.ltb_spec x y), (Z.ltb_spec y x), (Z.ltb_spec y z), (Z.ltb_spec z y),
    (Z.ltb_spec x z), (Z.ltb_spec z x); try discriminate; try lia; auto.
  assert (x = y) by lia. assert (y = z) by lia. subst. eauto.
Qed.

Lemma str_ltb_total : forall a b, a = b \/ str_ltb a b = true \/ str_ltb b a = true.
Proof.
  induction a as [|x a IH]; intros [|y b]; simpl; auto.
  destruct (Z.ltb_spec x y), (Z.ltb_spec y x); auto; try lia.
  assert (x = y) by lia. subst. destruct (IH b) as [E|[E|E]]; subst; auto.
Qed.

Lemma str_leb_total : forall a b, str_leb a b = true \/ str_leb b a = true.
Proof.
  intros a b. unfold str_leb. destruct (str_ltb_total a b) as [E|[E|E]].
  - subst. left. apply orb_true_iff. right. apply str_eqb_eq. reflexivity.
  - left. rewrite E. reflexivity.
  - right. rewrite E. reflexivity.
Qed.

Lemma str_leb_trans : forall a b c,
  str_leb a b = true -> str_leb b c = true -> str_leb a c = true.
Proof.
  unfold str_leb. intros a b c H1 H2. apply orb_true_iff in H1, H2.
  rewrite !str_eqb_eq in H1, H2. apply orb_true_iff. rewrite str_eqb_eq.
  destruct H1 as [H1|H1], H2 as [H2|H2]; subst; auto.
  left. eapply str_ltb_trans; eauto.
Qed.

Lemma entry_key_le_total : forall a b, entry_key_le a b = true \/ entry_key_le b a = true.
Proof.
  intros a b. unfold entry_key_le.
  destruct (negb (entry_is_dir a)), (negb (entry_is_dir b)); simpl; auto;
    apply str_leb_total.
Qed.

Lemma entry_key_le_trans : forall a b c,
  entry_key_le a b = true -> entry_key_le b c = true -> entry_key_le a c = true.
Proof.
  intros a b c. unfold entry_key_le.
  destruct (negb (entry_is_dir a)), (negb (entry_is_dir b)), (negb (entry_is_dir c));
    simpl; try discriminate; auto; apply str_leb_trans.
Qed.

(* ------------------------------------------------------------------ *)
(** ** Stable insertion sort *)

Section Sorting.
Context {A : Type} (le : A -> A -> bool).

Lemma sort_by_map : forall {B} (le' : B -> B -> bool) (f : A -> B) l,
  (forall a b, le' (f a) (f b) = le a b) ->
  sort_by le' (map f l) = map f (sort_by le l).
Proof.
  intros B le' f l Hf. induction l as [|x l IH]; simpl; [reflexivity|].
  rewrite IH. generalize (sort_by le l). intros s.
  induction s as [|y s IHs]; simpl; [reflexivity|].
  rewrite Hf. destruct (le x y); simpl; [reflexivity|]. rewrite IHs. reflexivity.
Qed.

Lemma insert_by_perm : forall x l, Permutation (insert_by le x l) (x :: l).
Proof.
  intros x l. induction l as [|y l IH]; simpl; [reflexivity|].
  destruct (le x y); [reflexivity|].
  rewrite IH. apply perm_swap.
Qed.

Lemma sort_by_perm : forall l, Permutation (sort_by le l) l.
Proof.
  induction l as [|x l IH]; simpl; [reflexivity|].
  rewrite insert_by_perm. constructor. exact IH.
Qed.

Hypothesis le_total : forall a b, le a b = true \/ le b a = true.
Hypothesis le_trans : forall a b c, le a b = true -> le b c = true -> le a c = true.

Let sorted := StronglySorted (fun a b => le a b = true).

Lemma insert_by_sorted : forall x l, sorted l -> sorted (insert_by le x l).
Proof.
  intros x l H. induction H as [|y l Hl IH Hy]; simpl.
  - repeat constructor.
  - destruct (le x y) eqn:Exy.
    + constructor; [constructor; assumption|]. constructor; [exact Exy|].
      eapply Forall_impl; [|exact Hy]. intros z Hz. eapply le_trans; eauto.
    + constructor; [exact IH|].
      assert (Hyx : le y x = true) by (destruct (le_total x y); congruence).
      apply (Permutation_Forall (Permutation_sym (insert_by_perm x l))).
      constructor; assumption.
Qed.

Lemma sort_by_sorted : forall l, sorted (sort_by le l).
Proof. induction l; simpl; [constructor|]. apply insert_by_sorted. assumption. Qed.

Lemma insert_by_front : forall x l, Forall (fun z => le x z = true) l ->
  insert_by le x l = x :: l.
Proof. intros x [|y l] H; simpl; [reflexivity|]. inversion H; subst. rewrite H2. reflexivity. Qed.

Lemma filter_insert_by : forall (p : A -> bool) x l, sorted l ->
  filter p (insert_by le x l) =
  if p x then insert_by le x (filter p l) else filter p l.
Proof.
  intros p x l H. induction H as [|y l Hl IH Hy].
  - simpl. destruct (p x); reflexivity.
  - cbn [insert_by]. destruct (le x y) eqn:Exy.
    + destruct (p x) eqn:Px.
      * rewrite (insert_by_front x (filter p (y :: l))).
        -- simpl. rewrite Px. reflexivity.
        -- apply Forall_forall. intros z Hz.
           apply filter_In in Hz. destruct Hz as [[Hz|Hz] _]; [subst; exact Exy|].
           eapply le_trans; [exact Exy|]. rewrite Forall_forall in Hy. auto.
      * simpl. rewrite Px. reflexivity.
    + simpl. rewrite IH. destruct (p y), (p x); simpl; try rewrite Exy; reflexivity.
Qed.

Lemma sort_by_filter : forall (p : A -> bool) l,
  sort_by le (filter p l) = filter p (sort_by le l).
Proof.
  intros p l. induction l as [|x l IH]; simpl; [reflexivity|].
  rewrite filter_insert_by by apply sort_by_sorted.
  destruct (p x); simpl; rewrite IH; reflexivity.
Qed.
End Sorting.

(* ------------------------------------------------------------------ *)
(** ** Pruning ineligible directories *)

Lemma prune_ineligible_dir : forall n cs,
  prune_ineligible (EDir n cs) = EDir n (map prune_ineligible (filter walk_keeps cs)).
Proof.
  intros n cs. simpl. f_equal. induction cs as [|x cs IH]; simpl; [reflexivity|].
  destruct (walk_keeps x); simpl; rewrite IH; reflexivity.
Qed.

Lemma prune_name : forall e, entry_name (prune_ineligible e) = entry_name e.
Proof. intros [n|n cs]; reflexivity. Qed.

Lemma prune_is_dir : forall e, entry_is_dir (prune_ineligible e) = entry_is_dir e.
Proof. intros [n|n cs]; reflexivity. Qed.

Lemma sort_tree_name : forall e, entry_name (sort_tree e) = entry_name e.
Proof. intros [n|n cs]; reflexivity. Qed.

Lemma sort_tree_is_dir : forall e, entry_is_dir (sort_tree e) = entry_is_dir e.
Proof. intros [n|n cs]; reflexivity. Qed.

Lemma existsb_perm : forall {A} (p : A -> bool) l l',
  Permutation l l' -> existsb p l = existsb p l'.
Proof.
  intros A p l l' H. induction H; simpl; try congruence.
  destruct (p x), (p y); reflexivity.
Qed.

Lemma readme_like_sort_tree : forall e, readme_like (sort_tree e) = readme_like e.
Proof. intros [n|n cs]; reflexivity. Qed.

Lemma readme_like_prune : forall e, readme_like (prune_ineligible e) = readme_like e.
Proof. intros [n|n cs]; reflexivity. Qed.

Lemma walk_keeps_sort_tree : forall e, walk_keeps (sort_tree e) = walk_keeps e.
Proof.
  intros [n|n cs]; [reflexivity|]. simpl. f_equal.
  rewrite (existsb_perm _ _ _ (sort_by_perm entry_key_le (map sort_tree cs))).
  induction cs as [|x cs IH]; simpl; [reflexivity|].
  rewrite readme_like_sort_tree, IH. reflexivity.
Qed.

Lemma filter_map_comm : forall {A} (p : A -> bool) (f : A -> A) l,
  (forall x, p (f x) = p x) -> filter p (map f l) = map f (filter p l).
Proof.
  intros A p f l Hf. induction l as [|x l IH]; simpl; [reflexivity|].
  rewrite Hf. destruct (p x); simpl; rewrite IH; reflexivity.
Qed.

Lemma prune_sort_tree : forall e,
  prune_ineligible (sort_tree e) = sort_tree (prune_ineligible e).
Proof.
  apply entry_ind'; [reflexivity|]. intros n cs IH.
  cbn [sort_tree]. rewrite !prune_ineligible_dir. cbn [sort_tree]. f_equal.
  rewrite map_map.
  rewrite (map_ext_in (fun x => sort_tree (prune_ineligible x))
                      (fun x => prune_ineligible (sort_tree x))).
  2:{ intros x Hx. apply filter_In in Hx. rewrite Forall_forall in IH.
      symmetry. apply IH. tauto. }
  rewrite <- (map_map sort_tree prune_ineligible).
  rewrite (sort_by_map entry_key_le entry_key_le prune_ineligible)
    by (intros a b; unfold entry_key_le; rewrite !prune_name, !prune_is_dir; reflexivity).
  rewrite <- (filter_map_comm walk_keeps sort_tree) by apply walk_keeps_sort_tree.
  rewrite (sort_by_filter entry_key_le entry_key_le_total entry_key_le_trans).
  reflexivity.
Qed.

Lemma has_readme_prune : forall cs,
  has_readme (map prune_ineligible (filter walk_keeps cs)) = has_readme cs.
Proof.
  intros cs. unfold has_readme. induction cs as [|x cs IH]; simpl; [reflexivity|].
  destruct (walk_keeps x) eqn:Kx; simpl.
  - rewrite readme_like_prune. destruct (readme_like x); [|exact IH].
    rewrite prune_name. reflexivity.
  - assert (Rx : readme_like x = false).
    { destruct x as [n|n xs]; [discriminate|reflexivity]. }
    rewrite Rx. exact IH.
Qed.

Lemma name_le_total : forall a b, name_le a b = true \/ name_le b a = true.
Proof. intros; apply str_leb_total. Qed.

Lemma name_le_trans : forall a b c,
  name_le a b = true -> name_le b c = true -> name_le a c = true.
Proof. unfold name_le; intros; eapply str_leb_trans; eauto. Qed.

Lemma collect_assets_prune : forall xcs,
  collect_assets (map prune_ineligible (filter walk_keeps xcs)) = collect_assets xcs.
Proof.
  intros xcs. unfold collect_assets. fold name_le.
  rewrite (sort_by_map name_le name_le prune_ineligible)
    by (intros a b; unfold name_le; rewrite !prune_name; reflexivity).
  rewrite (sort_by_filter name_le name_le_total name_le_trans).
  generalize (sort_by name_le xcs). intros l.
  rewrite filter_map_comm
    by (intros x; unfold entry_is_file; rewrite prune_is_dir, prune_name; reflexivity).
  rewrite map_map.
  rewrite (map_ext (fun x => entry_name (prune_ineligible x)) entry_name) by apply prune_name.
  f_equal. induction l as [|x l IH]; simpl; [reflexivity|].
  destruct (walk_keeps x) eqn:Kx; simpl.
  - destruct (entry_is_file x && _); [f_equal|]; exact IH.
  - destruct x as [n|n ys]; [discriminate|]. simpl. exact IH.
Qed.

Lemma walk_entry_keeps : forall r slug x (sub sub' : option (node * dict node)) st,
  walk_keeps x = true ->
  (entry_is_dir x = true -> is_graphics_dir (entry_name x) = false -> sub = sub') ->
  walk_entry r slug (prune_ineligible x) sub' st = walk_entry r slug x sub st.
Proof.
  intros r slug [n|n xcs] sub sub' [all ch] Kx Hs; [reflexivity|].
  rewrite prune_ineligible_dir. unfold walk_entry. simpl entry_name in Hs.
  destruct (should_ignore (EDir n xcs)) eqn:Ig.
  - unfold should_ignore in *. simpl in *. rewrite Ig. reflexivity.
  - unfold should_ignore in *. simpl in *. rewrite Ig.
    destruct (is_graphics_dir n) eqn:G.
    + rewrite collect_assets_prune. reflexivity.
    + rewrite (Hs eq_refl eq_refl). reflexivity.
Qed.

Lemma walk_entry_skips : forall r slug x st rel,
  walk_keeps x = false ->
  walk_entry r slug x (walk x rel false None) st = st.
Proof.
  intros r slug [n|n xcs] [all ch] rel Kx; [discriminate|].
  simpl in Kx. apply orb_false_iff in Kx. destruct Kx as [G R].
  assert (Hw : walk (EDir n xcs) rel false None = None).
  { simpl. unfold has_readme.
    destruct (find readme_like xcs) eqn:F; [|reflexivity].
    apply find_some in F. destruct F as [Fi Fr].
    assert (existsb readme_like xcs = true) by (apply existsb_exists; eauto).
    congruence. }
  rewrite Hw. unfold walk_entry. rewrite G.
  destruct (should_ignore (EDir n xcs)); reflexivity.
Qed.

Lemma walk_prune : forall e rel r t,
  walk (prune_ineligible e) rel r t = walk e rel r t.
Proof.
  apply (entry_ind' (fun e => forall rel r t,
           walk (prune_ineligible e) rel r t = walk e rel r t)); [reflexivity|].
  intros n cs IH rel r t. rewrite prune_ineligible_dir. cbn [walk].
  rewrite has_readme_prune. destruct (has_readme cs) as [rd|]; [|reflexivity].
  match goal with
  | |- context [walk_loop ?f1 r ?sl (map _ _) ([], [])] =>
      assert (Hl : forall st, walk_loop f1 r sl (map prune_ineligible (filter walk_keeps cs)) st
                      = walk_loop f1 r sl cs st)
  end.
  { induction cs as [|x cs IHc]; intros st; simpl; [reflexivity|].
    inversion IH as [|x' cs' IHx IHcs]; subst.
    destruct (walk_keeps x) eqn:Kx; simpl.
    - rewrite IHc by exact IHcs. f_equal.
      rewrite prune_name. apply walk_entry_keeps; [exact Kx|].
      intros _ _. symmetry. apply IHx.
    - rewrite walk_entry_skips by exact Kx. apply IHc. exact IHcs. }
  rewrite Hl. reflexivity.
Qed.

(* ------------------------------------------------------------------ *)
(** ** C1: pruning *)

(** Claim C1 (code bug): a directory with no README that is not named
    "graphics" should contribute no node; the module docstring exempts
    only directories "named exactly" graphics. But [is_graphics_dir]
    compares the lowercased name, so a directory "Graphics" with an image
    and no README yields the node [root-graphics], and removing it changes
    the manifest. *)
Lemma capital_graphics_dir_not_pruned :
  has_readme [EFile (lit "photo.png")] = None /\
  lit "Graphics" <> lit "graphics" /\
  In (lit "root-graphics") (item_ids (generate_manifest vault_capital_graphics (lit "Digi Garden"))) /\
  generate_manifest vault_capital_graphics (lit "Digi Garden")
    <> generate_manifest vault_root_readme_only (lit "Digi Garden").
Proof.
  split; [reflexivity|]. split; [discriminate|]. split.
  - vm_compute. left. reflexivity.
  - vm_compute. discriminate.
Qed.

(** Removing, at every depth below the root, each directory that has no
    case-insensitive README.md and whose lowercased name is not
    "graphics", together with its whole subtree, leaves the manifest
    unchanged: such a directory and everything under it (eligible
    descendants included) contribute zero nodes. *)
Theorem manifest_ignores_ineligible_subtrees : forall vault title,
  generate_manifest (prune_ineligible vault) title = generate_manifest vault title.
Proof.
  intros [n|n cs] title; [reflexivity|].
  assert (H : walk_directory (prune_ineligible (EDir n cs)) [] true (Some title)
              = walk_directory (EDir n cs) [] true (Some title)).
  { unfold walk_directory. rewrite <- prune_sort_tree. apply walk_prune. }
  rewrite prune_ineligible_dir in *. unfold generate_manifest. rewrite H. reflexivity.
Qed.

(* ------------------------------------------------------------------ *)
(** ** C2: file id collisions *)

(** C2: for "Foo!.md" and "foo.md" in the vault root both stems slugify to
    "foo"; the second file's regenerated id [slugify("foo") + "-file"] is
    again "foo-file", so it overwrites the first file's node: the manifest
    holds a single file node, listed twice among the root's children.
    Files "a/x.md" and "b/x.md" in two directories likewise share the id
    "x-file" and the second replaces the first. *)
Theorem file_id_collision_overwrites :
  generate_manifest vault_foo_collision (lit "Digi Garden") =
    Some {| rootId := lit "root-dir";
            items := [(lit "foo-file",
                       NFile (lit "foo-file") (lit "Foo") (lit "foo") (lit "/foo.html"));
                      (lit "root-dir",
                       NDir (lit "root-dir") (lit "Digi Garden") (lit "root")
                            (lit "/readme.html") [lit "foo-file"; lit "foo-file"])] |} /\
  item_ids (generate_manifest vault_cross_dir (lit "Digi Garden")) =
    [lit "x-file"; lit "a-dir"; lit "b-dir"; lit "root-dir"].
Proof. split; vm_compute; reflexivity. Qed.

(* ------------------------------------------------------------------ *)
(** ** Dictionaries *)

Lemma dict_get_set : forall V k k' (v : V) d,
  dict_get k (dict_set k' v d) = if str_eqb k k' then Some v else dict_get k d.
Proof.
  intros V k k' v d. induction d as [|[k1 v1] r IH]; simpl.
  - reflexivity.
  - destruct (str_eqb k' k1) eqn:E1.
    + apply str_eqb_eq in E1; subst. simpl. destruct (str_eqb k k1); reflexivity.
    + simpl. destruct (str_eqb k k1) eqn:E2; [|exact IH].
      destruct (str_eqb k k') eqn:E3; [|reflexivity].
      apply str_eqb_eq in E2; apply str_eqb_eq in E3; subst.
      rewrite (proj2 (str_eqb_eq k1 k1) eq_refl) in E1. discriminate.
Qed.

(* ------------------------------------------------------------------ *)
(** ** Wiki links *)

Lemma split_once_none : forall c s, mem_char c s = false -> split_once c s = None.
Proof.
  intros c s; induction s as [|x r IH]; simpl; [reflexivity|].
  intro H. apply orb_false_iff in H as [H1 H2].
  rewrite Z.eqb_sym, H1, (IH H2). reflexivity.
Qed.

Lemma split_once_trailing : forall c s, mem_char c s = false ->
  split_once c (s ++ [c]) = Some (s, []).
Proof.
  intros c s; induction s as [|x r IH]; simpl.
  - rewrite Z.eqb_refl. reflexivity.
  - intro H. apply orb_false_iff in H as [H1 H2].
    rewrite Z.eqb_sym, H1, (IH H2). reflexivity.
Qed.

Lemma resolve_wiki_link_candidates : forall target ti si,
  resolve_wiki_link target ti si = resolve_by_candidates target ti si.
Proof.
  intros target ti si. unfold resolve_wiki_link, resolve_by_candidates, split_display,
    link_candidates.
  destruct (split_once ch_pipe target) as [[a b]|]; cbn [first_hit];
  destruct (dict_get _ si); try reflexivity;
  destruct (dict_get _ ti) as [[|n [|m l]]|]; cbn [first_hit]; try reflexivity;
  destruct (dict_get _ si); reflexivity.
Qed.

(** Claim C3 (counterexample): with the indexes of a real manifest, the
    target "Nowhere|" (an empty override) is displayed as "Nowhere", not as
    the empty override, and the unresolved target " Nowhere" is displayed
    trimmed, not raw. *)
Lemma wiki_link_override_counterexample :
  let ti := build_title_index readme_only_items in
  let si := build_slug_index readme_only_items in
  resolve_wiki_link (lit "Nowhere|") ti si = (lit "#", lit "Nowhere") /\
  resolve_as_worded (lit "Nowhere|") ti si = (lit "#", []) /\
  resolve_wiki_link (lit " Nowhere") ti si = (lit "#", lit "Nowhere") /\
  resolve_as_worded (lit " Nowhere") ti si = (lit "#", lit " Nowhere").
Proof. repeat split; vm_compute; reflexivity. Qed.

(** Claim C3 (amended): for every target and all indexes,
    [resolve_wiki_link] splits an optional display override off at the
    first '|', trims the target part, and returns the first hit among
    (1) the slug index at the trimmed target with spaces as hyphens,
    lowercased, (2) the title index at the lowercased trimmed target when
    exactly one node bears it, (3) the slug index at its [slugify]; a hit
    gives the node's content_path and the override if non-empty, else the
    node's title; no hit gives '#' and the override if non-empty, else the
    trimmed target. The function is total. *)
Theorem wiki_link_resolution_order : forall target ti si,
  resolve_wiki_link target ti si = resolve_by_candidates target ti si.
Proof. intros target ti si. exact (resolve_wiki_link_candidates target ti si). Qed.

(** Claim C10: for a target "x|" (x without a pipe, empty display text),
    the display is the resolved node's title on a hit and the (trimmed)
    pre-pipe text on fallback; the empty override is ignored. *)
Theorem wiki_link_empty_override_ignored : forall x ti si,
  mem_char ch_pipe x = false ->
  resolve_wiki_link (x ++ [ch_pipe]) ti si =
  match first_hit (link_candidates (py_strip x) ti si) with
  | Some n => (node_content_path n, node_title n)
  | None => (lit "#", py_strip x)
  end.
Proof.
  intros x ti si H. rewrite resolve_wiki_link_candidates.
  unfold resolve_by_candidates, split_display. rewrite (split_once_trailing ch_pipe x H).
  destruct (first_hit _); reflexivity.
Qed.

Lemma wiki_link_empty_override_ignored_witness :
  mem_char ch_pipe (lit "Digi Garden") = false /\
  resolve_wiki_link (lit "Digi Garden|") (build_title_index readme_only_items)
    (build_slug_index readme_only_items) =
  match first_hit (link_candidates (py_strip (lit "Digi Garden"))
                     (build_title_index readme_only_items)
                     (build_slug_index readme_only_items)) with
  | Some n => (node_content_path n, node_title n)
  | None => (lit "#", py_strip (lit "Digi Garden"))
  end.
Proof.
  split; [vm_compute; reflexivity|].
  apply (wiki_link_empty_override_ignored (lit "Digi Garden")). vm_compute. reflexivity.
Defined.

(* ------------------------------------------------------------------ *)
(** ** Image embeds *)

Lemma split_on_not_nil : forall c s, split_on c s <> [].
Proof.
  intros c s; destruct s as [|x r]; simpl; [discriminate|].
  destruct (x =? c); [discriminate|]. destruct (split_on c r); discriminate.
Qed.

Lemma split_on_no_sep : forall c s, rfind c s = None -> split_on c s = [s].
Proof.
  intros c s; induction s as [|x r IH]; simpl; [reflexivity|].
  destruct (rfind c r); [discriminate|]. rewrite (IH eq_refl).
  destruct (x =? c); [discriminate|reflexivity].
Qed.

Lemma split_on_sep : forall c s i, rfind c s = Some i ->
  exists p ps, split_on c s = p :: ps /\ ps <> [].
Proof.
  intros c s; induction s as [|x r IH]; simpl; intros i H; [discriminate|].
  destruct (rfind c r) as [j|] eqn:E.
  - destruct (IH j eq_refl) as (p & ps & Hs & Hne). rewrite Hs.
    destruct (x =? c).
    + exists [], (p :: ps). split; [reflexivity|discriminate].
    + exists (x :: p), ps. split; [reflexivity|exact Hne].
  - destruct (x =? c); [|discriminate].
    exists [], (split_on c r). split; [reflexivity|apply split_on_not_nil].
Qed.

Lemma rsplit_last_split_on : forall c s,
  rsplit_last c s = last (split_on c s) [].
Proof.
  intros c s; unfold rsplit_last. induction s as [|x r IH]; simpl; [reflexivity|].
  destruct (rfind c r) as [j|] eqn:E.
  - change (skipn (S j) r = last (split_on c (x :: r)) []). rewrite IH. simpl split_on.
    destruct (split_on_sep c r j E) as (p & ps & Hs & Hne). rewrite Hs.
    destruct (x =? c).
    + reflexivity.
    + destruct ps; [contradiction|reflexivity].
  - rewrite (split_on_no_sep c r E). destruct (x =? c); reflexivity.
Qed.

Lemma split_on_no_mem : forall c s, mem_char c s = false -> split_on c s = [s].
Proof.
  intros c s; induction s as [|x r IH]; simpl; [reflexivity|].
  intro H. apply orb_false_iff in H as [H1 H2]. rewrite (IH H2), Z.eqb_sym, H1. reflexivity.
Qed.

(** The basename taken by [resolve_image_embed] is the last '/'-separated
    segment. *)
Lemma embed_basename : forall s,
  (if mem_char ch_slash s then rsplit_last ch_slash s else s) = last (split_on ch_slash s) [].
Proof.
  intro s. destruct (mem_char ch_slash s) eqn:M.
  - apply rsplit_last_split_on.
  - rewrite (split_on_no_mem _ _ M). reflexivity.
Qed.

Lemma add_assets_sound : forall (cp : pystr) assets (index : dict pystr) a p,
  dict_get a (fold_left (fun index a => dict_set a cp index) assets index) = Some p ->
  dict_get a index = Some p \/ (p = cp /\ In a assets).
Proof.
  intros cp assets; induction assets as [|b bs IH]; simpl; intros index a p H; [left; exact H|].
  destruct (IH _ _ _ H) as [H'|[Hp Hin]]; [|right; split; [exact Hp|right; exact Hin]].
  rewrite dict_get_set in H'. destruct (str_eqb a b) eqn:E.
  - apply str_eqb_eq in E. injection H' as <-. right. split; [reflexivity|left; symmetry; exact E].
  - left. exact H'.
Qed.

Lemma asset_index_sound : forall vals index a p,
  dict_get a (fold_left add_node_assets vals index) = Some p ->
  dict_get a index = Some p \/
  exists i slug assets, In (NGraphics i slug p assets) vals /\ In a assets.
Proof.
  intro vals; induction vals as [|n ns IH]; simpl; intros index a p H; [left; exact H|].
  destruct (IH _ _ _ H) as [H'|(i & sl & assets & Hin & Ha)];
    [|right; exists i, sl, assets; split; [right; exact Hin|exact Ha]].
  destruct n as [i t sl cp cs|i t sl cp|i sl cp assets]; simpl in H'; try (left; exact H').
  destruct (add_assets_sound _ _ _ _ _ H') as [H''|[-> Hin]]; [left; exact H''|].
  right. exists i, sl, assets. split; [left; reflexivity|exact Hin].
Qed.

(** Claim C7: [resolve_image_embed] always returns a path. It takes the
    basename (the last '/'-separated segment of the trimmed filename) and
    looks it up in the asset index. On a hit it returns the stored prefix
    plus the basename, and that prefix is the content_path of a graphics
    node of the manifest listing the basename among its assets. On a miss
    it returns "/graphics/" plus the basename. *)
Theorem image_embed_total : forall filename items,
  let basename := last (split_on ch_slash (py_strip filename)) [] in
  resolve_image_embed filename (build_asset_index items) =
    match dict_get basename (build_asset_index items) with
    | Some prefix => prefix ++ basename
    | None => lit "/graphics/" ++ basename
    end /\
  (forall prefix, dict_get basename (build_asset_index items) = Some prefix ->
   exists i slug assets,
     In (NGraphics i slug prefix assets) (dict_values items) /\ In basename assets).
Proof.
  intros filename items basename. split.
  - unfold resolve_image_embed. subst basename. rewrite embed_basename. reflexivity.
  - intros prefix H. unfold build_asset_index in H.
    destruct (asset_index_sound _ _ _ _ H) as [H'|H']; [discriminate|exact H'].
Qed.

(* ------------------------------------------------------------------ *)
(** ** Graphics directories *)

Lemma collect_assets_nil : forall cs, collect_assets cs = [] <-> has_image_asset cs = false.
Proof.
  intro cs. unfold collect_assets, has_image_asset.
  rewrite <- (existsb_perm _ _ _ (sort_by_perm (fun a b => str_leb (entry_name a) (entry_name b)) cs)).
  generalize (sort_by (fun a b => str_leb (entry_name a) (entry_name b)) cs) as l.
  intro l; induction l as [|e l IH]; simpl; [split; reflexivity|].
  destruct (entry_is_file e && _); simpl; [split; discriminate|exact IH].
Qed.

Lemma graphics_not_ignored : forall name cs,
  py_lower name = lit "graphics" -> should_ignore (EDir name cs) = false.
Proof.
  intros name cs H. unfold should_ignore, str_in, IGNORE_FILES, IGNORE_DIRS. simpl.
  destruct (str_eqb name (lit ".DS_Store")) eqn:E1;
    [apply str_eqb_eq in E1; subst; vm_compute in H; discriminate|].
  destruct (str_eqb name (lit ".obsidian")) eqn:E2;
    [apply str_eqb_eq in E2; subst; vm_compute in H; discriminate|].
  destruct (str_eqb name (lit ".excalidraw")) eqn:E3;
    [apply str_eqb_eq in E3; subst; vm_compute in H; discriminate|].
  reflexivity.
Qed.

Lemma walk_no_readme : forall name cs rel is_root t,
  has_readme cs = None -> walk (EDir name cs) rel is_root t = None.
Proof. intros name cs rel is_root t H. simpl. rewrite H. reflexivity. Qed.

(** Claim C8 (code bug): only a directory named exactly "graphics" should
    be exempt from the README rule, as the module docstring says. But
    [is_graphics_dir] lowercases the name: a directory "GRAPHICS" with one
    image "Photo.PNG" and no README yields a graphics node in the
    manifest. *)
Lemma upper_graphics_dir_exempted :
  lit "GRAPHICS" <> lit "graphics" /\
  dict_get (lit "root-graphics")
    (manifest_items (generate_manifest vault_upper_graphics (lit "Digi Garden"))) =
  Some (NGraphics (lit "root-graphics") (lit "graphics") (lit "/graphics/") [lit "Photo.PNG"]).
Proof. split; [discriminate|vm_compute; reflexivity]. Qed.

(** A subdirectory whose lowercased name is "graphics"
    is handled without a README and without recursing into it: when it
    holds at least one file whose lowercased suffix is a recognised image
    extension, exactly one graphics node (its sorted image names as
    assets) is added and its id appended to the children; otherwise the
    state is left unchanged, with no error. Any other directory without a
    README contributes nothing. *)
Theorem graphics_dir_exemption :
  (forall (is_root : bool) (dir_slug : pystr) xname xcs sub st,
   py_lower xname = lit "graphics" ->
   let g_slug := if is_root then lit "graphics" else dir_slug ++ lit "/graphics" in
   let g_id := make_id g_slug TGraphics in
   walk_entry is_root dir_slug (EDir xname xcs) sub st =
   if has_image_asset xcs
   then (dict_set g_id (NGraphics g_id g_slug (lit "/" ++ g_slug ++ lit "/") (collect_assets xcs))
           (fst st), snd st ++ [g_id])
   else st) /\
  (forall is_root dir_slug xname xcs rel t st,
   py_lower xname <> lit "graphics" -> has_readme xcs = None ->
   walk_entry is_root dir_slug (EDir xname xcs) (walk (EDir xname xcs) rel false t) st = st).
Proof.
  split.
  - intros is_root dir_slug xname xcs sub [all_nodes ids] H g_slug g_id.
    unfold walk_entry. rewrite (graphics_not_ignored xname xcs H).
    assert (G : is_graphics_dir xname = true) by (unfold is_graphics_dir; rewrite H; reflexivity).
    rewrite G. destruct (has_image_asset xcs) eqn:Hi.
    + destruct (collect_assets xcs) as [|a l] eqn:C.
      * apply collect_assets_nil in C. congruence.
      * reflexivity.
    + apply collect_assets_nil in Hi. rewrite Hi. reflexivity.
  - intros is_root dir_slug xname xcs rel t [all_nodes ids] H Hr.
    rewrite (walk_no_readme xname xcs rel false t Hr). unfold walk_entry.
    destruct (should_ignore _); [reflexivity|].
    assert (G : is_graphics_dir xname = false).
    { unfold is_graphics_dir. destruct (str_eqb _ _) eqn:E; [|reflexivity].
      apply str_eqb_eq in E. contradiction. }
    rewrite G. reflexivity.
Qed.

Lemma graphics_dir_exemption_witness :
  py_lower (lit "Graphics") = lit "graphics" /\
  walk_entry true (lit "root") (EDir (lit "Graphics") [EFile (lit "a.png")]) None ([], []) =
  (if has_image_asset [EFile (lit "a.png")]
   then (dict_set (make_id (lit "graphics") TGraphics)
           (NGraphics (make_id (lit "graphics") TGraphics) (lit "graphics")
              (lit "/" ++ lit "graphics" ++ lit "/") (collect_assets [EFile (lit "a.png")]))
           (fst (@nil (pystr * node), @nil pystr)), snd (@nil (pystr * node), @nil pystr) ++ [make_id (lit "graphics") TGraphics])
   else ([], [])) /\
  lit "notes" <> lit "graphics" /\ has_readme [EFile (lit "a.md")] = None /\
  walk_entry false (lit "root") (EDir (lit "notes") [EFile (lit "a.md")])
    (walk (EDir (lit "notes") [EFile (lit "a.md")]) [lit "notes"] false None) ([], []) = ([], []).
Proof.
  split; [reflexivity|]. split.
  { apply (proj1 graphics_dir_exemption true (lit "root") (lit "Graphics") [EFile (lit "a.png")]
             None ([], [])). reflexivity. }
  split; [discriminate|]. split; [reflexivity|].
  apply (proj2 graphics_dir_exemption false (lit "root") (lit "notes") [EFile (lit "a.md")]
           [lit "notes"] None ([], [])); [discriminate|reflexivity].
Defined.

Lemma image_embed_total_witness :
  resolve_image_embed (lit "missing.png") (build_asset_index readme_only_items) =
  lit "/graphics/missing.png".
Proof.
  destruct (image_embed_total (lit "missing.png") readme_only_items) as [H _].
  rewrite H. vm_compute. reflexivity.
Defined.

(* ------------------------------------------------------------------ *)
(** ** Sanitization *)

(** What the sanitizing pass does when it is called: the spec's examples
    are handled, but a closing tag with a space or an unquoted handler is
    left in place. *)
Lemma sanitize_examples :
  sanitize (lit "<script>alert(1)</script>" ++ [ch_nl]) = [ch_nl] /\
  sanitize (lit "<p onclick=" ++ [ch_dquote] ++ lit "go()" ++ [ch_dquote] ++ lit ">t</p>") =
    lit "<p>t</p>" /\
  (exists h, block_code (lit "<script>" ++ [ch_nl]) None = Some h /\ sanitize h = h /\
             exists a b, h = a ++ lit "<pre><code>&lt;script&gt;" ++ b) /\
  sanitize (lit "<script>alert(1)</script >") = lit "<script>alert(1)</script >" /\
  sanitize (lit "<img src=x onerror=alert(1)>") = lit "<img src=x onerror=alert(1)>".
Proof.
  split; [vm_compute; reflexivity|]. split; [vm_compute; reflexivity|]. split.
  - eexists. split; [vm_compute; reflexivity|]. split; [vm_compute; reflexivity|].
    exists (lit "<div class=" ++ [ch_dquote] ++ lit "code-block" ++ [ch_dquote] ++ lit ">" ++
            lit "<button class=" ++ [ch_dquote] ++ lit "copy-btn" ++ [ch_dquote] ++
            lit " aria-label=" ++ [ch_dquote] ++ lit "Copy code" ++ [ch_dquote] ++
            lit ">Copy</button>"),
           ([ch_nl] ++ lit "</code></pre></div>" ++ [ch_nl]).
    vm_compute. reflexivity.
  - split; vm_compute; reflexivity.
Qed.

(** A page made of the raw block "<script>alert(1)</script>" keeps it. *)
Lemma raw_script_page :
  render_page (create_parser raw_html_block_render) (lit "<script>alert(1)</script>") =
    lit "<script>alert(1)</script>" ++ [ch_nl; ch_nl] /\
  py_call_attr (create_parser raw_html_block_render) (lit "<script>alert(1)</script>") =
    [ch_nl; ch_nl].
Proof. split; vm_compute; reflexivity. Qed.

(** Claim C5: the sanitizer is bound as an instance attribute [__call__]
    but pages are rendered with [md(content)], which calls the class's
    [__call__]: every page is the unsanitized render, whatever the
    renderer; only an explicit [md.__call__(content)] would sanitize. *)
Theorem sanitizer_bypassed : forall render,
  (forall content, render_page (create_parser render) content = render content) /\
  (forall content, py_call_attr (create_parser render) content = sanitize (render content)).
Proof. intro render. split; intro content; reflexivity. Qed.

(* ------------------------------------------------------------------ *)
(** ** Heading anchors *)

(** Claim C6: within one document two "Intro" headings get the ids
    "intro" and "intro-1"; but [parse_vault] renders all pages with one
    counter, so with two notes each holding a heading "Intro" the second
    note's heading gets "intro-1", where per-document scoping gives
    "intro" to both. *)
Theorem heading_counter_shared_across_documents :
  fst (render_headings [] [(lit "Intro", 2); (lit "Intro", 2)]) =
    [heading_html (lit "intro") (lit "Intro") 2; heading_html (lit "intro-1") (lit "Intro") 2] /\
  parse_vault_headings
    (manifest_items (generate_manifest vault_two_notes (lit "Digi Garden"))) intro_source =
    [(lit "/a.html", [heading_html (lit "intro") (lit "Intro") 2]);
     (lit "/b.html", [heading_html (lit "intro-1") (lit "Intro") 2]);
     (lit "/readme.html", [])] /\
  parse_vault_headings_scoped
    (manifest_items (generate_manifest vault_two_notes (lit "Digi Garden"))) intro_source =
    [(lit "/a.html", [heading_html (lit "intro") (lit "Intro") 2]);
     (lit "/b.html", [heading_html (lit "intro") (lit "Intro") 2]);
     (lit "/readme.html", [])].
Proof. split; [|split]; vm_compute; reflexivity. Qed.

(* ------------------------------------------------------------------ *)
(** ** Front matter *)

Lemma frontmatter_match_needs_dashes : forall text,
  strip_prefix (lit "---") text = None -> frontmatter_match text = None.
Proof. intros text H. unfold frontmatter_match. rewrite H. reflexivity. Qed.

(** Claim C9: whatever [yaml.safe_load] does, [extract_frontmatter]
    returns [({}, text)] when the text has no leading front-matter block
    (in particular when it does not start with "---"), when the YAML raises
    [yaml.YAMLError], and when it loads to a non-dict value; a body other
    than the text is returned only when the block matched and its YAML
    loaded to a dict, the metadata being that dict normalised. (An
    exception of another class raised by [yaml.safe_load] propagates.) *)
Theorem frontmatter_atomic : forall safe_load text,
  (frontmatter_match text = None -> extract_frontmatter safe_load text = inl ([], text)) /\
  (strip_prefix (lit "---") text = None -> extract_frontmatter safe_load text = inl ([], text)) /\
  (forall raw body, frontmatter_match text = Some (raw, body) -> safe_load raw = YYAMLError ->
   extract_frontmatter safe_load text = inl ([], text)) /\
  (forall raw body v, frontmatter_match text = Some (raw, body) -> safe_load raw = YLoaded v ->
   (forall d, v <> YDict d) -> extract_frontmatter safe_load text = inl ([], text)) /\
  (forall metadata body, extract_frontmatter safe_load text = inl (metadata, body) ->
   body <> text ->
   exists raw d, frontmatter_match text = Some (raw, body) /\
                 safe_load raw = YLoaded (YDict d) /\ metadata = normalise_values d).
Proof.
  intros safe_load text. unfold extract_frontmatter.
  split; [intro H; rewrite H; reflexivity|].
  split; [intro H; rewrite (frontmatter_match_needs_dashes text H); reflexivity|].
  split; [intros raw body H HY; rewrite H, HY; reflexivity|].
  split.
  - intros raw body v H HY Hv. rewrite H, HY.
    destruct v; try reflexivity. exfalso. exact (Hv d eq_refl).
  - intros metadata body H Hne.
    destruct (frontmatter_match text) as [[raw b]|] eqn:HM; [|injection H as _ <-; contradiction].
    destruct (safe_load raw) as [v| |exc] eqn:HY; [|injection H as _ <-; contradiction|discriminate].
    destruct v; try (injection H as _ <-; contradiction).
    injection H as <- <-. exists raw, d. split; [reflexivity|]. split; [exact HY|reflexivity].
Qed.

(** [safe_load] raising [yaml.YAMLError] on an unclosed flow sequence. *)
Definition unclosed_flow_load (raw : pystr) : yaml_outcome :=
  if str_eqb raw (lit "tags: [a" ++ [ch_nl]) then YYAMLError else YLoaded (YStr raw).

Lemma frontmatter_atomic_witness :
  frontmatter_match (lit "---" ++ [ch_nl] ++ lit "tags: [a" ++ [ch_nl] ++ lit "---" ++ [ch_nl] ++
                     lit "body") = Some (lit "tags: [a" ++ [ch_nl], lit "body") /\
  unclosed_flow_load (lit "tags: [a" ++ [ch_nl]) = YYAMLError /\
  extract_frontmatter unclosed_flow_load
    (lit "---" ++ [ch_nl] ++ lit "tags: [a" ++ [ch_nl] ++ lit "---" ++ [ch_nl] ++ lit "body") =
  inl ([], lit "---" ++ [ch_nl] ++ lit "tags: [a" ++ [ch_nl] ++ lit "---" ++ [ch_nl] ++ lit "body").
Proof.
  split; [vm_compute; reflexivity|]. split; [vm_compute; reflexivity|].
  apply (proj1 (proj2 (proj2 (frontmatter_atomic unclosed_flow_load
    (lit "---" ++ [ch_nl] ++ lit "tags: [a" ++ [ch_nl] ++ lit "---" ++ [ch_nl] ++ lit "body"))))
    (lit "tags: [a" ++ [ch_nl]) (lit "body")); vm_compute; reflexivity.
Defined.

(* ================================================================== *)
(** * Further properties of the code *)

(* ------------------------------------------------------------------ *)
(** ** Slugs *)

(** [slugify] always yields a URL-safe slug: only [a-z], [0-9], '-' and
    '/', no "--", and no leading or trailing '-'. *)
Theorem slugify_url_safe : forall text, slug_shaped (slugify text).
Proof. intro text. apply slugify_with_shaped. Qed.

Lemma collapse_runs_out : forall p b s,
  Forall (fun c => p c = false \/ c = ch_hyphen) (collapse_runs p b s).
Proof.
  intros p b s. revert b. induction s as [|c s IH]; intros b; simpl; [constructor|].
  destruct (p c) eqn:Hc; [destruct b; [apply IH|constructor; [right; reflexivity|apply IH]]|].
  constructor; [left; exact Hc|apply IH].
Qed.

Lemma Forall_lstrip_by : forall (P : Z -> Prop) p s, Forall P s -> Forall P (lstrip_by p s).
Proof.
  intros P p s H. destruct (lstrip_by_suffix p s) as [pre E].
  rewrite E in H. apply Forall_app in H. exact (proj2 H).
Qed.

Lemma Forall_strip_by : forall (P : Z -> Prop) p s, Forall P s -> Forall P (strip_by p s).
Proof.
  intros P p s H. unfold strip_by. apply Forall_rev, Forall_lstrip_by, Forall_rev, Forall_lstrip_by.
  exact H.
Qed.

Lemma strip_hyphen_fix : forall y,
  (forall r, y <> ch_hyphen :: r) -> (forall r, y <> r ++ [ch_hyphen]) ->
  strip_by is_hyphen y = y.
Proof.
  intros y Hh Ht. unfold strip_by. rewrite (lstrip_by_head_id is_hyphen y).
  - rewrite (lstrip_by_head_id is_hyphen (rev y)); [apply rev_involutive|].
    intros c r E. apply Z.eqb_neq. intro Ec. subst c. apply (Ht (rev r)).
    rewrite <- (rev_involutive y), E. reflexivity.
  - intros c r E. apply Z.eqb_neq. intro Ec. subst c. exact (Hh r E).
Qed.

Lemma heading_char_slug_char : forall c, is_slug_heading_char c = true -> slug_char c = true.
Proof.
  intros c H. unfold is_slug_heading_char, slug_char in *.
  rewrite !orb_true_iff in *. tauto.
Qed.

Definition heading_slug_shaped (s : pystr) : Prop :=
  Forall (fun c => is_slug_heading_char c = true) s /\ no_double_hyphen s /\
  (forall r, s <> ch_hyphen :: r) /\ (forall r, s <> r ++ [ch_hyphen]).

Lemma slugify_heading_shaped_aux : forall t,
  heading_slug_shaped
    (strip_by is_hyphen (collapse_runs is_hyphen false
       (collapse_runs (fun c => negb (is_slug_heading_char c)) false t))).
Proof.
  intro t.
  set (t3 := collapse_runs (fun c => negb (is_slug_heading_char c)) false t).
  assert (H3 : Forall (fun c => is_slug_heading_char c = true) t3).
  { eapply Forall_impl; [|apply collapse_runs_out]. intros c [Hc|Hc].
    - destruct (is_slug_heading_char c); [reflexivity|discriminate].
    - subst c. reflexivity. }
  set (t4 := collapse_runs is_hyphen false t3).
  assert (H4 : Forall (fun c => is_slug_heading_char c = true) t4)
    by (apply collapse_runs_Forall; [exact H3|reflexivity]).
  assert (Hn : no_double_hyphen t4) by apply (collapse_hyphen_shape t3 false).
  destruct (strip_hyphen_shape t4) as [_ [Hn' [Hh Ht]]];
    [eapply Forall_impl; [|exact H4]; apply heading_char_slug_char|exact Hn|].
  split; [|split; [exact Hn'|split; assumption]].
  apply Forall_strip_by. exact H4.
Qed.

Lemma sub_all_tag_id : forall n s,
  (length s < n)%nat -> Forall (fun c => is_slug_heading_char c = true) s ->
  sub_all n match_tag s = s.
Proof.
  induction n as [|n IH]; intros s Hl Hs; [lia|].
  destruct Hs as [|c s Hc Hs]; [reflexivity|].
  assert (Hm : match_tag (c :: s) = None).
  { unfold match_tag. destruct s as [|d r]; [reflexivity|].
    replace (c =? ch_lt) with false; [reflexivity|].
    symmetry. apply Z.eqb_neq. intro E. subst c. discriminate. }
  cbn [sub_all]. rewrite Hm. f_equal. apply IH; [simpl in Hl; lia|exact Hs].
Qed.

(** [slugify_heading] yields anchor ids made of [a-z], [0-9] and '-' only,
    with no "--" and no leading or trailing '-', and it is idempotent. *)
Theorem slugify_heading_shape : forall text,
  heading_slug_shaped (slugify_heading text) /\
  slugify_heading (slugify_heading text) = slugify_heading text.
Proof.
  intro text.
  assert (Hs : heading_slug_shaped (slugify_heading text)) by apply slugify_heading_shaped_aux.
  split; [exact Hs|].
  destruct Hs as [Hf [Hn [Hh Ht]]].
  set (y := slugify_heading text) in *.
  unfold slugify_heading at 1. unfold re_sub_empty.
  rewrite (sub_all_tag_id (S (length y)) y) by (lia || exact Hf).
  rewrite py_lower_slug_chars by (eapply Forall_impl; [|exact Hf]; apply heading_char_slug_char).
  rewrite (collapse_runs_id (fun c => negb (is_slug_heading_char c)) false y)
    by (eapply Forall_impl; [|exact Hf]; intros c Hc; rewrite Hc; reflexivity).
  rewrite (collapse_hyphen_id y false) by (assumption || discriminate).
  apply strip_hyphen_fix; assumption.
Qed.

(* ------------------------------------------------------------------ *)
(** ** The manifest produced by the walker *)

(** The shape of one manifest node: its id ends with the suffix of its
    kind, its content path is derived from its slug, and a graphics node
    lists at least one asset, each with an image extension. *)
Definition node_ok (n : node) : Prop :=
  match n with
  | NDir id _ slug cp _ =>
      (exists b, id = b ++ lit "-dir") /\
      (cp = lit "/readme.html" \/ cp = lit "/" ++ slug ++ lit "/README.html")
  | NFile id _ slug cp =>
      (exists b, id = b ++ lit "-file") /\ cp = lit "/" ++ slug ++ lit ".html"
  | NGraphics id slug cp assets =>
      (exists b, id = b ++ lit "-graphics") /\ cp = lit "/" ++ slug ++ lit "/" /\
      assets <> [] /\
      Forall (fun a => str_in (py_lower (path_suffix a)) IMAGE_EXTENSIONS = true) assets
  end.

(** A well-formed [all_nodes] dict: keys are unique, each key is the id of
    its node, and every child id of a directory node is a key. *)
Definition dict_ok (d : dict node) : Prop :=
  NoDup (map fst d) /\
  forall k v, In (k, v) d ->
    node_id v = k /\ node_ok v /\ incl (node_children v) (map fst d).

Lemma dict_set_in : forall V k (v : V) d p, In p (dict_set k v d) -> p = (k, v) \/ In p d.
Proof.
  intros V k v d p. induction d as [|[k1 v1] r IH]; simpl; intros H.
  - destruct H as [H|[]]. left. symmetry. exact H.
  - destruct (str_eqb k k1) eqn:E.
    + apply str_eqb_eq in E. subst k1. destruct H as [H|H]; [left; symmetry; exact H|].
      right; right; exact H.
    + destruct H as [H|H]; [right; left; exact H|]. destruct (IH H); auto.
Qed.

Lemma dict_set_keys : forall V k (v : V) d,
  (map fst (dict_set k v d) = map fst d /\ In k (map fst d)) \/
  (map fst (dict_set k v d) = map fst d ++ [k] /\ ~ In k (map fst d)).
Proof.
  intros V k v d. induction d as [|[k1 v1] r IH]; simpl.
  - right. split; [reflexivity|tauto].
  - destruct (str_eqb k k1) eqn:E.
    + apply str_eqb_eq in E. subst k1. left. simpl. split; [reflexivity|left; reflexivity].
    + assert (k1 <> k) by (intro F; subst; rewrite (proj2 (str_eqb_eq k k) eq_refl) in E;
                           discriminate).
      simpl. destruct IH as [[E1 I1]|[E1 I1]]; rewrite E1; [left|right]; split; auto.
      intros [F|F]; auto.
Qed.

Lemma dict_set_incl : forall V k (v : V) d, incl (k :: map fst d) (map fst (dict_set k v d)).
Proof.
  intros V k v d x Hx. destruct (dict_set_keys V k v d) as [[E I]|[E I]]; rewrite E;
    destruct Hx as [Hx|Hx]; subst; auto; apply in_or_app; [right; left; reflexivity|left; exact Hx].
Qed.

Lemma dict_set_nodup : forall V k (v : V) d,
  NoDup (map fst d) -> NoDup (map fst (dict_set k v d)).
Proof.
  intros V k v d H. destruct (dict_set_keys V k v d) as [[E I]|[E I]]; rewrite E; [exact H|].
  apply NoDup_app; auto using NoDup_cons, NoDup_nil.
  - intros x Hx [Hy|[]]. subst. contradiction.
Qed.

Lemma dict_update_in : forall V (d s : dict V) p,
  In p (dict_update d s) -> In p d \/ In p s.
Proof.
  intros V d s. unfold dict_update. revert d.
  induction s as [|[k v] s IH]; simpl; intros d p H; [left; exact H|].
  destruct (IH _ _ H) as [H1|H1]; [|right; right; exact H1].
  destruct (dict_set_in _ _ _ _ _ H1) as [H2|H2]; [right; left; symmetry; exact H2|left; exact H2].
Qed.

Lemma dict_update_incl : forall V (d s : dict V),
  incl (map fst d ++ map fst s) (map fst (dict_update d s)).
Proof.
  intros V d s. unfold dict_update. revert d.
  induction s as [|[k v] s IH]; simpl; intros d x Hx.
  - rewrite app_nil_r in Hx. exact Hx.
  - apply IH. apply in_app_or in Hx. destruct Hx as [Hx|[Hx|Hx]].
    + apply in_or_app. left. apply dict_set_incl. right. exact Hx.
    + apply in_or_app. left. apply dict_set_incl. left. exact Hx.
    + apply in_or_app. right. exact Hx.
Qed.

Lemma dict_update_nodup : forall V (d s : dict V),
  NoDup (map fst d) -> NoDup (map fst (dict_update d s)).
Proof.
  intros V d s. unfold dict_update. revert d.
  induction s as [|[k v] s IH]; simpl; intros d H; [exact H|].
  apply IH, dict_set_nodup, H.
Qed.

Lemma dict_set_ok : forall k v d,
  dict_ok d -> node_id v = k -> node_ok v -> incl (node_children v) (k :: map fst d) ->
  dict_ok (dict_set k v d).
Proof.
  intros k v d [Hn Hd] Hid Hv Hc. split; [apply dict_set_nodup, Hn|].
  intros k' v' H. destruct (dict_set_in _ _ _ _ _ H) as [E|H'].
  - injection E; intros; subst. split; [reflexivity|split; [exact Hv|]].
    eapply incl_tran; [exact Hc|apply dict_set_incl].
  - destruct (Hd _ _ H') as [H1 [H2 H3]]. split; [exact H1|split; [exact H2|]].
    eapply incl_tran; [exact H3|]. eapply incl_tran; [|apply dict_set_incl].
    intros x Hx; right; exact Hx.
Qed.

Lemma dict_update_ok : forall d s, dict_ok d -> dict_ok s -> dict_ok (dict_update d s).
Proof.
  intros d s [Hn Hd] [_ Hs]. split; [apply dict_update_nodup, Hn|].
  intros k v H. destruct (dict_update_in _ _ _ _ H) as [H'|H'];
    [destruct (Hd _ _ H') as [H1 [H2 H3]]|destruct (Hs _ _ H') as [H1 [H2 H3]]];
    (split; [exact H1|split; [exact H2|]]);
    (eapply incl_tran; [exact H3|]); (eapply incl_tran; [|apply dict_update_incl]);
    intros x Hx; apply in_or_app; auto.
Qed.

Lemma dict_get_in : forall V k (v : V) d, dict_get k d = Some v -> In (k, v) d.
Proof.
  intros V k v d. induction d as [|[k1 v1] r IH]; simpl; intros H; [discriminate|].
  destruct (str_eqb k k1) eqn:E; [|right; auto].
  apply str_eqb_eq in E. injection H; intros; subst. left. reflexivity.
Qed.

Lemma collect_assets_images : forall cs,
  Forall (fun a => str_in (py_lower (path_suffix a)) IMAGE_EXTENSIONS = true) (collect_assets cs).
Proof.
  intros cs. unfold collect_assets. apply Forall_forall. intros a Ha.
  apply in_map_iff in Ha. destruct Ha as [e [<- He]]. apply filter_In in He.
  destruct He as [_ He]. apply andb_true_iff in He. tauto.
Qed.

Definition sub_ok (r : option (node * dict node)) : Prop :=
  forall n d, r = Some (n, d) -> dict_ok d /\ In (node_id n) (map fst d).

Lemma walk_entry_ok : forall is_root dir_slug x sub all ch,
  sub_ok sub -> dict_ok all -> incl ch (map fst all) ->
  let st' := walk_entry is_root dir_slug x sub (all, ch) in
  dict_ok (fst st') /\ incl (snd st') (map fst (fst st')).
Proof.
  intros is_root dir_slug x sub all ch Hsub Hall Hch st'. subst st'.
  unfold walk_entry. destruct (should_ignore x); [split; assumption|].
  destruct x as [xname|xname xcs].
  - destruct (str_eqb (py_lower (path_suffix xname)) (lit ".md")); [|split; assumption].
    destruct (str_eqb (py_lower xname) (lit "readme.md")); [split; assumption|].
    cbv zeta. match goal with |- context [dict_set ?k ?v all] =>
      assert (Hk : dict_ok (dict_set k v all)) end.
    { apply dict_set_ok; [exact Hall|reflexivity| |intros z []].
      split; [|reflexivity]. destruct (dict_mem _ all); [eexists; reflexivity|].
      unfold make_id. eexists. reflexivity. }
    split; [exact Hk|]. simpl. apply incl_app.
    + eapply incl_tran; [exact Hch|]. eapply incl_tran; [|apply dict_set_incl].
      intros z Hz; right; exact Hz.
    + intros z [<-|[]]. apply dict_set_incl. left. reflexivity.
  - destruct (is_graphics_dir xname).
    + pose proof (collect_assets_images xcs) as Hi.
      destruct (collect_assets xcs) as [|a0 assets] eqn:Ha; [split; assumption|].
      cbv zeta. match goal with |- context [dict_set ?k ?v all] =>
        assert (Hk : dict_ok (dict_set k v all)) end.
      { apply dict_set_ok; [exact Hall|reflexivity| |intros z []].
        split; [unfold make_id; eexists; reflexivity|].
        split; [reflexivity|]. split; [discriminate|exact Hi]. }
      split; [exact Hk|]. simpl. apply incl_app.
      * eapply incl_tran; [exact Hch|]. eapply incl_tran; [|apply dict_set_incl].
        intros z Hz; right; exact Hz.
      * intros z [<-|[]]. apply dict_set_incl. left. reflexivity.
    + destruct sub as [[sn sd]|]; [|split; assumption].
      destruct (Hsub sn sd eq_refl) as [Hsd Hin].
      split; [apply dict_update_ok; assumption|]. simpl. apply incl_app.
      * eapply incl_tran; [exact Hch|]. eapply incl_tran; [|apply dict_update_incl].
        intros z Hz; apply in_or_app; left; exact Hz.
      * intros z [<-|[]]. apply dict_update_incl. apply in_or_app. right. exact Hin.
Qed.

Lemma walk_loop_ok : forall rec is_root dir_slug l all ch all' ch',
  Forall (fun x => sub_ok (rec x)) l -> dict_ok all -> incl ch (map fst all) ->
  walk_loop rec is_root dir_slug l (all, ch) = (all', ch') ->
  dict_ok all' /\ incl ch' (map fst all').
Proof.
  intros rec is_root dir_slug l.
  induction l as [|x l IH]; intros all ch all' ch' Hl Hall Hch E; cbn [walk_loop] in E.
  - injection E; intros; subst. split; assumption.
  - inversion Hl as [|x' l' Hx Hl']; subst.
    destruct (walk_entry_ok is_root dir_slug x (rec x) all ch Hx Hall Hch) as [H1 H2].
    destruct (walk_entry is_root dir_slug x (rec x) (all, ch)) as [all1 ch1] eqn:E1.
    exact (IH all1 ch1 all' ch' Hl' H1 H2 E).
Qed.

Lemma walk_ok : forall e rel is_root root_title n d,
  walk e rel is_root root_title = Some (n, d) ->
  dict_ok d /\ dict_get (node_id n) d = Some n /\ node_kind n = TDirectory.
Proof.
  apply (entry_ind' (fun e => forall rel is_root root_title n d,
    walk e rel is_root root_title = Some (n, d) ->
    dict_ok d /\ dict_get (node_id n) d = Some n /\ node_kind n = TDirectory));
    [intros; discriminate|].
  intros name cs IH rel is_root root_title n d H. cbn [walk] in H.
  destruct (has_readme cs); [|discriminate].
  match type of H with context [walk_loop ?f ?r ?sl cs ([], [])] =>
    destruct (walk_loop f r sl cs ([], [])) as [all ch] eqn:EL;
    destruct (walk_loop_ok f r sl cs [] [] all ch) as [Hall Hch] end.
  - apply Forall_forall. intros x Hx n' d' Hw. rewrite Forall_forall in IH.
    destruct (IH x Hx _ _ _ _ _ Hw) as [H1 [H2 _]]. split; [exact H1|].
    apply (in_map fst _ (node_id n', n')). apply dict_get_in. exact H2.
  - split; [constructor|intros k v []].
  - intros z [].
  - exact EL.
  - injection H; intros <- <-. simpl node_id.
    split; [|split; [rewrite dict_get_set, (proj2 (str_eqb_eq _ _) eq_refl); reflexivity
                    |reflexivity]].
    apply dict_set_ok; [exact Hall|reflexivity| |].
    + split.
      * destruct is_root; [exists (lit "root"); reflexivity|unfold make_id; eexists; reflexivity].
      * destruct is_root; [left; reflexivity|right; reflexivity].
    + intros z Hz. right. exact (Hch z Hz).
Qed.

(** [generate_manifest] returns the root directory under the id
    "root-dir", and the items hold that node: slug "root", content path
    "/readme.html", titled with the given title, or "Root" when the title
    is empty. *)
Theorem manifest_root_node : forall vault title m,
  generate_manifest vault title = Some m ->
  rootId m = lit "root-dir" /\
  exists children,
    dict_get (lit "root-dir") (items m) =
      Some (NDir (lit "root-dir") (match title with [] => lit "Root" | _ => title end)
                 (lit "root") (lit "/readme.html") children).
Proof.
  intros [vn|vn cs] title m H; [discriminate|].
  unfold generate_manifest, walk_directory in H.
  destruct (walk (sort_tree (EDir vn cs)) [] true (Some title)) as [[nd d]|] eqn:W;
    [|discriminate].
  injection H; intros <-. destruct (walk_ok _ _ _ _ _ _ W) as [_ [G _]].
  simpl sort_tree in W. cbn [walk] in W.
  destruct (has_readme _); [|discriminate].
  destruct (walk_loop _ _ _ _ _) as [all ch].
  injection W; intros <- <-. simpl. split; [reflexivity|]. exists ch.
  destruct title; exact G.
Qed.

Lemma manifest_root_node_witness :
  exists m, generate_manifest vault_garden (lit "Digi Garden") = Some m /\
  rootId m = lit "root-dir" /\
  exists children,
    dict_get (lit "root-dir") (items m) =
      Some (NDir (lit "root-dir") (lit "Digi Garden") (lit "root") (lit "/readme.html") children).
Proof.
  exists {| rootId := lit "root-dir";
            items := manifest_items (generate_manifest vault_garden (lit "Digi Garden")) |}.
  split; [vm_compute; reflexivity|].
  apply (manifest_root_node vault_garden (lit "Digi Garden")). vm_compute. reflexivity.
Defined.

(** Every manifest [generate_manifest] returns is well formed: no id
    occurs twice among the items, each item is stored under its node's id,
    every child id listed by a directory node is an item (no dangling
    reference), ids end in "-dir", "-file" or "-graphics" according to the
    node's kind, content paths are "/" + slug + ".html" for files, "/" +
    slug + "/" for graphics and "/readme.html" or "/" + slug +
    "/README.html" for directories, and every graphics node lists at least
    one asset, each with an image extension. *)
Theorem manifest_well_formed : forall vault title m,
  generate_manifest vault title = Some m -> dict_ok (items m).
Proof.
  intros [vn|vn cs] title m H; [discriminate|].
  unfold generate_manifest, walk_directory in H.
  destruct (walk (sort_tree (EDir vn cs)) [] true (Some title)) as [[nd d]|] eqn:W;
    [|discriminate].
  injection H; intros <-. exact (proj1 (walk_ok _ _ _ _ _ _ W)).
Qed.

Lemma manifest_well_formed_witness :
  exists m, generate_manifest vault_garden (lit "Digi Garden") = Some m /\ dict_ok (items m).
Proof.
  exists {| rootId := lit "root-dir";
            items := manifest_items (generate_manifest vault_garden (lit "Digi Garden")) |}.
  split; [vm_compute; reflexivity|].
  apply (manifest_well_formed vault_garden (lit "Digi Garden")). vm_compute. reflexivity.
Defined.

(* ------------------------------------------------------------------ *)
(** ** HTML escaping *)

Lemma escape_char_prefix : forall x y r1 r2,
  escape_char x ++ r1 = escape_char y ++ r2 -> x = y /\ r1 = r2.
Proof.
  intros x y r1 r2 H. unfold escape_char in H.
  destruct (x =? ch_amp) eqn:X1; [|destruct (x =? ch_lt) eqn:X2;
    [|destruct (x =? ch_gt) eqn:X3; [|destruct (x =? ch_dquote) eqn:X4]]];
  (destruct (y =? ch_amp) eqn:Y1; [|destruct (y =? ch_lt) eqn:Y2;
    [|destruct (y =? ch_gt) eqn:Y3; [|destruct (y =? ch_dquote) eqn:Y4]]]);
  cbn in H; inversion H; subst; zbool; unfold ch_amp, ch_lt, ch_gt, ch_dquote in *;
  split; auto; lia.
Qed.

(** [escape_text] is injective, so distinct code blocks are never escaped
    to the same HTML, and its output holds no '<', '>' or double quote. *)
Theorem escape_text_injective_safe : forall a b,
  (escape_text a = escape_text b -> a = b) /\
  Forall (fun c => c <> ch_lt /\ c <> ch_gt /\ c <> ch_dquote) (escape_text a).
Proof.
  intros a b. split.
  - revert b. induction a as [|x a IH]; intros [|y b] H; simpl in H.
    + reflexivity.
    + exfalso. unfold escape_char in H.
      repeat destruct (_ =? _) in H; discriminate.
    + exfalso. unfold escape_char in H.
      repeat destruct (_ =? _) in H; discriminate.
    + destruct (escape_char_prefix _ _ _ _ H) as [-> E]. f_equal. apply IH, E.
  - induction a as [|x a IH]; simpl; [constructor|]. apply Forall_app. split; [|exact IH].
    unfold escape_char. destruct (x =? ch_amp) eqn:X1;
      [|destruct (x =? ch_lt) eqn:X2; [|destruct (x =? ch_gt) eqn:X3;
        [|destruct (x =? ch_dquote) eqn:X4]]];
      apply Forall_forall; intros c Hc; cbn in Hc; zbool; subst; try contradiction;
      unfold ch_amp, ch_lt, ch_gt, ch_dquote in *; lia.
Qed.

(* ------------------------------------------------------------------ *)
(** ** Heading anchors within one counter *)

(** The anchor ids of a document described directly: the heading whose
    slug occurred [k] times before gets the slug alone when [k = 0] and
    the slug followed by "-k" otherwise. *)
Fixpoint expected_headings (prev : list pystr) (d : doc) : list pystr :=
  match d with
  | [] => []
  | (text, level) :: r =>
      let s := slugify_heading text in
      let k := count_occ (list_eq_dec Z.eq_dec) prev s in
      heading_html (if (k =? 0)%nat then s else s ++ lit "-" ++ py_str_int (Z.of_nat k))
                   text level
        :: expected_headings (prev ++ [s]) r
  end.

Definition counts_inv (counts : dict Z) (prev : list pystr) : Prop :=
  forall s, dict_get s counts =
    (let k := count_occ (list_eq_dec Z.eq_dec) prev s in
     if (k =? 0)%nat then None else Some (Z.of_nat k - 1)).

Lemma heading_step : forall counts prev text level,
  counts_inv counts prev ->
  let s := slugify_heading text in
  let k := count_occ (list_eq_dec Z.eq_dec) prev s in
  fst (heading counts text level) =
    heading_html (if (k =? 0)%nat then s else s ++ lit "-" ++ py_str_int (Z.of_nat k))
                 text level /\
  counts_inv (snd (heading counts text level)) (prev ++ [s]).
Proof.
  intros counts prev text level Hinv s k. subst s k. unfold heading.
  set (s := slugify_heading text). rewrite (Hinv s).
  assert (Hs : forall s', count_occ (list_eq_dec Z.eq_dec) (prev ++ [s]) s' =
                 (count_occ (list_eq_dec Z.eq_dec) prev s' + if str_eqb s' s then 1 else 0)%nat).
  { intros s'. rewrite count_occ_app. simpl. unfold str_eqb.
    destruct (list_eq_dec Z.eq_dec s s'), (list_eq_dec Z.eq_dec s' s); subst; try congruence;
      reflexivity. }
  destruct (count_occ (list_eq_dec Z.eq_dec) prev s) as [|k'] eqn:K; cbn [Nat.eqb fst snd].
  - split; [reflexivity|]. intros s'. rewrite dict_get_set, Hs, (Hinv s').
    destruct (str_eqb s' s) eqn:E; [apply str_eqb_eq in E; subst s'; rewrite K; reflexivity|].
    rewrite Nat.add_0_r. reflexivity.
  - rewrite Z.sub_add. split; [reflexivity|].
    intros s'. rewrite dict_get_set, Hs, (Hinv s').
    destruct (str_eqb s' s) eqn:E.
    + apply str_eqb_eq in E; subst s'. rewrite K. cbn [Nat.eqb Nat.add]. f_equal. lia.
    + rewrite Nat.add_0_r. reflexivity.
Qed.

Definition doc_slugs (d : doc) : list pystr := map (fun h => slugify_heading (fst h)) d.

Lemma render_headings_expected : forall d counts prev,
  counts_inv counts prev ->
  fst (render_headings counts d) = expected_headings prev d /\
  counts_inv (snd (render_headings counts d)) (prev ++ doc_slugs d).
Proof.
  induction d as [|[text level] d IH]; intros counts prev Hinv.
  - split; [reflexivity|]. rewrite app_nil_r. exact Hinv.
  - cbn [render_headings expected_headings].
    destruct (heading_step counts prev text level Hinv) as [H1 H2].
    destruct (heading counts text level) as [h counts'] eqn:E. simpl in H1, H2.
    destruct (IH counts' _ H2) as [IH1 IH2].
    destruct (render_headings counts' d) as [hs counts''] eqn:E'. simpl in *.
    rewrite H1, IH1. split; [reflexivity|]. rewrite <- app_assoc in IH2. exact IH2.
Qed.

Lemma expected_headings_app : forall d1 d2 prev,
  expected_headings prev (d1 ++ d2) =
  expected_headings prev d1 ++ expected_headings (prev ++ doc_slugs d1) d2.
Proof.
  induction d1 as [|[text level] d1 IH]; intros d2 prev.
  - rewrite app_nil_r. reflexivity.
  - cbn [app expected_headings]. rewrite IH. cbn [doc_slugs map fst].
    rewrite <- app_assoc. reflexivity.
Qed.

(** The headings of a page, none when its source is not found. *)
Definition page_doc (source : node -> option doc) (n : node) : doc :=
  match source n with Some d => d | None => [] end.

Lemma render_pages_expected : forall source pages counts prev,
  counts_inv counts prev ->
  concat (map snd (fst (render_pages counts source pages))) =
    expected_headings prev (flat_map (page_doc source) pages) /\
  counts_inv (snd (render_pages counts source pages))
    (prev ++ doc_slugs (flat_map (page_doc source) pages)).
Proof.
  intros source. induction pages as [|n ns IH]; intros counts prev Hinv.
  - split; [reflexivity|]. rewrite app_nil_r. exact Hinv.
  - cbn [render_pages flat_map].
    change (page_doc source n) with (match source n with Some d => d | None => [] end).
    destruct (source n) as [d|] eqn:Hs.
    + destruct (render_headings_expected d counts prev Hinv) as [H1 H2].
      destruct (render_headings counts d) as [out c1] eqn:E1. simpl in H1, H2.
      destruct (IH c1 _ H2) as [IH1 IH2].
      destruct (render_pages c1 source ns) as [rest c2] eqn:E2. simpl in IH1, IH2 |- *.
      rewrite expected_headings_app, H1, IH1. split; [reflexivity|].
      unfold doc_slugs in *. rewrite map_app, app_assoc. exact IH2.
    + exact (IH counts prev Hinv).
Qed.

(** [parse_vault] renders every file page and then every README page with
    one parser, so with one heading counter: over the whole run, a heading
    whose slug already occurred [k > 0] times, on this page or on any page
    rendered before it, gets the id slug-k, and the first occurrence the
    bare slug. Within the first page rendered this is numbering per
    document. *)
Theorem heading_ids_numbered_per_run : forall items source,
  concat (map snd (parse_vault_headings items source)) =
  expected_headings []
    (flat_map (page_doc source)
       (filter is_file_node (dict_values items) ++ filter is_dir_node (dict_values items))).
Proof.
  intros items source. unfold parse_vault_headings.
  destruct (render_pages_expected source (filter is_file_node (dict_values items)) [] []
              ltac:(intros s; reflexivity)) as [H1 H2].
  destruct (render_pages [] source (filter is_file_node (dict_values items)))
    as [file_pages counts] eqn:E1. simpl in H1, H2.
  destruct (render_pages_expected source (filter is_dir_node (dict_values items)) counts _ H2)
    as [H3 _].
  destruct (render_pages counts source (filter is_dir_node (dict_values items)))
    as [readme_pages counts'] eqn:E2. simpl in H3.
  rewrite map_app, concat_app, H1, H3, flat_map_app, expected_headings_app. reflexivity.
Qed.

(* ------------------------------------------------------------------ *)
(** ** Front matter normalisation *)

Section YvalInd.
Variable P : yval -> Prop.
Hypothesis HNone : P YNone.
Hypothesis HBool : forall b, P (YBool b).
Hypothesis HInt : forall n, P (YInt n).
Hypothesis HFloat : forall r, P (YFloat r).
Hypothesis HStr : forall s, P (YStr s).
Hypothesis HDate : forall s, P (YDate s).
Hypothesis HDateTime : forall s, P (YDateTime s).
Hypothesis HList : forall l, Forall P l -> P (YList l).
Hypothesis HTuple : forall l, P (YTuple l).
Hypothesis HSet : forall l, P (YSet l).
Hypothesis HBytes : forall b, P (YBytes b).
Hypothesis HDict : forall d, Forall (fun kv => P (snd kv)) d -> P (YDict d).

Fixpoint yval_ind' (v : yval) : P v :=
  match v with
  | YNone => HNone
  | YBool b => HBool b
  | YInt n => HInt n
  | YFloat r => HFloat r
  | YStr s => HStr s
  | YDate s => HDate s
  | YDateTime s => HDateTime s
  | YList l =>
      HList l ((fix go (l : list yval) : Forall P l :=
                  match l with
                  | [] => Forall_nil P
                  | x :: r => Forall_cons x (yval_ind' x) (go r)
                  end) l)
  | YTuple l => HTuple l
  | YSet l => HSet l
  | YBytes b => HBytes b
  | YDict d =>
      HDict d ((fix go (d : list (yval * yval)) : Forall (fun kv => P (snd kv)) d :=
                  match d with
                  | [] => Forall_nil _
                  | (k, x) :: r => Forall_cons (k, x) (yval_ind' x) (go r)
                  end) d)
  end.
End YvalInd.

(** No [date] or [datetime] among the list items and mapping values of
    [v], at any depth: the positions [_normalise] visits. Tuples, sets and
    mapping keys are not looked into. *)
Fixpoint no_list_dict_dates (v : yval) : bool :=
  match v with
  | YDate _ | YDateTime _ => false
  | YList l => forallb no_list_dict_dates l
  | YDict d => forallb (fun kv => no_list_dict_dates (snd kv)) d
  | _ => true
  end.

Lemma normalise_no_list_dict_dates : forall v, no_list_dict_dates (normalise v) = true.
Proof.
  apply yval_ind'; try reflexivity.
  - intros l H. simpl. induction H as [|x l Hx Hl IH]; simpl; [reflexivity|].
    rewrite Hx. exact IH.
  - intros d H. simpl. induction H as [|[k x] d Hx Hl IH]; simpl in *; [reflexivity|].
    rewrite Hx. exact IH.
Qed.

Lemma normalise_id : forall v, no_list_dict_dates v = true -> normalise v = v.
Proof.
  apply (yval_ind' (fun v => no_list_dict_dates v = true -> normalise v = v));
    try (intros; reflexivity); try (intros ? Hd; discriminate Hd).
  - intros l H Hn. simpl in Hn. simpl. f_equal. revert Hn.
    induction H as [|x l Hx Hl IH]; intros Hn; [reflexivity|].
    simpl in Hn. apply andb_true_iff in Hn as [H1 H2]. simpl.
    rewrite (Hx H1), (IH H2). reflexivity.
  - intros d H Hn. simpl in Hn. simpl. f_equal. revert Hn.
    induction H as [|[k x] d Hx Hl IH]; intros Hn; [reflexivity|].
    simpl in Hn. apply andb_true_iff in Hn as [H1 H2]. simpl in Hx |- *.
    rewrite (Hx H1), (IH H2). reflexivity.
Qed.

(** [_normalise] leaves no [date] or [datetime] among list items and
    mapping values, at any depth, and is idempotent; it returns tuples
    and sets as they are, dates inside them included, and never converts
    a mapping key. *)
Theorem normalise_json_safe : forall v,
  no_list_dict_dates (normalise v) = true /\ normalise (normalise v) = normalise v /\
  (forall l, normalise (YTuple l) = YTuple l /\ normalise (YSet l) = YSet l) /\
  (forall d, map fst (match normalise (YDict d) with YDict d' => d' | _ => [] end) = map fst d).
Proof.
  intros v. split; [apply normalise_no_list_dict_dates|]. split.
  - apply normalise_id, normalise_no_list_dict_dates.
  - split; [intros l; split; reflexivity|].
    intros d. cbn [normalise]. rewrite map_map. reflexivity.
Qed.

Lemma strip_prefix_app : forall pat s r, strip_prefix pat s = Some r -> s = pat ++ r.
Proof.
  induction pat as [|p ps IH]; intros [|c s] r H; simpl in H; try discriminate.
  - injection H; intros; subst; reflexivity.
  - injection H; intros; subst; reflexivity.
  - destruct (p =? c) eqn:E; [|discriminate]. apply Z.eqb_eq in E. subst.
    simpl. f_equal. apply IH, H.
Qed.

Lemma span_app : forall p s, s = fst (span p s) ++ snd (span p s).
Proof.
  intros p s. induction s as [|c r IH]; simpl; [reflexivity|].
  destruct (p c); [|reflexivity]. destruct (span p r) as [a b]. simpl in *. congruence.
Qed.

Lemma lazy_group_suffix : forall s g after,
  lazy_group s = Some (g, after) -> exists pre, s = pre ++ after.
Proof.
  induction s as [|c r IH]; intros g after H; cbn [lazy_group] in H; [discriminate|].
  destruct (c =? ch_nl) eqn:Ec; [destruct (strip_prefix (lit "---") r) as [a|] eqn:E|].
  - injection H; intros; subst.
    apply strip_prefix_app in E. exists (c :: lit "---"). rewrite E. reflexivity.
  - destruct (lazy_group r) as [[g' a]|] eqn:L; [|discriminate].
    injection H; intros; subst. destruct (IH _ _ eq_refl) as [pre Hp].
    exists (c :: pre). rewrite Hp. reflexivity.
  - destruct (lazy_group r) as [[g' a]|] eqn:L; [|discriminate].
    injection H; intros; subst. destruct (IH _ _ eq_refl) as [pre Hp].
    exists (c :: pre). rewrite Hp. reflexivity.
Qed.

Lemma try_positions_suffix : forall ps r g after,
  try_positions ps r = Some (g, after) -> exists pre, r = pre ++ after.
Proof.
  induction ps as [|i ps IH]; intros r g after H; cbn [try_positions] in H; [discriminate|].
  destruct (lazy_group (skipn (S i) r)) as [[g' a]|] eqn:L; [|exact (IH _ _ _ H)].
  injection H; intros; subst.
  destruct (lazy_group_suffix _ _ _ L) as [p1 E1].
  exists (firstn (S i) r ++ p1 ++ fst (span py_isspace a)).
  rewrite <- (firstn_skipn (S i) r) at 1. rewrite E1, (span_app py_isspace a) at 1.
  rewrite !app_assoc. reflexivity.
Qed.

(** Whenever [extract_frontmatter] returns, the body is a suffix of the
    text (front matter is only ever cut from the front, never rewritten),
    and no metadata value holds a [date] or [datetime] among its list
    items or mapping values (dates inside tuples or sets, and keys, are
    returned as loaded). *)
Theorem frontmatter_body_suffix : forall safe_load text meta body,
  extract_frontmatter safe_load text = inl (meta, body) ->
  (exists pre, text = pre ++ body) /\ Forall (fun kv => no_list_dict_dates (snd kv) = true) meta.
Proof.
  intros safe_load text meta body H. unfold extract_frontmatter in H.
  assert (Hnil : meta = [] -> body = text ->
                 (exists pre, text = pre ++ body) /\
                 Forall (fun kv => no_list_dict_dates (snd kv) = true) meta).
  { intros -> ->. split; [exists []; reflexivity|constructor]. }
  destruct (frontmatter_match text) as [[raw b]|] eqn:M;
    [|injection H; intros; apply Hnil; auto].
  destruct (safe_load raw) as [v| |exc]; try discriminate;
    [|injection H; intros; apply Hnil; auto].
  destruct v; try (injection H; intros; apply Hnil; auto; fail).
  injection H; intros <- <-. split.
  - unfold frontmatter_match in M.
    destruct (strip_prefix (lit "---") text) as [r|] eqn:S; [|discriminate].
    apply strip_prefix_app in S. destruct (try_positions_suffix _ _ _ _ M) as [pre E].
    exists (lit "---" ++ pre). rewrite S, E, app_assoc. reflexivity.
  - unfold normalise_values. apply Forall_forall. intros kv Hkv.
    apply in_map_iff in Hkv. destruct Hkv as [kv' [<- _]]. apply normalise_no_list_dict_dates.
Qed.

Lemma frontmatter_body_suffix_witness :
  exists meta body,
    extract_frontmatter dated_load (lit "---
date: 2026-02-13
---
Body") = inl (meta, body) /\
    (exists pre, lit "---
date: 2026-02-13
---
Body" = pre ++ body) /\
    Forall (fun kv => no_list_dict_dates (snd kv) = true) meta.
Proof.
  exists (normalise_values dated_meta), (lit "Body"). split; [vm_compute; reflexivity|].
  apply (frontmatter_body_suffix dated_load). vm_compute. reflexivity.
Defined.

(* ------------------------------------------------------------------ *)
(** ** Lookup indexes *)

Lemma find_app : forall {A} (p : A -> bool) l1 l2,
  find p (l1 ++ l2) = match find p l1 with Some x => Some x | None => find p l2 end.
Proof.
  intros A p l1 l2. induction l1 as [|x l1 IH]; simpl; [reflexivity|].
  destruct (p x); [reflexivity|exact IH].
Qed.

Lemma slug_index_fold : forall s vals (index : dict node),
  dict_get s (fold_left (fun index n =>
                           match node_kind n with
                           | TGraphics => index
                           | _ => dict_set (node_slug n) n index
                           end) vals index) =
  match find (fun n => not_graphics n && str_eqb (node_slug n) s) (rev vals) with
  | Some n => Some n
  | None => dict_get s index
  end.
Proof.
  intros s vals. induction vals as [|x vals IH]; intros index; simpl; [reflexivity|].
  rewrite IH, find_app. destruct (find _ (rev vals)) as [n|]; [reflexivity|]. simpl.
  unfold not_graphics. destruct (node_kind x); simpl;
    try (rewrite dict_get_set; destruct (str_eqb s (node_slug x)) eqn:E1;
         destruct (str_eqb (node_slug x) s) eqn:E2; try reflexivity;
         apply str_eqb_eq in E1 || apply str_eqb_eq in E2; subst;
         rewrite (proj2 (str_eqb_eq _ _) eq_refl) in *; discriminate).
  reflexivity.
Qed.

(** [build_slug_index] maps a slug to the last non-graphics item (in the
    items' order) bearing that slug, and knows no other slug: graphics
    nodes are never indexed, and a later node with the same slug replaces
    an earlier one. *)
Theorem slug_index_last_wins : forall items s,
  dict_get s (build_slug_index items) =
  find (fun n => not_graphics n && str_eqb (node_slug n) s) (rev (dict_values items)).
Proof.
  intros items s. unfold build_slug_index. rewrite slug_index_fold.
  destruct (find _ _); reflexivity.
Qed.

Lemma title_index_fold : forall k vals (index : dict (list node)),
  dict_get k (fold_left (fun index n =>
       match node_kind n with
       | TGraphics => index
       | _ =>
         let key := py_lower (node_title n) in
         let old := match dict_get key index with Some l => l | None => [] end in
         dict_set key (old ++ [n]) index
       end) vals index) =
  match dict_get k index,
        filter (fun n => not_graphics n && str_eqb (py_lower (node_title n)) k) vals with
  | None, [] => None
  | None, l => Some l
  | Some o, l => Some (o ++ l)
  end.
Proof.
  intros k vals. induction vals as [|x vals IH]; intros index; simpl.
  - destruct (dict_get k index); [rewrite app_nil_r|]; reflexivity.
  - rewrite IH.
    generalize (filter (fun n => not_graphics n && str_eqb (py_lower (node_title n)) k) vals).
    intros F. unfold not_graphics. destruct (node_kind x) eqn:Kx; simpl;
      [| |destruct (dict_get k index), F; reflexivity].
    all: rewrite dict_get_set.
    all: replace (str_eqb (py_lower (node_title x)) k) with (str_eqb k (py_lower (node_title x)))
           by (unfold str_eqb; destruct (list_eq_dec Z.eq_dec k (py_lower (node_title x))),
                 (list_eq_dec Z.eq_dec (py_lower (node_title x)) k); congruence).
    all: destruct (str_eqb k (py_lower (node_title x))) eqn:E; simpl; [|reflexivity].
    all: apply str_eqb_eq in E; rewrite <- E.
    all: destruct (dict_get k index); simpl; rewrite <- ?app_assoc; reflexivity.
Qed.

(** [build_title_index] maps a lowercased title to all non-graphics items
    with that lowercased title, in the items' order, and knows no other
    key. *)
Theorem title_index_groups : forall items k,
  dict_get k (build_title_index items) =
  match filter (fun n => not_graphics n && str_eqb (py_lower (node_title n)) k)
               (dict_values items) with
  | [] => None
  | l => Some l
  end.
Proof.
  intros items k. unfold build_title_index. rewrite title_index_fold. reflexivity.
Qed.

(** A wiki link resolved against the indexes of a manifest points either
    to "#" or to the content path of a non-graphics item of that
    manifest: it never targets a graphics directory or a page outside the
    manifest. *)
Theorem wiki_link_href_sound : forall target items,
  let href := fst (resolve_wiki_link target (build_title_index items) (build_slug_index items)) in
  href = lit "#" \/
  exists n, In n (dict_values items) /\ not_graphics n = true /\ href = node_content_path n.
Proof.
  intros target items href. subst href.
  assert (Hs : forall s n, dict_get s (build_slug_index items) = Some n ->
                 In n (dict_values items) /\ not_graphics n = true).
  { intros s n H. rewrite slug_index_last_wins in H. apply find_some in H.
    destruct H as [H1 H2]. apply andb_true_iff in H2. split; [apply in_rev, H1|tauto]. }
  assert (Ht : forall k n, dict_get k (build_title_index items) = Some [n] ->
                 In n (dict_values items) /\ not_graphics n = true).
  { intros k n H. rewrite title_index_groups in H.
    destruct (filter _ _) as [|m l] eqn:F; [discriminate|]. injection H; intros -> ->.
    assert (Hm : In n (filter (fun n => not_graphics n && str_eqb (py_lower (node_title n)) k)
                         (dict_values items))) by (rewrite F; left; reflexivity).
    apply filter_In in Hm. destruct Hm as [Hm1 Hm2]. apply andb_true_iff in Hm2. tauto. }
  unfold resolve_wiki_link.
  destruct (match split_once ch_pipe target with
            | Some (a, b) => (a, Some b) | None => (target, None) end) as [part disp].
  destruct (dict_get _ (build_slug_index items)) as [n|] eqn:E1;
    [right; exists n; destruct (Hs _ _ E1); auto|].
  destruct (dict_get _ (build_title_index items)) as [[|n [|m l]]|] eqn:E2;
    try (right; exists n; destruct (Ht _ _ E2); auto; fail).
  all: destruct (dict_get (slugify (py_strip part)) (build_slug_index items)) as [n3|] eqn:E3;
    [right; exists n3; destruct (Hs _ _ E3); auto|left; reflexivity].
Qed.

(* ------------------------------------------------------------------ *)
(** ** Sanitizing only deletes *)

(** [subseq a b]: [a] is [b] with some characters deleted. *)
Inductive subseq : pystr -> pystr -> Prop :=
| subseq_nil : forall b, subseq [] b
| subseq_keep : forall x a b, subseq a b -> subseq (x :: a) (x :: b)
| subseq_drop : forall x a b, subseq a b -> subseq a (x :: b).

Lemma subseq_refl : forall a, subseq a a.
Proof. induction a; constructor; assumption. Qed.

Lemma subseq_app_l : forall p a b, subseq a b -> subseq a (p ++ b).
Proof. induction p as [|x p IH]; intros a b H; simpl; [exact H|constructor; auto]. Qed.

Lemma subseq_trans : forall a b c, subseq a b -> subseq b c -> subseq a c.
Proof.
  intros a b c Hab Hbc. revert a Hab.
  induction Hbc as [c|x b c Hbc IH|x b c Hbc IH]; intros a Hab.
  - inversion Hab; subst. constructor.
  - inversion Hab as [|y a' b' H'|y a' b' H']; subst.
    + constructor.
    + constructor. apply IH, H'.
    + constructor. apply IH, H'.
  - constructor. apply IH, Hab.
Qed.

Lemma strip_prefix_ci_suffix : forall pat s r,
  strip_prefix_ci pat s = Some r -> exists pre, s = pre ++ r.
Proof.
  induction pat as [|p ps IH]; intros [|c s] r H; simpl in H; try discriminate.
  - injection H; intros <-. exists []. reflexivity.
  - injection H; intros <-. exists []. reflexivity.
  - destruct (ci_eq p c); [|discriminate].
    destruct (IH _ _ H) as [pre ->]. exists (c :: pre). reflexivity.
Qed.

Lemma skip_past_suffix : forall c s r, skip_past c s = Some r -> exists pre, s = pre ++ r.
Proof.
  intros c s; induction s as [|x s IH]; intros r H; simpl in H; [discriminate|].
  destruct (x =? c).
  - injection H; intros <-. exists [x]. reflexivity.
  - destruct (IH _ H) as [pre ->]. exists (x :: pre). reflexivity.
Qed.

Lemma skip_past_ci_suffix : forall pat s r,
  skip_past_ci pat s = Some r -> exists pre, s = pre ++ r.
Proof.
  intros pat s; induction s as [|x s IH]; intros r H; cbn [skip_past_ci] in H.
  - destruct (strip_prefix_ci pat []) eqn:E; [|discriminate].
    injection H; intros <-. exact (strip_prefix_ci_suffix _ _ _ E).
  - destruct (strip_prefix_ci pat (x :: s)) eqn:E.
    + injection H; intros <-. exact (strip_prefix_ci_suffix _ _ _ E).
    + destruct (IH _ H) as [pre ->]. exists (x :: pre). reflexivity.
Qed.

Lemma match_element_suffix : forall tag s r,
  match_element tag s = Some r -> exists pre, s = pre ++ r.
Proof.
  intros tag s r H. unfold match_element in H.
  destruct (strip_prefix_ci _ s) as [r1|] eqn:E1; [|discriminate].
  destruct (skip_past ch_gt r1) as [r2|] eqn:E2; [|discriminate].
  destruct (skip_past_ci_suffix _ _ _ H) as [p3 ->].
  destruct (skip_past_suffix _ _ _ E2) as [p2 ->].
  destruct (strip_prefix_ci_suffix _ _ _ E1) as [p1 ->].
  exists (p1 ++ p2 ++ p3). rewrite <- !app_assoc. reflexivity.
Qed.

Lemma sfx_trans : forall a b c : pystr,
  (exists p, a = p ++ b) -> (exists p, b = p ++ c) -> exists p, a = p ++ c.
Proof.
  intros a b c [p1 ->] [p2 ->]. exists (p1 ++ p2). rewrite app_assoc. reflexivity.
Qed.

Lemma match_handler_suffix : forall q s r,
  match_handler q s = Some r -> exists pre, s = pre ++ r.
Proof.
  intros q s r H. unfold match_handler in H.
  pose proof (span_app py_isspace s) as S1.
  destruct (span py_isspace s) as [ws r0]. simpl in S1.
  destruct ws as [|z ws]; [discriminate|].
  destruct (strip_prefix_ci (lit "on") r0) as [r1|] eqn:E1; [|discriminate].
  pose proof (span_app is_word r1) as S2.
  destruct (span is_word r1) as [w r2]. simpl in S2.
  destruct w as [|y w]; [discriminate|].
  pose proof (span_app py_isspace r2) as S3.
  destruct (snd (span py_isspace r2)) as [|c r4] eqn:E3; [discriminate|].
  destruct (c =? ch_eq); [|discriminate].
  pose proof (span_app py_isspace r4) as S4.
  destruct (strip_prefix_ci q (snd (span py_isspace r4))) as [r6|] eqn:E4; [|discriminate].
  destruct q as [|qc [|]]; try discriminate.
  apply (sfx_trans _ r0); [exists (z :: ws); exact S1|].
  apply (sfx_trans _ r1); [exact (strip_prefix_ci_suffix _ _ _ E1)|].
  apply (sfx_trans _ r2); [exists (y :: w); exact S2|].
  apply (sfx_trans _ r4); [exists (fst (span py_isspace r2) ++ [c]); rewrite <- app_assoc;
                           exact S3|].
  apply (sfx_trans _ (snd (span py_isspace r4))); [exists (fst (span py_isspace r4)); exact S4|].
  apply (sfx_trans _ r6); [exact (strip_prefix_ci_suffix _ _ _ E4)|].
  exact (skip_past_suffix _ _ _ H).
Qed.

Lemma sub_all_subseq : forall m n s,
  (forall t r, m t = Some r -> exists pre, t = pre ++ r) -> subseq (sub_all n m s) s.
Proof.
  intros m n. induction n as [|n IH]; intros s Hm; [apply subseq_refl|].
  destruct s as [|c s]; [constructor|]. cbn [sub_all].
  destruct (m (c :: s)) as [r|] eqn:E.
  - destruct (Hm _ _ E) as [pre Hp]. rewrite Hp. apply subseq_app_l, IH, Hm.
  - constructor. apply IH, Hm.
Qed.

(** [_sanitized_call]'s five substitutions only delete characters: the
    sanitized HTML is the rendered HTML with some characters removed,
    never with characters added or reordered. *)
Theorem sanitize_only_deletes : forall html, subseq (sanitize html) html.
Proof.
  intros html. unfold sanitize, re_sub_empty.
  do 4 (eapply subseq_trans; [apply sub_all_subseq;
          intros t r Ht; first [exact (match_element_suffix _ _ _ Ht)
                               | exact (match_handler_suffix _ _ _ Ht)]|]).
  apply sub_all_subseq. intros t r Ht. exact (match_element_suffix _ _ _ Ht).
Qed.

(* ------------------------------------------------------------------ *)
(** ** Image embeds *)

Lemma split_once_app : forall c s w, mem_char c s = false ->
  split_once c (s ++ c :: w) = Some (s, w).
Proof.
  intros c s w; induction s as [|x r IH]; simpl.
  - rewrite Z.eqb_refl. reflexivity.
  - intro H. apply orb_false_iff in H as [H1 H2].
    rewrite Z.eqb_sym, H1, (IH H2). reflexivity.
Qed.

(** The width suffix of an embed, "![[img.png|350]]", does not change the
    rendered image: whatever follows the first '|' is ignored. *)
Theorem embed_pipe_suffix_ignored : forall asset_index f w,
  mem_char ch_pipe f = false ->
  render_wiki_embed asset_index (f ++ ch_pipe :: w) = render_wiki_embed asset_index f.
Proof.
  intros asset_index f w H. unfold render_wiki_embed.
  rewrite (split_once_app _ _ _ H), (split_once_none _ _ H). reflexivity.
Qed.

Lemma embed_pipe_suffix_ignored_witness :
  mem_char ch_pipe (lit "graphics/hap.png") = false /\
  render_wiki_embed [(lit "hap.png", lit "/moss/graphics/")] (lit "graphics/hap.png|350") =
  render_wiki_embed [(lit "hap.png", lit "/moss/graphics/")] (lit "graphics/hap.png").
Proof.
  split; [reflexivity|].
  exact (embed_pipe_suffix_ignored [(lit "hap.png", lit "/moss/graphics/")]
           (lit "graphics/hap.png") (lit "350") eq_refl).
Defined.

(* ------------------------------------------------------------------ *)
(** ** File ids *)

Lemma mem_char_false_Forall : forall c s, mem_char c s = false <-> Forall (fun x => x <> c) s.
Proof.
  intros c s. unfold mem_char. induction s as [|x s IH]; simpl; [split; auto|].
  rewrite orb_false_iff, IH. split.
  - intros [H1 H2]. constructor; [|exact H2]. intro E. subst. rewrite Z.eqb_refl in H1.
    discriminate.
  - intros H. inversion H; subst. split; [apply Z.eqb_neq; auto|assumption].
Qed.

Lemma slugify_no_slash : forall s,
  Forall (fun x => x <> ch_slash) s -> Forall (fun x => x <> ch_slash) (slugify s).
Proof.
  intros s H. unfold slugify, slugify_with, py_strip. cbv zeta.
  apply Forall_strip_by. apply collapse_runs_Forall; [|discriminate].
  apply collapse_runs_Forall; [|discriminate].
  apply Forall_forall. intros c Hc. apply filter_In in Hc. destruct Hc as [Hc _].
  revert c Hc. apply Forall_forall. unfold py_lower.
  apply (lower_aux_Forall _ (fun x => x <> ch_slash)); [|apply Forall_strip_by, H].
  intros b c a Hc. apply lower_ucs4_avoids; [vm_compute; reflexivity|discriminate|discriminate|exact Hc].
Qed.

Lemma rfind_none : forall c s, mem_char c s = false -> rfind c s = None.
Proof.
  intros c s; induction s as [|x r IH]; simpl; [reflexivity|].
  intro H. apply orb_false_iff in H as [H1 H2]. rewrite (IH H2), Z.eqb_sym, H1. reflexivity.
Qed.

Lemma rfind_app_sep : forall c p y, mem_char c y = false ->
  rfind c (p ++ c :: y) = Some (length p).
Proof.
  intros c p y H. induction p as [|x p IH]; simpl.
  - rewrite (rfind_none c y H), Z.eqb_refl. reflexivity.
  - rewrite IH. reflexivity.
Qed.

Lemma last_split_on_app : forall c p y, mem_char c y = false ->
  last (split_on c (p ++ c :: y)) [] = y.
Proof.
  intros c p y H. rewrite <- rsplit_last_split_on. unfold rsplit_last.
  rewrite (rfind_app_sep c p y H). rewrite skipn_app.
  replace (S (length p) - length p)%nat with 1%nat by lia.
  rewrite skipn_all2 by lia. reflexivity.
Qed.

Lemma lstrip_by_app : forall p d e, (forall c r, e = c :: r -> p c = false) ->
  lstrip_by p (d ++ e) = match lstrip_by p d with [] => e | u => u ++ e end.
Proof.
  intros p d e He. induction d as [|c d IH]; simpl.
  - apply lstrip_by_head_id, He.
  - destruct (p c); [exact IH|reflexivity].
Qed.

(** [make_id] on a file slug built as the walker builds [file_slug] (the
    slugified stem, after the directory slug and a '/' below the root)
    keeps only the last path segment: the first id tried for a file is the
    slugified stem followed by "-file", whatever the directory, provided
    the stem has no '/' and does not slugify to the empty string. (The
    walker's collision fallback [slugify(file_slug) + '-file'] is another
    id, which keeps the directory prefix.) *)
Theorem file_id_from_stem : forall (is_root : bool) (dir_slug stem : pystr),
  mem_char ch_slash stem = false -> slugify stem <> [] ->
  make_id (if is_root then slugify stem else dir_slug ++ lit "/" ++ slugify stem) TFile =
  slugify stem ++ lit "-file".
Proof.
  intros is_root dir_slug stem Hs Hne.
  pose proof (slugify_no_slash stem (proj1 (mem_char_false_Forall _ _) Hs)) as Hy.
  set (y := slugify stem) in *.
  assert (Hm : mem_char ch_slash y = false) by (apply mem_char_false_Forall, Hy).
  assert (Hhd : forall c r, y = c :: r -> Z.eqb ch_slash c = false).
  { intros c r E. rewrite E in Hy. inversion Hy; subst. apply Z.eqb_neq. auto. }
  assert (Hlast : forall u, (forall c r, rev u = c :: r -> Z.eqb ch_slash c = false) ->
                  strip_by (Z.eqb ch_slash) u = lstrip_by (Z.eqb ch_slash) u).
  { intros u Hu. unfold strip_by. destruct (lstrip_by_suffix (Z.eqb ch_slash) u) as [pre E].
    set (v := lstrip_by (Z.eqb ch_slash) u) in *.
    destruct v as [|a v'] eqn:Ev; [reflexivity|].
    rewrite (lstrip_by_head_id _ (rev (a :: v'))); [apply rev_involutive|].
    intros c r Er. apply (Hu c (r ++ rev pre)). rewrite E, rev_app_distr, Er. reflexivity. }
  assert (Hry : forall c r, rev y = c :: r -> Z.eqb ch_slash c = false).
  { intros c r E. apply Z.eqb_neq. intro Ec. subst c.
    assert (In ch_slash y) by (apply in_rev; rewrite E; left; reflexivity).
    rewrite Forall_forall in Hy. exact (Hy _ H eq_refl). }
  unfold make_id. destruct is_root.
  - rewrite (Hlast y Hry), (lstrip_by_head_id _ y Hhd), (split_on_no_mem _ _ Hm).
    destruct y; [contradiction|reflexivity].
  - assert (Hr : forall c r, rev (dir_slug ++ lit "/" ++ y) = c :: r ->
                   Z.eqb ch_slash c = false).
    { intros c r E. destruct (rev y) as [|c' r'] eqn:Er.
      - exfalso. apply Hne. apply (f_equal (@rev Z)) in Er. rewrite rev_involutive in Er.
        exact Er.
      - rewrite !rev_app_distr, Er in E. simpl in E. injection E; intros _ <-.
        exact (Hry c' r' eq_refl). }
    rewrite (Hlast _ Hr).
    change (lit "/" ++ y) with (ch_slash :: y).
    replace (dir_slug ++ ch_slash :: y) with ((dir_slug ++ [ch_slash]) ++ y)
      by (rewrite <- app_assoc; reflexivity).
    rewrite (lstrip_by_app (Z.eqb ch_slash) (dir_slug ++ [ch_slash]) y Hhd).
    destruct (lstrip_by_suffix (Z.eqb ch_slash) (dir_slug ++ [ch_slash])) as [pre Epre].
    destruct (lstrip_by (Z.eqb ch_slash) (dir_slug ++ [ch_slash])) as [|a u] eqn:Eu.
    + rewrite (split_on_no_mem _ _ Hm).
      destruct y; [contradiction|reflexivity].
    + destruct (exists_last (l := a :: u) ltac:(discriminate)) as [u' [x Ex]].
      rewrite Ex in Epre |- *. rewrite app_assoc in Epre.
      apply app_inj_tail in Epre. destruct Epre as [_ <-].
      replace ((u' ++ [ch_slash]) ++ y) with (u' ++ ch_slash :: y)
        by (rewrite <- app_assoc; reflexivity).
      rewrite (last_split_on_app ch_slash u' y Hm). destruct y; [contradiction|reflexivity].
Qed.

Lemma file_id_from_stem_witness :
  mem_char ch_slash (lit "Golden File") = false /\ slugify (lit "Golden File") <> [] /\
  make_id (lit "moss/notes" ++ lit "/" ++ slugify (lit "Golden File")) TFile =
  lit "golden-file-file".
Proof.
  split; [reflexivity|]. split; [discriminate|].
  exact (file_id_from_stem false (lit "moss/notes") (lit "Golden File") eq_refl
           ltac:(discriminate)).
Defined.

(* ------------------------------------------------------------------ *)
(** ** Display titles *)

(** [str.title] on ASCII text, where the Unicode tables reduce to the ASCII
    case maps and no sigma occurs. *)
Fixpoint ascii_title_aux (pc : bool) (s : pystr) : pystr :=
  match s with
  | [] => []
  | c :: r => (if pc then ascii_lower c else ascii_upper c) :: ascii_title_aux (ascii_cased c) r
  end.

Definition is_ascii (c : Z) : Prop := 0 <= c < 128.

Lemma forallb_ascii : forall s,
  forallb (fun c => (0 <=? c) && (c <? 128)) s = true -> Forall is_ascii s.
Proof.
  intros s H. rewrite forallb_forall in H. apply Forall_forall. intros c Hc.
  specialize (H c Hc). zbool. apply Z.ltb_lt in H0. unfold is_ascii. lia.
Qed.

Lemma title_aux_ascii : forall pc bf s,
  Forall is_ascii s -> title_aux pc bf s = ascii_title_aux pc s.
Proof.
  intros pc bf s H. revert pc bf. induction H as [|c r Hc Hr IH]; intros pc bf; [reflexivity|].
  cbn [title_aux ascii_title_aux]. rewrite IH. rewrite (is_cased_ascii c Hc).
  destruct pc; [rewrite (lower_ucs4_ascii bf c r Hc)|rewrite (title_full_ascii c Hc)];
    reflexivity.
Qed.

Lemma ascii_lower_idem (c : Z) : ascii_lower (ascii_lower c) = ascii_lower c.
Proof. unfold ascii_lower. destruct ((65 <=? c) && (c <=? 90)) eqn:E; zbool;
  destruct ((65 <=? _) && (_ <=? 90)) eqn:E2; zbool; lia. Qed.

Lemma ascii_upper_idem (c : Z) : ascii_upper (ascii_upper c) = ascii_upper c.
Proof. unfold ascii_upper. destruct ((97 <=? c) && (c <=? 122)) eqn:E; zbool;
  destruct ((97 <=? _) && (_ <=? 122)) eqn:E2; zbool; lia. Qed.

Lemma ascii_cased_lower (c : Z) : ascii_cased (ascii_lower c) = ascii_cased c.
Proof.
  unfold ascii_cased, ascii_lower.
  destruct ((65 <=? c) && (c <=? 90)) eqn:E; [zbool|rewrite ?E; reflexivity].
  replace ((65 <=? c) && (c <=? 90)) with true by (symmetry; apply andb_true_iff; lia).
  replace ((97 <=? c + 32) && (c + 32 <=? 122)) with true
    by (symmetry; apply andb_true_iff; lia).
  rewrite orb_true_r; reflexivity.
Qed.

Lemma ascii_cased_upper (c : Z) : ascii_cased (ascii_upper c) = ascii_cased c.
Proof.
  unfold ascii_cased, ascii_upper.
  destruct ((97 <=? c) && (c <=? 122)) eqn:E; [zbool|rewrite ?E; reflexivity].
  replace ((97 <=? c) && (c <=? 122)) with true by (symmetry; apply andb_true_iff; lia).
  replace ((65 <=? c - 32) && (c - 32 <=? 90)) with true
    by (symmetry; apply andb_true_iff; lia).
  rewrite orb_true_r; reflexivity.
Qed.

Lemma ascii_title_aux_idem (b : bool) (s : pystr) :
  ascii_title_aux b (ascii_title_aux b s) = ascii_title_aux b s.
Proof.
  revert b. induction s as [|c r IH]; intro b; [reflexivity|].
  cbn [ascii_title_aux]. destruct b.
  - rewrite ascii_lower_idem, ascii_cased_lower, IH. reflexivity.
  - rewrite ascii_upper_idem, ascii_cased_upper, IH. reflexivity.
Qed.

Lemma ascii_title_aux_length (b : bool) (s : pystr) :
  length (ascii_title_aux b s) = length s.
Proof. revert b. induction s as [|c r IH]; intro b; cbn; [reflexivity|]. rewrite IH; reflexivity. Qed.

Lemma ascii_title_aux_ascii (b : bool) (s : pystr) :
  Forall is_ascii s -> Forall is_ascii (ascii_title_aux b s).
Proof.
  intro H. revert b. induction H as [|c r Hc Hr IH]; intro b; [constructor|].
  cbn [ascii_title_aux]. constructor; [|apply IH]. unfold is_ascii in *.
  destruct b; [unfold ascii_lower|unfold ascii_upper];
    match goal with |- context [if ?t then _ else _] => destruct t eqn:E end; zbool; lia.
Qed.

Definition not_sep (c : Z) : Prop := c <> ch_underscore /\ c <> ch_hyphen.

Lemma Forall_and2 : forall (P Q : Z -> Prop) l,
  Forall P l -> Forall Q l -> Forall (fun x => P x /\ Q x) l.
Proof. induction 1; inversion 1; constructor; auto. Qed.

Lemma replace_seps_not_sep (name : pystr) :
  Forall not_sep (replace_char ch_hyphen ch_space (replace_char ch_underscore ch_space name)).
Proof.
  induction name as [|c r IH]; [constructor|].
  cbn [replace_char map] in *. constructor; [|exact IH].
  unfold not_sep, ch_underscore, ch_hyphen, ch_space.
  destruct (c =? 95) eqn:E1; zbool; [cbn; lia|].
  destruct (c =? 45) eqn:E2; zbool; lia.
Qed.

Lemma replace_char_absent (a b : Z) (s : pystr) :
  Forall (fun c => c <> a) s -> replace_char a b s = s.
Proof.
  induction 1 as [|c r Hc _ IH]; [reflexivity|].
  unfold replace_char in *. cbn [map]. rewrite IH.
  destruct (c =? a) eqn:E; zbool; [contradiction|reflexivity].
Qed.

Lemma replace_char_ascii (a b : Z) (s : pystr) :
  is_ascii b -> Forall is_ascii s -> Forall is_ascii (replace_char a b s).
Proof.
  intros Hb. induction 1 as [|c r Hc _ IH]; [constructor|].
  unfold replace_char in *. cbn [map]. constructor; [|exact IH].
  destruct (c =? a); assumption.
Qed.

Lemma make_title_not_sep (name : pystr) : Forall not_sep (make_title name).
Proof.
  unfold make_title, py_title.
  apply (title_aux_Forall _ not_sep); [| |apply replace_seps_not_sep].
  - intros b c a [H1 H2]. apply Forall_and2.
    + apply lower_ucs4_avoids; [vm_compute; reflexivity|discriminate|discriminate|exact H1].
    + apply lower_ucs4_avoids; [vm_compute; reflexivity|discriminate|discriminate|exact H2].
  - intros c [H1 H2]. apply Forall_and2.
    + apply case_map_avoids; [vm_compute; reflexivity|exact H1].
    + apply case_map_avoids; [vm_compute; reflexivity|exact H2].
Qed.

(** [make_title] never leaves a '_' or a '-' in a title, whatever the
    name: no Unicode lowercase or titlecase mapping produces either. *)
Theorem make_title_no_separators (name : pystr) : Forall not_sep (make_title name).
Proof. apply make_title_not_sep. Qed.

(** For a name of ASCII characters, [make_title] keeps the length of the
    name, and applied to its own output changes nothing. (Not so for all
    of Unicode: [str.title] can lengthen a string, and U+1FB7 is a
    character on which [make_title] is not idempotent.) *)
Theorem make_title_ascii_normal_form (name : pystr) :
  Forall is_ascii name ->
  length (make_title name) = length name /\ make_title (make_title name) = make_title name.
Proof.
  intro H.
  assert (Hr : Forall is_ascii (replace_char ch_hyphen ch_space
                                  (replace_char ch_underscore ch_space name))).
  { apply replace_char_ascii; [unfold is_ascii, ch_space; lia|].
    apply replace_char_ascii; [unfold is_ascii, ch_space; lia|exact H]. }
  pose proof (make_title_not_sep name) as Hs.
  unfold make_title, py_title in *. rewrite (title_aux_ascii _ _ _ Hr) in *. split.
  - rewrite ascii_title_aux_length. unfold replace_char. rewrite !length_map. reflexivity.
  - rewrite (replace_char_absent ch_underscore).
    2:{ eapply Forall_impl; [|exact Hs]. intros c [H1 _]; exact H1. }
    rewrite (replace_char_absent ch_hyphen).
    2:{ eapply Forall_impl; [|exact Hs]. intros c [_ H2]; exact H2. }
    rewrite (title_aux_ascii _ _ _ (ascii_title_aux_ascii _ _ Hr)).
    apply ascii_title_aux_idem.
Qed.

Lemma make_title_ascii_normal_form_witness :
  Forall is_ascii (lit "golden_file") /\
  length (make_title (lit "golden_file")) = length (lit "golden_file") /\
  make_title (make_title (lit "golden_file")) = make_title (lit "golden_file").
Proof.
  assert (H : Forall is_ascii (lit "golden_file")) by (apply forallb_ascii; vm_compute; reflexivity).
  split; [exact H|]. exact (make_title_ascii_normal_form (lit "golden_file") H).
Defined.

(* ------------------------------------------------------------------ *)
(** ** Code blocks *)

Lemma lstrip_by_nil_iff (p : Z -> bool) (s : pystr) :
  lstrip_by p s = [] <-> Forall (fun c => p c = true) s.
Proof.
  induction s as [|c r IH]; cbn; [split; auto|].
  destruct (p c) eqn:E.
  - rewrite IH. split; [intro; constructor; auto|inversion 1; auto].
  - split; [discriminate|inversion 1; congruence].
Qed.

(** [block_code] fails (the [info.split()[0]] of an empty split) exactly when
    the info string is non-empty and made only of whitespace. *)
Theorem block_code_error_iff (code : pystr) (info : option pystr) :
  block_code code info = None <->
  exists i, info = Some i /\ i <> [] /\ Forall (fun c => py_isspace c = true) i.
Proof.
  unfold block_code. split.
  - destruct info as [[|c r]|]; try discriminate.
    unfold first_word. destruct (lstrip_by py_isspace (c :: r)) eqn:E; [|discriminate].
    intros _. exists (c :: r). split; [reflexivity|]. split; [discriminate|].
    apply lstrip_by_nil_iff, E.
  - intros [i [-> [Hne Hs]]]. destruct i as [|c r]; [contradiction|].
    unfold first_word. apply lstrip_by_nil_iff in Hs. rewrite Hs. reflexivity.
Qed.
